(** * XMLParser_Cpp: a shallow embedding of [bbxml::parse_xml]

    The development follows [xml_document.h] and [xml_document.cpp].

    - A [std::string] is a list of bytes ([list ascii]); an iterator range
      [(first, last)] over it is the list of the bytes in the range.
    - A [std::regex] is the syntax tree of its pattern, and
      [std::regex_search] and [std::regex_match] are a backtracking matcher
      over such trees, with the choices of the ECMAScript grammar: a greedy
      quantifier takes the longest repetition first and a lazy one the
      shortest, the alternatives of [|] are tried from left to right, and a
      search takes the match at the leftmost position that has one.  [^]
      matches at the start of the searched range only, [\s] is the [isspace]
      class of the classic locale, [\d] is [0-9] and [.] excludes the line
      terminators LF and CR.  In the comments a pattern is quoted with
      [\x22] in the place of its double quote character.
    - The tree of [std::shared_ptr<xml_node>] under construction is kept as
      the node that [current_node] points to together with the chain of its
      ancestors (the [parent] links); a node that is still open is the last
      element of the [nodes] vector of its parent.
    - An exception is a constructor of [outcome]; the text that
      [position_of] appends to each message is not modelled.  [position_of]
      and [description] are functions of their own, on the range and on the
      tree that they are given. *)

From Stdlib Require Import Ascii String List Arith Lia Bool DecimalString.
Import ListNotations.

(** ** Byte strings *)

Definition str : Type := list ascii.

Definition lit (s : string) : str := list_ascii_of_string s.

Definition dquote : ascii := "034"%char.
Definition apos : ascii := "039"%char.

Definition str_eqb (a b : str) : bool :=
  if list_eq_dec ascii_dec a b then true else false.

(** [std::string::operator<]: bytes compared as unsigned values. *)
Fixpoint str_ltb (a b : str) : bool :=
  match a, b with
  | _, [] => false
  | [], _ :: _ => true
  | x :: a', y :: b' =>
      if (nat_of_ascii x <? nat_of_ascii y) then true
      else if (nat_of_ascii y <? nat_of_ascii x) then false
      else str_ltb a' b'
  end.

(** [s] starts with [p]: the rest of [s] after [p]. *)
Fixpoint strip_prefix (p s : str) : option str :=
  match p, s with
  | [], _ => Some s
  | _ :: _, [] => None
  | x :: p', y :: s' => if Ascii.eqb x y then strip_prefix p' s' else None
  end.

Definition starts_with (p s : str) : bool :=
  match strip_prefix p s with Some _ => true | None => false end.

(** ** Character classes *)

Definition is_char (c d : ascii) : bool := Ascii.eqb c d.

Definition one_of (cs : str) (c : ascii) : bool := existsb (Ascii.eqb c) cs.
Definition none_of (cs : str) (c : ascii) : bool := negb (one_of cs c).

(** [\s]: space, [\t], [\n], [\v], [\f], [\r]. *)
Definition re_space (c : ascii) : bool :=
  one_of [" "%char; "009"%char; "010"%char; "011"%char; "012"%char; "013"%char] c.

(** [\d] *)
Definition re_digit (c : ascii) : bool :=
  (48 <=? nat_of_ascii c) && (nat_of_ascii c <=? 57).

(** [[0-9a-fA-F]] *)
Definition re_xdigit (c : ascii) : bool :=
  re_digit c
  || ((97 <=? nat_of_ascii c) && (nat_of_ascii c <=? 102))
  || ((65 <=? nat_of_ascii c) && (nat_of_ascii c <=? 70)).

(** [.] *)
Definition re_dot (c : ascii) : bool := none_of ["010"%char; "013"%char] c.

(** [[\s\S]] *)
Definition re_any (c : ascii) : bool := re_space c || negb (re_space c).

(** ** Regular expressions *)

(** The patterns of the source put a quantifier on character classes
    only, so a repetition is a class with the least number of characters
    and the greedy or lazy mode. *)
Inductive re : Type :=
| Eps                                         (* the empty pattern *)
| Lit (p : str)                               (* characters that stand for themselves *)
| Cls (f : ascii -> bool)                     (* one character of a class *)
| Seq (a b : re)                              (* ab *)
| Alt (a b : re)                              (* a|b *)
| Rep (f : ascii -> bool) (min : nat) (greedy : bool)
| Grp (n : nat) (a : re)                      (* the capture group number n *)
| Ref (n : nat)                               (* the back reference \n *)
| Nla (a : re)                                (* (?!a) *)
| Bol                                         (* ^ *)
| Eol.                                        (* $ *)

Definition star (f : ascii -> bool) : re := Rep f 0 true.       (* f* *)
Definition plus (f : ascii -> bool) : re := Rep f 1 true.       (* f+ *)
Definition lazy_star (f : ascii -> bool) : re := Rep f 0 false. (* f*? *)
Definition lazy_plus (f : ascii -> bool) : re := Rep f 1 false. (* f+? *)
Definition opt (a : re) : re := Alt a Eps.                      (* a? *)
Definition seq (l : list re) : re := fold_right Seq Eps l.

(** [std::smatch]: the capture groups that have matched, the last one
    first; the whole match [m[0]] is group 0.  A group that has not matched
    reads as the empty string. *)
Definition smatch : Type := list (nat * str).

Fixpoint sub_match (m : smatch) (i : nat) : str :=
  match m with
  | [] => []
  | (n, v) :: m' => if n =? i then v else sub_match m' i
  end.

(** A class repeated from position [pos] of the searched range, where [s]
    is what is left of the range; [k] is the rest of the pattern.  The
    greedy mode tries one more character before it tries [k]; the lazy mode
    tries [k] first. *)
Fixpoint rep (f : ascii -> bool) (greedy : bool)
    (k : nat -> str -> option smatch) (min pos : nat) (s : str)
    {struct s} : option smatch :=
  if greedy then
    match
      match s with
      | c :: t => if f c then rep f greedy k (pred min) (S pos) t else None
      | [] => None
      end
    with
    | Some m => Some m
    | None => if min =? 0 then k pos s else None
    end
  else
    match (if min =? 0 then k pos s else None) with
    | Some m => Some m
    | None =>
        match s with
        | c :: t => if f c then rep f greedy k (pred min) (S pos) t else None
        | [] => None
        end
    end.

(** The backtracking matcher: [run r k pos s m] matches [r] at position
    [pos], with [s] left of the range and the groups [m] matched so far, and
    goes on with [k]; when [k] fails, the next choice of [r] is tried. *)
Fixpoint run (r : re) (k : nat -> str -> smatch -> option smatch)
    (pos : nat) (s : str) (m : smatch) {struct r} : option smatch :=
  match r with
  | Eps => k pos s m
  | Lit p =>
      match strip_prefix p s with
      | Some t => k (pos + length p) t m
      | None => None
      end
  | Cls f =>
      match s with
      | c :: t => if f c then k (S pos) t m else None
      | [] => None
      end
  | Seq a b => run a (fun pos' s' m' => run b k pos' s' m') pos s m
  | Alt a b =>
      match run a k pos s m with
      | Some m' => Some m'
      | None => run b k pos s m
      end
  | Rep f min greedy => rep f greedy (fun pos' s' => k pos' s' m) min pos s
  | Grp n a =>
      run a (fun pos' s' m' => k pos' s' ((n, firstn (pos' - pos) s) :: m'))
        pos s m
  | Ref n =>
      match strip_prefix (sub_match m n) s with
      | Some t => k (pos + length (sub_match m n)) t m
      | None => None
      end
  | Nla a =>
      match run a (fun _ _ m' => Some m') pos s m with
      | Some _ => None
      | None => k pos s m
      end
  | Bol => if pos =? 0 then k pos s m else None
  | Eol => match s with [] => k pos s m | _ :: _ => None end
  end.

(** The match of [e] that starts at position [pos], or else the first one
    behind it. *)
Fixpoint search_from (e : re) (pos : nat) (s : str) : option smatch :=
  match run (Grp 0 e) (fun _ _ m => Some m) pos s [] with
  | Some m => Some m
  | None =>
      match s with
      | [] => None
      | _ :: t => search_from e (S pos) t
      end
  end.

(** [std::regex_search(first, last, m, e)] on the range [s]. *)
Definition std_regex_search (s : str) (e : re) : option smatch :=
  search_from e 0 s.

(** [std::regex_match(first, last, e)]: the match has to end where the
    range ends. *)
Definition std_regex_match (s : str) (e : re) : bool :=
  match run e (fun _ s' m => match s' with [] => Some m | _ :: _ => None end)
          0 s [] with
  | Some _ => true
  | None => false
  end.

(** The least number of characters in a match. *)
Fixpoint min_length (r : re) : nat :=
  match r with
  | Eps => 0
  | Lit p => length p
  | Cls _ => 1
  | Seq a b => min_length a + min_length b
  | Alt a b => Nat.min (min_length a) (min_length b)
  | Rep _ min _ => min
  | Grp _ a => min_length a
  | Ref _ => 0
  | Nla _ => 0
  | Bol => 0
  | Eol => 0
  end.

(** [std::regex_replace(s, std::regex{p}, r)] for a pattern [p] that is a
    literal: every match of [p], found from left to right and without
    overlap, is replaced by [r].  [skip] counts the bytes of the match in
    progress that are still to be passed over. *)
Fixpoint replace_from (p r : str) (skip : nat) (s : str) : str :=
  match s with
  | [] => []
  | c :: t =>
      match skip with
      | S k => replace_from p r k t
      | O =>
          if starts_with p s then r ++ replace_from p r (length p - 1) t
          else c :: replace_from p r 0 t
      end
  end.

Definition regex_replace (s p r : str) : str := replace_from p r 0 s.

(** ** The patterns of [xml_document.cpp] *)

(** [^<\?xml\s+version=\x22(.+?)\x22([\s\S]*?)\?>] *)
Definition re_xml_declaration : re :=
  seq [Bol; Lit (lit "<?xml"); plus re_space; Lit (lit "version=" ++ [dquote]);
       Grp 1 (lazy_plus re_dot); Lit [dquote];
       Grp 2 (lazy_star re_any); Lit (lit "?>")].

(** [^([^<]*?)<((A))] where [A] stands for the three alternatives
    [!--|!\[CDATA\[|[^>\s]*]. *)
Definition re_tag_head : re :=
  seq [Bol; Grp 1 (lazy_star (none_of (lit "<"))); Lit (lit "<");
       Grp 2 (Grp 3 (Alt (Lit (lit "!--"))
                      (Alt (Lit (lit "![CDATA["))
                         (star (fun c => none_of (lit ">") c
                                         && negb (re_space c))))))].

(** [^[^-]*(--[\s\S]?)] *)
Definition re_comment_end : re :=
  seq [Bol; star (none_of (lit "-"));
       Grp 1 (seq [Lit (lit "--"); opt (Cls re_any)])].

(** [^([\s\S]*?\]\]>)] *)
Definition re_cdata_end : re :=
  seq [Bol; Grp 1 (seq [lazy_star re_any; Lit (lit "]]>")])].

(** [^([\s\S]*?)(/?)>] *)
Definition re_tag_end : re :=
  seq [Bol; Grp 1 (lazy_star re_any); Grp 2 (opt (Lit (lit "/")));
       Lit (lit ">")].

(** [^([^<]*?)(<!--)] *)
Definition re_comment_head : re :=
  seq [Bol; Grp 1 (lazy_star (none_of (lit "<"))); Grp 2 (Lit (lit "<!--"))].

(** [^\s*$] *)
Definition re_blank : re := seq [Bol; star re_space; Eol].

(** [\s+([^=]+)=([\x22'])([\s\S]*?)\2] *)
Definition re_attribute : re :=
  seq [plus re_space; Grp 1 (plus (none_of (lit "="))); Lit (lit "=");
       Grp 2 (Cls (one_of [dquote; apos])); Grp 3 (lazy_star re_any); Ref 2].

(** [^\s+$] *)
Definition re_spaces : re := seq [Bol; plus re_space; Eol].

(** [[<>'\x22&]] *)
Definition re_illegal_in_tag_name : re :=
  Cls (one_of ("<"%char :: ">"%char :: apos :: dquote :: ["&"%char])).

(** [[<]], [[<'\x22]] and [[<']] *)
Definition re_illegal_in_inner_text : re := Cls (one_of (lit "<")).
Definition re_illegal_in_attribute_value : re :=
  Cls (one_of ("<"%char :: apos :: [dquote])).
Definition re_illegal_in_attribute_value_with_apos : re :=
  Cls (one_of ("<"%char :: [apos])).

(** [&(?!lt;|gt;|apos;|quot;|amp;|#\d+;|#x[0-9a-fA-F]{4};)] *)
Definition re_undefined_entity : re :=
  seq [Lit (lit "&");
       Nla (Alt (Lit (lit "lt;"))
           (Alt (Lit (lit "gt;"))
           (Alt (Lit (lit "apos;"))
           (Alt (Lit (lit "quot;"))
           (Alt (Lit (lit "amp;"))
           (Alt (seq [Lit (lit "#"); plus re_digit; Lit (lit ";")])
                (seq [Lit (lit "#x"); Cls re_xdigit; Cls re_xdigit;
                      Cls re_xdigit; Cls re_xdigit; Lit (lit ";")])))))))].

(** ** [bb::string_cursor] *)

Record string_cursor : Type := {
  cursor_text : str;   (* the range from begin to end *)
  current : nat        (* current - begin *)
}.

Definition make_string_cursor (s : str) : string_cursor :=
  {| cursor_text := s; current := 0 |}.

(** The range from [current] to [end]. *)
Definition cursor_rest (cursor : string_cursor) : str :=
  skipn (current cursor) (cursor_text cursor).

(** [bb::regex_search]: on a match the cursor moves on by the length of
    [m[0]]; without one it stays where it is. *)
Definition regex_search (cursor : string_cursor) (e : re)
  : option (string_cursor * smatch) :=
  match std_regex_search (cursor_rest cursor) e with
  | Some m =>
      Some ({| cursor_text := cursor_text cursor;
               current := current cursor + length (sub_match m 0) |}, m)
  | None => None
  end.

(** [is_space(itr, end)]: the range is empty or matches [^\s*$]. *)
Definition is_space (s : str) : bool :=
  match s with
  | [] => true
  | _ :: _ => std_regex_match s re_blank
  end.

(** ** Errors

    [make_xml_error] is called with one of these messages (the position is
    left out).  [Missing_gt] is the message about a tag without its [>] and
    [Closing_tag_self_closing] the one about a closing tag that ends with
    [/>]. *)
Inductive xml_error : Type :=
| No_XML_declaration
| Unsupported_XML_version
| Illegal_attributes
| Found_an_unescaped_character_or_an_undefined_entity
| Missing_an_end_of_the_comment_section
| Two_dashes_in_the_middle_of_a_comment_are_not_allowed
| Missing_an_end_of_the_CDATA_section
| Found_a_no_name_tag
| Missing_gt
| Closing_tag_self_closing
| Missing_an_opening_tag
| Missing_an_closing_tag
| Closing_tag_can_not_have_attributes
| Illegal_format.

Inductive xml_error_code : Type :=
| NoXmlDeclaration
| UnsupportedVersion
| IllegalAttributes
| NoEscapedCharacter
| IllegalComment
| MissingClosingTag
| NoNameTag
| IllegalTagName
| MismatchedClosingTag
| ClosingTagWithAttributes
| ClosingTagSelfClosing
| IllegalFormatTrailingContent.

(** Modelled from the spec: the accessor [xml_error::code()] and the
    enumeration [xml_error_code], which the tests of [main.cpp] use and
    [xml_document.h] does not declare.  The kinds are those of the table of
    error kinds, each attached to the messages raised in the situation the
    table describes. *)
Definition code (e : xml_error) : xml_error_code :=
  match e with
  | No_XML_declaration => NoXmlDeclaration
  | Unsupported_XML_version => UnsupportedVersion
  | Illegal_attributes => IllegalAttributes
  | Found_an_unescaped_character_or_an_undefined_entity => NoEscapedCharacter
  | Missing_an_end_of_the_comment_section => MissingClosingTag
  | Two_dashes_in_the_middle_of_a_comment_are_not_allowed => IllegalComment
  | Missing_an_end_of_the_CDATA_section => MissingClosingTag
  | Found_a_no_name_tag => NoNameTag
  | Missing_gt => MissingClosingTag
  | Closing_tag_self_closing => ClosingTagSelfClosing
  | Missing_an_opening_tag => MismatchedClosingTag
  | Missing_an_closing_tag => MismatchedClosingTag
  | Closing_tag_can_not_have_attributes => ClosingTagWithAttributes
  | Illegal_format => IllegalFormatTrailingContent
  end.

(** How a call ends: it returns, it throws an [xml_error], it throws a
    [std::string::const_iterator] (which [parse_xml] catches around some
    calls only), or an [assert] fails (the assertions are taken as compiled
    in).  [Out_of_fuel] belongs to the model alone: the loops below are
    bounded by a counter. *)
Inductive outcome (A : Type) : Type :=
| Return (a : A)
| Throw (e : xml_error)
| Throw_iterator
| Assertion_failed
| Out_of_fuel.

Arguments Return {A} a.
Arguments Throw {A} e.
Arguments Throw_iterator {A}.
Arguments Assertion_failed {A}.
Arguments Out_of_fuel {A}.

Definition bind {A B : Type} (o : outcome A) (k : A -> outcome B) : outcome B :=
  match o with
  | Return a => k a
  | Throw e => Throw e
  | Throw_iterator => Throw_iterator
  | Assertion_failed => Assertion_failed
  | Out_of_fuel => Out_of_fuel
  end.

Notation "x <- o ;; k" := (bind o (fun x => k))
  (at level 61, o at next level, right associativity).

(** [try { o } catch (const std::string::const_iterator&) { throw
    make_xml_error(e) }] *)
Definition catch_iterator {A : Type} (o : outcome A) (e : xml_error) : outcome A :=
  match o with
  | Throw_iterator => Throw e
  | _ => o
  end.

(** ** Unescaping *)

Definition _unescape_xml_entity (s : str) (illegal_re : re) : outcome str :=
  (* Validates (1) *)
  match std_regex_search s illegal_re with
  | Some _ => Throw_iterator
  | None =>
      (* Validates (2) *)
      match std_regex_search s re_undefined_entity with
      | Some _ => Throw_iterator
      | None =>
          (* Unescapes XML entities *)
          let replaced := s in
          let replaced := regex_replace replaced (lit "&lt;") (lit "<") in
          let replaced := regex_replace replaced (lit "&gt;") (lit ">") in
          let replaced := regex_replace replaced (lit "&apos;") [apos] in
          let replaced := regex_replace replaced (lit "&quot;") [dquote] in
          let replaced := regex_replace replaced (lit "&amp;") (lit "&") in
          Return replaced
      end
  end.

Definition unescape_xml_inner_text (s : str) : outcome str :=
  _unescape_xml_entity s re_illegal_in_inner_text.

Definition unescape_xml_attribute_value (s : str) : outcome str :=
  _unescape_xml_entity s re_illegal_in_attribute_value.

Definition unescape_xml_attribute_value_with_apos (s : str) : outcome str :=
  _unescape_xml_entity s re_illegal_in_attribute_value_with_apos.

(** [validate_tag_name]: throws the iterator of the first illegal
    character. *)
Definition validate_tag_name (s : str) : outcome unit :=
  match std_regex_search s re_illegal_in_tag_name with
  | Some _ => Throw_iterator
  | None => Return tt
  end.

(** ** Attributes

    A [std::map<std::string, std::string>] is the list of its entries in
    the order of their keys. *)
Definition attribute_map : Type := list (str * str).

(** [m[k] = v] *)
Fixpoint map_assign (k v : str) (m : attribute_map) : attribute_map :=
  match m with
  | [] => [(k, v)]
  | (k', v') :: m' =>
      if str_eqb k k' then (k, v) :: m'
      else if str_ltb k k' then (k, v) :: m
      else (k', v') :: map_assign k v m'
  end.

Definition map_empty (m : attribute_map) : bool :=
  match m with [] => true | _ :: _ => false end.

(** The loop of [parse_xml_attributes] on the range from [itr] to [end];
    [itr] moves on by the length of the match, wherever in the range the
    match was found. *)
Fixpoint parse_xml_attributes_loop (fuel : nat) (itr : str)
    (attributes : attribute_map) : outcome attribute_map :=
  match std_regex_search itr re_attribute with
  | Some m =>
      match fuel with
      | O => Out_of_fuel
      | S fuel' =>
          value <- (if str_eqb (sub_match m 2) [dquote]
                    then unescape_xml_attribute_value (sub_match m 3)
                    else unescape_xml_attribute_value_with_apos (sub_match m 3)) ;;
          parse_xml_attributes_loop fuel'
            (skipn (length (sub_match m 0)) itr)
            (map_assign (sub_match m 1) value attributes)
      end
  | None =>
      match itr with
      | [] => Return attributes
      | _ :: _ =>
          if std_regex_match itr re_spaces then Return attributes
          else Throw_iterator
      end
  end.

Definition parse_xml_attributes (s : str) : outcome attribute_map :=
  parse_xml_attributes_loop (length s) s [].

(** ** The document *)

(** [xml_node] without its [parent] link, which the place of the node in
    the tree gives. *)
#[warnings="-register-all"]
Inductive xml_node : Type := Xml_node {
  name : str;
  attributes : attribute_map;
  value : str;
  nodes : list xml_node
}.

Record xml_document : Type := {
  version : str;
  doc_attributes : attribute_map;
  root_node : option xml_node
}.

Fixpoint inner_text (n : xml_node) : str :=
  value n ++ flat_map inner_text (nodes n).

(** [std::make_shared<xml_node>()] *)
Definition new_node : xml_node :=
  {| name := []; attributes := []; value := []; nodes := [] |}.

Definition set_value (n : xml_node) (v : str) : xml_node :=
  {| name := name n; attributes := attributes n; value := v; nodes := nodes n |}.

Definition set_nodes (n : xml_node) (l : list xml_node) : xml_node :=
  {| name := name n; attributes := attributes n; value := value n; nodes := l |}.

(** [n->nodes.push_back(c)] *)
Definition push_back (n c : xml_node) : xml_node := set_nodes n (nodes n ++ [c]).

(** ** [parse_xml] *)

(** The variables of the loops of [parse_xml].  [parents] are the nodes
    reached from [current_node] through the [parent] links, the nearest
    first and [top_node] last; each of them is kept without its last child,
    which is the node in front of it in the chain. *)
Record parse_state : Type := {
  cursor : string_cursor;
  current_node : xml_node;
  parents : list xml_node;
  inner_text_before_tag : str
}.

(** [top_node], read through the chain. *)
Fixpoint top_node_of (n : xml_node) (ps : list xml_node) : xml_node :=
  match ps with
  | [] => n
  | p :: ps' => top_node_of (push_back p n) ps'
  end.

Definition top_node (st : parse_state) : xml_node :=
  top_node_of (current_node st) (parents st).

(** The [// text] block: a text that is not blank becomes a [#text] child
    of [current_node]; the text buffer is empty afterwards. *)
Definition flush_text (current : xml_node) (text : str) : xml_node :=
  if negb (is_space text) then
    push_back current
      {| name := lit "#text"; attributes := []; value := text; nodes := [] |}
  else current.

(** The closing tag [tag_name] with the attributes and the mark found
    behind it. *)
Definition closing_tag (st : parse_state) (cursor' : string_cursor)
    (current : xml_node) (tag_name independent_mark : str)
    (attrs : attribute_map) : outcome parse_state :=
  if negb (length independent_mark =? 0) then Throw Closing_tag_self_closing
  else if negb (str_eqb tag_name (lit "/" ++ name current)) then
    Throw (match name current with
           | [] => Missing_an_opening_tag
           | _ :: _ => Missing_an_closing_tag
           end)
  else if negb (map_empty attrs) then Throw Closing_tag_can_not_have_attributes
  else
    let current :=
      match nodes current with
      | [child] =>
          if str_eqb (name child) (lit "#text")
          then set_nodes (set_value current (value child)) []
          else current
      | _ => current
      end in
    (* current_node = current_node->parent.lock(); assert(current_node != nullptr) *)
    match parents st with
    | [] => Assertion_failed
    | p :: ps =>
        Return {| cursor := cursor'; current_node := push_back p current;
                  parents := ps; inner_text_before_tag := [] |}
    end.

(** An ordinary tag, from the check of its name on. *)
Definition ordinary_tag (st : parse_state) (cursor1 : string_cursor)
    (text tag_name : str) : outcome parse_state :=
  if length tag_name =? 0 then Throw Found_a_no_name_tag
  else
    _ <- validate_tag_name tag_name ;;
    match regex_search cursor1 re_tag_end with
    | None => Throw Missing_gt
    | Some (cursor2, m) =>
        attrs <- catch_iterator (parse_xml_attributes (sub_match m 1))
                   Illegal_attributes ;;
        let independent_mark := sub_match m 2 in
        let current := flush_text (current_node st) text in
        if is_char (hd " "%char tag_name) "/" then
          closing_tag st cursor2 current tag_name independent_mark attrs
        else
          let node :=
            {| name := tag_name; attributes := attrs; value := []; nodes := [] |} in
          if negb (length independent_mark =? 0) then
            (* Independent tag *)
            Return {| cursor := cursor2; current_node := push_back current node;
                      parents := parents st; inner_text_before_tag := [] |}
          else
            (* Opening tag *)
            Return {| cursor := cursor2; current_node := node;
                      parents := current :: parents st;
                      inner_text_before_tag := [] |}
    end.

(** The body of the loop over the tags; [None] is its [break]. *)
Definition tag_loop_body (st : parse_state) : outcome (option parse_state) :=
  match regex_search (cursor st) re_tag_head with
  | None => Return None
  | Some (cursor1, m) =>
      unescaped <- catch_iterator (unescape_xml_inner_text (sub_match m 1))
                     Found_an_unescaped_character_or_an_undefined_entity ;;
      let text := inner_text_before_tag st ++ unescaped in
      let tag_name := sub_match m 2 in
      if str_eqb tag_name (lit "!--") then
        match regex_search cursor1 re_comment_end with
        | None => Throw Missing_an_end_of_the_comment_section
        | Some (cursor2, m) =>
            if negb (str_eqb (sub_match m 1) (lit "-->")) then
              Throw Two_dashes_in_the_middle_of_a_comment_are_not_allowed
            else
              Return (Some {| cursor := cursor2; current_node := current_node st;
                              parents := parents st;
                              inner_text_before_tag := text |})
        end
      else if str_eqb tag_name (lit "![CDATA[") then
        match regex_search cursor1 re_cdata_end with
        | None => Throw Missing_an_end_of_the_CDATA_section
        | Some (cursor2, m) =>
            let m1 := sub_match m 1 in
            Return (Some {| cursor := cursor2; current_node := current_node st;
                            parents := parents st;
                            inner_text_before_tag :=
                              text ++ firstn (length m1 - 3) m1 |})
        end
      else
        st' <- ordinary_tag st cursor1 text tag_name ;;
        Return (Some st')
  end.

(** [while (cursor.current < cursor.end) { ... }] *)
Fixpoint tag_loop (fuel : nat) (st : parse_state) : outcome parse_state :=
  if current (cursor st) <? length (cursor_text (cursor st)) then
    match fuel with
    | O => Out_of_fuel
    | S fuel' =>
        r <- tag_loop_body st ;;
        match r with
        | None => Return st
        | Some st' => tag_loop fuel' st'
        end
    end
  else Return st.

(** The body of the loop that skips the comments behind the tags, entered
    with the match of [re_comment_head]. *)
Definition comment_loop_body (cursor1 : string_cursor) : outcome string_cursor :=
  match regex_search cursor1 re_comment_end with
  | None => Throw Missing_an_end_of_the_comment_section
  | Some (cursor2, m) =>
      if negb (str_eqb (sub_match m 1) (lit "-->")) then
        Throw Two_dashes_in_the_middle_of_a_comment_are_not_allowed
      else Return cursor2
  end.

Fixpoint comment_loop (fuel : nat) (cursor0 : string_cursor) : outcome string_cursor :=
  match regex_search cursor0 re_comment_head with
  | None => Return cursor0
  | Some (cursor1, _) =>
      match fuel with
      | O => Out_of_fuel
      | S fuel' =>
          cursor2 <- comment_loop_body cursor1 ;;
          comment_loop fuel' cursor2
      end
  end.

(** The declaration: the version and the attributes of the document. *)
Definition parse_declaration (cursor0 : string_cursor)
  : outcome (string_cursor * str * attribute_map) :=
  match regex_search cursor0 re_xml_declaration with
  | None => Throw No_XML_declaration
  | Some (cursor1, m) =>
      let version := sub_match m 1 in
      if negb (str_eqb version (lit "1.0")) then Throw Unsupported_XML_version
      else
        attrs <- catch_iterator (parse_xml_attributes (sub_match m 2))
                   Illegal_attributes ;;
        Return (cursor1, version, attrs)
  end.

(** [parse_xml] up to the point where the root is chosen: the version, the
    attributes of the declaration and [top_node]. *)
Definition parse_top (fuel : nat) (text : str)
  : outcome (str * attribute_map * xml_node) :=
  d <- parse_declaration (make_string_cursor text) ;;
  let '(cursor1, doc_version, doc_attrs) := d in
  st <- tag_loop fuel {| cursor := cursor1; current_node := new_node;
                         parents := []; inner_text_before_tag := [] |} ;;
  (* Skips comments if existed *)
  cursor2 <- comment_loop fuel (cursor st) ;;
  (* Ignores spaces if existed *)
  if negb (is_space (cursor_rest cursor2)) then Throw Illegal_format
  else Return (doc_version, doc_attrs, top_node st).

(** The root is the first child of [top_node], if it has one. *)
Definition make_document (r : str * attribute_map * xml_node) : xml_document :=
  let '(doc_version, doc_attrs, top) := r in
  {| version := doc_version; doc_attributes := doc_attrs;
     root_node := hd_error (nodes top) |}.

Definition parse_xml_fuel (fuel : nat) (text : str) : outcome xml_document :=
  r <- parse_top fuel text ;;
  Return (make_document r).

(** Every pass through a loop moves the cursor on, so the length of the
    text bounds the passes (see [parse_xml_terminates]). *)
Definition parse_xml (text : str) : outcome xml_document :=
  parse_xml_fuel (length text) text.

(** ** Definitions used by the statements *)

(** The declaration [<?xml version=\x221.0\x22?>]. *)
Definition xml_decl : str :=
  lit "<?xml version=" ++ [dquote] ++ lit "1.0" ++ [dquote] ++ lit "?>".

(** An element without attributes. *)
Definition element (n v : str) (children : list xml_node) : xml_node :=
  {| name := n; attributes := []; value := v; nodes := children |}.

Definition document_of (root : option xml_node) : xml_document :=
  {| version := lit "1.0"; doc_attributes := []; root_node := root |}.

(** The five predefined entities with the character each stands for, in
    the order in which they are rewritten. *)
Definition predefined_entities : list (str * str) :=
  [ (lit "&lt;", lit "<");
    (lit "&gt;", lit ">");
    (lit "&apos;", [apos]);
    (lit "&quot;", [dquote]);
    (lit "&amp;", lit "&") ].

(** One global substitution after the other. *)
Definition rewrite_entities (s : str) : str :=
  fold_left (fun acc e => regex_replace acc (fst e) (snd e)) predefined_entities s.

(** A numeric character reference: [&#] and decimal digits, or [&#x] and
    four hexadecimal digits, closed by [;]. *)
Definition numeric_reference (ref : str) : bool :=
  std_regex_match ref (seq [Lit (lit "&#"); plus re_digit; Lit (lit ";")])
  || std_regex_match ref
       (seq [Lit (lit "&#x"); Cls re_xdigit; Cls re_xdigit; Cls re_xdigit;
             Cls re_xdigit; Lit (lit ";")]).

(** The measure of the loops of [parse_xml]: what is left of the text. *)
Definition remaining (c : string_cursor) : nat :=
  length (cursor_text c) - current c.

(** The cursor is in the range of its text. *)
Definition cursor_ok (c : string_cursor) : Prop :=
  current c <= length (cursor_text c).

(** ** Definitions used by the further properties *)

(** The cursor behind the part [pre] of a text, with [s] left to read. *)
Definition cursor_at (pre s : str) : string_cursor :=
  {| cursor_text := pre ++ s; current := length pre |}.

(** The character [c] does not stand in [s]. *)
Definition without (c : ascii) (s : str) : bool :=
  forallb (fun d => negb (is_char d c)) s.

(** [p] stands somewhere in [s]. *)
Fixpoint occurs (p s : str) : bool :=
  starts_with p s
  || match s with
     | [] => false
     | _ :: t => occurs p t
     end.

(** An attribute as it stands in a tag, with its value in double quotes. *)
Definition render_attribute (a : str * str) : str :=
  lit " " ++ fst a ++ lit "=" ++ [dquote] ++ snd a ++ [dquote].

(** A key that is not empty, has no [=] and does not start with a white
    space, and a value without [<], quotes and [&]. *)
Definition attribute_ok (a : str * str) : bool :=
  negb (length (fst a) =? 0)
  && forallb (none_of (lit "=")) (fst a)
  && negb (re_space (hd " "%char (fst a)))
  && negb (existsb (one_of ("<"%char :: apos :: dquote :: ["&"%char])) (snd a)).

(** [P] holds for [n] and for every node below it. *)
Fixpoint all_nodes (P : xml_node -> bool) (n : xml_node) : bool :=
  P n && forallb (all_nodes P) (nodes n).

(** The characters that the pattern of the tag head takes into a name. *)
Definition re_name_char (c : ascii) : bool :=
  none_of (lit ">") c && negb (re_space c).

(** A name that is not empty, has none of [<>'\x22&] and no white space,
    and does not start with [/]. *)
Definition name_ok (s : str) : bool :=
  negb (length s =? 0)
  && negb (existsb (one_of ("<"%char :: ">"%char :: apos :: dquote
                              :: ["&"%char])) s)
  && forallb re_name_char s
  && negb (is_char (hd " "%char s) "/").

(** A node with such a name that has a value or children, not both. *)
Definition node_ok (n : xml_node) : bool :=
  name_ok (name n) && ((length (value n) =? 0) || (length (nodes n) =? 0)).

(** A node that is still open: no value yet, and what is below it is
    in order. *)
Definition open_ok (n : xml_node) : bool :=
  (length (value n) =? 0) && forallb (all_nodes node_ok) (nodes n).

(** The chain from [current_node] up to [top_node]: every node is open,
    and every node but [top_node] has a name. *)
Fixpoint chain_ok (n : xml_node) (ps : list xml_node) : bool :=
  open_ok n
  && match ps with
     | [] => true
     | p :: ps' => name_ok (name n) && chain_ok p ps'
     end.

(** The longest prefix whose characters are in the class [f]. *)
Fixpoint take_while (f : ascii -> bool) (s : str) : str :=
  match s with
  | c :: t => if f c then c :: take_while f t else []
  | [] => []
  end.

(** What the pattern of the tag head takes for the name behind a [<]. *)
Definition tag_name_of (rest : str) : str :=
  if starts_with (lit "!--") rest then lit "!--"
  else if starts_with (lit "![CDATA[") rest then lit "![CDATA["
  else take_while re_name_char rest.

(** The state in which [parse_xml] enters the loop over the tags, behind
    the declaration [xml_decl]. *)
Definition initial_state (body : str) : parse_state :=
  {| cursor := cursor_at xml_decl body; current_node := new_node;
     parents := []; inner_text_before_tag := [] |}.

(** The range is empty or starts with a character that no name holds. *)
Definition name_ends (r : str) : bool :=
  match r with
  | [] => true
  | c :: _ => negb (re_name_char c)
  end.

(** A state of the loop over the tags, with the cursor behind [pre]. *)
Definition state_at (pre s : str) (current : xml_node) (ps : list xml_node)
    (text : str) : parse_state :=
  {| cursor := cursor_at pre s; current_node := current; parents := ps;
     inner_text_before_tag := text |}.

(** What a closing tag makes of the element that it closes: an only child
    named [#text] becomes the value. *)
Definition collapse_text (current : xml_node) : xml_node :=
  match nodes current with
  | [child] =>
      if str_eqb (name child) (lit "#text")
      then set_nodes (set_value current (value child)) []
      else current
  | _ => current
  end.

(** A tag name without any of [<>'\x22&]. *)
Definition legal_name (s : str) : bool :=
  negb (existsb (one_of ("<"%char :: ">"%char :: apos :: dquote
                           :: ["&"%char])) s).

(** A comment or a CDATA section, with its body. *)
Inductive piece : Type :=
| Comment (body : str)
| Cdata (body : str).

(** A piece as it stands in the text, behind the text [fst p]. *)
Definition render_piece (p : str * piece) : str :=
  fst p
  ++ match snd p with
     | Comment body => lit "<!--" ++ body ++ lit "-->"
     | Cdata body => lit "<![CDATA[" ++ body ++ lit "]]>"
     end.

(** The character data that a piece stands for. *)
Definition piece_data (p : str * piece) : str :=
  rewrite_entities (fst p)
  ++ match snd p with
     | Comment _ => []
     | Cdata body => body
     end.

(** A text without [<] and without an [&] that starts no entity. *)
Definition text_ok (t : str) : bool :=
  without "<" t
  && match std_regex_search t re_undefined_entity with
     | None => true
     | Some _ => false
     end.

(** A comment without dashes in its body, or a CDATA section whose body
    does not hold the end of the section. *)
Definition piece_ok (p : str * piece) : bool :=
  text_ok (fst p)
  && match snd p with
     | Comment body => without "-" body
     | Cdata body => negb (occurs (lit "]]>") (body ++ lit "]]"))
     end.

(** The name of an element as it can stand in an opening tag. *)
Definition element_name_ok (n : str) : bool :=
  name_ok n && negb (is_char (hd " "%char n) "!").

(** The keys of a map stand in ascending order. *)
Fixpoint map_sorted (m : attribute_map) : bool :=
  match m with
  | [] => true
  | (k, _) :: m' => forallb (fun a => str_ltb k (fst a)) m' && map_sorted m'
  end.

(** An element written as a text, with the white space [ws] in front of
    its tags: a tag with the mark [/>] when it has neither a value nor
    children, and else its value or its children between its opening and
    its closing tag. *)
Fixpoint render (ws : str) (n : xml_node) : str :=
  ws ++ lit "<" ++ name n ++ flat_map render_attribute (attributes n)
  ++ match value n, nodes n with
     | [], [] => lit " />"
     | _, [] => lit ">" ++ value n ++ lit "</" ++ name n ++ lit ">"
     | _, _ :: _ =>
         lit ">" ++ value n ++ flat_map (render ws) (nodes n)
         ++ ws ++ lit "</" ++ name n ++ lit ">"
     end.

(** A value that is empty, or is not blank and has neither [<] nor [&]. *)
Definition value_ok (v : str) : bool :=
  match v with
  | [] => true
  | _ :: _ => negb (is_space v) && without "<" v && without "&" v
  end.

(** The trees that [render] writes so that they can be read again: the
    names are names of elements other than [#text], the attributes are a
    map of attributes without [>], and an element has a value or
    children that are such trees, not both. *)
Fixpoint well_formed (n : xml_node) : bool :=
  element_name_ok (name n)
  && negb (str_eqb (name n) (lit "#text"))
  && forallb attribute_ok (attributes n)
  && map_sorted (attributes n)
  && without ">" (flat_map render_attribute (attributes n))
  && match nodes n with
     | [] => value_ok (value n)
     | _ :: _ => (length (value n) =? 0) && forallb well_formed (nodes n)
     end.

(** An element that is still open, written as a text: its opening tag and
    behind it the children that are closed already. *)
Definition render_open (ws : str) (n : xml_node) : str :=
  ws ++ lit "<" ++ name n ++ flat_map render_attribute (attributes n)
  ++ lit ">" ++ flat_map (render ws) (nodes n).

(** The open elements that [render_open] writes so that they can be read
    again: no value yet, and children that are well-formed trees. *)
Definition open_formed (n : xml_node) : bool :=
  element_name_ok (name n)
  && forallb attribute_ok (attributes n)
  && map_sorted (attributes n)
  && without ">" (flat_map render_attribute (attributes n))
  && (length (value n) =? 0)
  && forallb well_formed (nodes n).

(** The element that is open behind the opening tags of [opens], the
    outermost first, when [current] was open in front of them. *)
Definition innermost (opens : list xml_node) (current : xml_node) : xml_node :=
  last opens current.

(** The error for a closing tag that does not close [current]. *)
Definition mismatch_error (current : xml_node) : xml_error :=
  match name current with
  | [] => Missing_an_opening_tag
  | _ :: _ => Missing_an_closing_tag
  end.

(** ** [position_of] *)

(** [.*\n] *)
Definition re_line : re := seq [star re_dot; Lit ["010"%char]].

(** [std::to_string] of a number that is not negative. *)
Definition to_string (n : nat) : str :=
  lit (NilEmpty.string_of_uint (Nat.to_uint n)).

(** The loop of [position_of] on the range from [from] to [itr]: [from]
    moves on by the length of the match, wherever in the range the match
    was found.  [line] counts the passes, which are not more than the
    bytes of the range, so the [size_t] does not wrap around. *)
Fixpoint position_of_loop (fuel : nat) (line : nat) (from : str)
    : outcome (nat * str) :=
  match std_regex_search from re_line with
  | Some m =>
      match fuel with
      | O => Out_of_fuel
      | S fuel' =>
          position_of_loop fuel' (line + 1)
            (skipn (length (sub_match m 0)) from)
      end
  | None => Return (line, from)
  end.

(** [position_of(itr, from)], where [range] is what stands from [from]
    to [itr]. *)
Definition position_of (range : str) : outcome str :=
  r <- position_of_loop (length range) 1 range ;;
  let '(line, from) := r in
  Return (lit "on line " ++ to_string line ++ lit " at column "
            ++ to_string (length from + 1)).

(** ** [description] *)

(** [description(node, indent)]; [std::endl] writes a line feed. *)
Fixpoint description (node : xml_node) (indent : nat) : str :=
  repeat " "%char indent ++ lit "+ " ++ name node
  ++ flat_map (fun attribute => lit ", " ++ fst attribute ++ lit "="
                                  ++ snd attribute)
       (attributes node)
  ++ (if negb (length (value node) =? 0) then lit ", " ++ value node else [])
  ++ ["010"%char]
  ++ flat_map (fun child => description child (indent + 1)) (nodes node).

(** [xml_document::description]: [*root_node] is read without a check,
    so there is no result for a document without a root. *)
Definition xml_document_description (doc : xml_document) : option str :=
  match root_node doc with
  | None => None
  | Some root =>
      Some (lit "XML version=" ++ version doc ++ ["010"%char]
              ++ description root 0)
  end.

(** The number of nodes of a tree. *)
Fixpoint count_nodes (n : xml_node) : nat :=
  1 + list_sum (map count_nodes (nodes n)).

(** The number of line feeds in a text. *)
Definition count_lines (s : str) : nat :=
  length (filter (fun c => is_char c "010") s).

(** No name, key or value of the node holds a line feed. *)
Definition one_line (n : xml_node) : bool :=
  without "010" (name n)
  && forallb (fun a => without "010" (fst a) && without "010" (snd a))
       (attributes n)
  && without "010" (value n).

(** * Properties *)

(** ** Byte strings *)

Lemma str_eqb_eq (a b : str) : str_eqb a b = true <-> a = b.
Proof.
  unfold str_eqb. destruct (list_eq_dec ascii_dec a b); split; congruence.
Qed.

Lemma strip_prefix_app (p s r : str) : strip_prefix p s = Some r -> s = p ++ r.
Proof.
  revert s. induction p as [|x p IH]; intros [|y s]; simpl; try congruence.
  destruct (Ascii.eqb x y) eqn:E; [|discriminate].
  apply Ascii.eqb_eq in E. subst y. intros H. now rewrite (IH _ H).
Qed.

Lemma strip_prefix_same (p s : str) : strip_prefix p (p ++ s) = Some s.
Proof.
  induction p as [|y p IH]; cbn; [reflexivity|]. now rewrite Ascii.eqb_refl.
Qed.

Lemma starts_with_app (p s : str) :
  starts_with p s = true -> exists r, s = p ++ r.
Proof.
  unfold starts_with. destruct (strip_prefix p s) as [r|] eqn:E; [|discriminate].
  intros _. exists r. now apply strip_prefix_app.
Qed.

Lemma skipn_app_length (p r : str) : skipn (length p) (p ++ r) = r.
Proof. induction p as [|x p IH]; cbn; [reflexivity|exact IH]. Qed.

(** ** What a match takes from the range *)

(** A repetition that matches goes on with the rest of the pattern behind
    [n] characters of the class, where [n] is at least [min]. *)
Lemma rep_inv (f : ascii -> bool) (greedy : bool)
    (k : nat -> str -> option smatch) :
  forall (s : str) (min pos : nat) (res : smatch),
    rep f greedy k min pos s = Some res ->
    exists n, min <= n <= length s
              /\ forallb f (firstn n s) = true
              /\ k (pos + n) (skipn n s) = Some res.
Proof.
  assert (Hstop : forall s min pos res,
             (if min =? 0 then k pos s else None) = Some res ->
             exists n, min <= n <= length s
                       /\ forallb f (firstn n s) = true
                       /\ k (pos + n) (skipn n s) = Some res).
  { intros s min pos res H. destruct (min =? 0) eqn:E; [|discriminate].
    apply Nat.eqb_eq in E. subst min. exists 0.
    rewrite Nat.add_0_r. cbn. repeat split; try lia; exact H. }
  induction s as [|c t IH]; intros min pos res H.
  - cbn [rep] in H. destruct greedy; apply Hstop.
    + exact H.
    + destruct (if min =? 0 then k pos [] else None); [exact H|discriminate].
  - assert (Hmore : forall res',
               (if f c then rep f greedy k (pred min) (S pos) t else None)
               = Some res' ->
               exists n, min <= n <= length (c :: t)
                         /\ forallb f (firstn n (c :: t)) = true
                         /\ k (pos + n) (skipn n (c :: t)) = Some res').
    { intros res' H'. destruct (f c) eqn:Ec; [|discriminate].
      apply IH in H'. destruct H' as [n [Hn [Hf Hk]]].
      exists (S n). cbn [length firstn skipn forallb].
      rewrite Ec, Hf, Nat.add_succ_r. repeat split; try lia; exact Hk. }
    cbn [rep] in H. destruct greedy.
    + destruct (if f c then rep f true k (pred min) (S pos) t else None)
        as [res'|] eqn:E.
      * inversion H; subst. now apply Hmore.
      * now apply Hstop.
    + destruct (if min =? 0 then k pos (c :: t) else None) as [res'|] eqn:E.
      * inversion H; subst. now apply Hstop.
      * now apply Hmore.
Qed.

(** A pattern that matches goes on with the rest behind [n] characters of
    the range, where [n] is at least the least length of the pattern. *)
Lemma run_inv (r : re) :
  forall (k : nat -> str -> smatch -> option smatch)
         (pos : nat) (s : str) (m res : smatch),
    run r k pos s m = Some res ->
    exists n m', min_length r <= n <= length s
                 /\ k (pos + n) (skipn n s) m' = Some res.
Proof.
  induction r as [|p|f|a IHa b IHb|a IHa b IHb|f min greedy|g a IHa|g|a IHa| |];
    intros k pos s m res H; cbn [run min_length] in *.
  - exists 0, m. rewrite Nat.add_0_r. cbn. split; [lia|exact H].
  - destruct (strip_prefix p s) as [t|] eqn:E; [|discriminate].
    apply strip_prefix_app in E. subst s.
    exists (length p), m. rewrite skipn_app_length, length_app.
    split; [lia|exact H].
  - destruct s as [|c t]; [discriminate|]. destruct (f c); [|discriminate].
    exists 1, m. rewrite Nat.add_1_r. cbn. split; [lia|exact H].
  - apply IHa in H. destruct H as [n1 [m1 [H1 H]]].
    apply IHb in H. destruct H as [n2 [m2 [H2 H]]].
    rewrite length_skipn in H2. rewrite skipn_skipn in H.
    exists (n1 + n2), m2. split; [lia|].
    now rewrite Nat.add_assoc, (Nat.add_comm n1 n2).
  - destruct (run a k pos s m) as [res'|] eqn:E.
    + inversion H; subst. apply IHa in E. destruct E as [n [m' [Hn Hk]]].
      exists n, m'. split; [lia|exact Hk].
    + apply IHb in H. destruct H as [n [m' [Hn Hk]]].
      exists n, m'. split; [lia|exact Hk].
  - apply rep_inv in H. destruct H as [n [Hn [_ Hk]]]. now exists n, m.
  - apply IHa in H. destruct H as [n [m' [Hn Hk]]]. eauto.
  - destruct (strip_prefix (sub_match m g) s) as [t|] eqn:E; [|discriminate].
    apply strip_prefix_app in E. subst s.
    exists (length (sub_match m g)), m.
    rewrite skipn_app_length, length_app. split; [lia|exact H].
  - destruct (run a (fun _ _ m' => Some m') pos s m); [discriminate|].
    exists 0, m. rewrite Nat.add_0_r. cbn. split; [lia|exact H].
  - destruct (pos =? 0); [|discriminate].
    exists 0, m. rewrite Nat.add_0_r. cbn. split; [lia|exact H].
  - destruct s; [|discriminate].
    exists 0, m. rewrite Nat.add_0_r. cbn. split; [lia|exact H].
Qed.

(** The whole match of a search is not shorter than the least length of
    the pattern and not longer than the range. *)
Lemma search_from_length (e : re) :
  forall (s : str) (pos : nat) (m : smatch),
    search_from e pos s = Some m ->
    min_length e <= length (sub_match m 0) <= length s.
Proof.
  assert (Hhere : forall s pos m,
             run (Grp 0 e) (fun _ _ m' => Some m') pos s [] = Some m ->
             min_length e <= length (sub_match m 0) <= length s).
  { intros s pos m H. cbn [run] in H. apply run_inv in H.
    destruct H as [n [m' [Hn H]]]. inversion H; subst. cbn [sub_match Nat.eqb].
    rewrite length_firstn. lia. }
  induction s as [|c t IH]; intros pos m H; cbn [search_from] in H.
  - destruct (run (Grp 0 e) (fun _ _ m' => Some m') pos [] []) as [m'|] eqn:E;
      [|discriminate].
    inversion H; subst. now apply Hhere in E.
  - destruct (run (Grp 0 e) (fun _ _ m' => Some m') pos (c :: t) []) as [m'|] eqn:E.
    + inversion H; subst. now apply Hhere in E.
    + apply IH in H. cbn [length]. lia.
Qed.

Lemma std_regex_search_length (e : re) (s : str) (m : smatch) :
  std_regex_search s e = Some m ->
  min_length e <= length (sub_match m 0) <= length s.
Proof. apply search_from_length. Qed.

(** ** The cursor moves forward *)

Lemma regex_search_advance (e : re) (c c' : string_cursor) (m : smatch) :
  cursor_ok c -> regex_search c e = Some (c', m) ->
  cursor_text c' = cursor_text c
  /\ current c + min_length e <= current c'
  /\ cursor_ok c'.
Proof.
  intros Hc. unfold regex_search.
  destruct (std_regex_search (cursor_rest c) e) as [m'|] eqn:E; [|discriminate].
  intros H. inversion H; subst; clear H. cbn.
  apply std_regex_search_length in E.
  unfold cursor_rest in E. rewrite length_skipn in E.
  unfold cursor_ok in *. cbn. repeat split; lia.
Qed.

(** ** No loop runs out of fuel *)

Lemma bind_finishes {A B : Type} (o : outcome A) (k : A -> outcome B) :
  o <> Out_of_fuel -> (forall a, o = Return a -> k a <> Out_of_fuel) ->
  bind o k <> Out_of_fuel.
Proof.
  intros Ho Hk. destruct o; cbn; try congruence. now apply Hk.
Qed.

Lemma bind_Return {A B : Type} (o : outcome A) (k : A -> outcome B) (b : B) :
  bind o k = Return b -> exists a, o = Return a /\ k a = Return b.
Proof. destruct o; cbn; try discriminate. intros H. now exists a. Qed.

Lemma catch_iterator_finishes {A : Type} (o : outcome A) (e : xml_error) :
  o <> Out_of_fuel -> catch_iterator o e <> Out_of_fuel.
Proof. destruct o; cbn; congruence. Qed.

Lemma _unescape_xml_entity_finishes (s : str) (illegal_re : re) :
  _unescape_xml_entity s illegal_re <> Out_of_fuel.
Proof.
  unfold _unescape_xml_entity.
  destruct (std_regex_search s illegal_re); [discriminate|].
  destruct (std_regex_search s re_undefined_entity); discriminate.
Qed.

(** A pass through the loop over the attributes moves [itr] forward, and
    not beyond the end of its range. *)
Lemma re_attribute_length (itr : str) (m : smatch) :
  std_regex_search itr re_attribute = Some m ->
  4 <= length (sub_match m 0) <= length itr.
Proof. apply (std_regex_search_length re_attribute). Qed.

Lemma parse_xml_attributes_loop_finishes (fuel : nat) :
  forall (itr : str) (attrs : attribute_map),
    length itr <= fuel ->
    parse_xml_attributes_loop fuel itr attrs <> Out_of_fuel.
Proof.
  induction fuel as [|fuel IH]; intros itr attrs Hlen;
    cbn [parse_xml_attributes_loop];
    destruct (std_regex_search itr re_attribute) as [m|] eqn:E.
  - apply re_attribute_length in E. lia.
  - destruct itr; [discriminate|].
    destruct (std_regex_match (a :: itr) re_spaces); discriminate.
  - apply re_attribute_length in E.
    apply bind_finishes.
    + destruct (str_eqb (sub_match m 2) [dquote]);
        apply _unescape_xml_entity_finishes.
    + intros v _. apply IH. rewrite length_skipn. lia.
  - destruct itr; [discriminate|].
    destruct (std_regex_match (a :: itr) re_spaces); discriminate.
Qed.

Lemma parse_xml_attributes_finishes (s : str) :
  parse_xml_attributes s <> Out_of_fuel.
Proof. apply parse_xml_attributes_loop_finishes. lia. Qed.

Lemma closing_tag_finishes st c cur tag mark attrs :
  closing_tag st c cur tag mark attrs <> Out_of_fuel.
Proof.
  unfold closing_tag.
  repeat match goal with
         | |- context [if ?b then _ else _] => destruct b
         end; try discriminate;
    destruct (parents st); discriminate.
Qed.

Lemma ordinary_tag_finishes st c text tag :
  ordinary_tag st c text tag <> Out_of_fuel.
Proof.
  unfold ordinary_tag.
  destruct (length tag =? 0); [discriminate|].
  apply bind_finishes.
  { unfold validate_tag_name.
    destruct (std_regex_search tag re_illegal_in_tag_name); discriminate. }
  intros _ _.
  destruct (regex_search c re_tag_end) as [[c2 m]|]; [|discriminate].
  apply bind_finishes.
  { apply catch_iterator_finishes, parse_xml_attributes_finishes. }
  intros attrs _.
  destruct (is_char (hd " "%char tag) "/").
  - apply closing_tag_finishes.
  - destruct (negb (length (sub_match m 2) =? 0)); discriminate.
Qed.

Lemma tag_loop_body_finishes (st : parse_state) :
  tag_loop_body st <> Out_of_fuel.
Proof.
  unfold tag_loop_body.
  destruct (regex_search (cursor st) re_tag_head) as [[c1 m]|]; [|discriminate].
  apply bind_finishes.
  { apply catch_iterator_finishes, _unescape_xml_entity_finishes. }
  intros u _.
  destruct (str_eqb (sub_match m 2) (lit "!--")).
  { destruct (regex_search c1 re_comment_end) as [[c2 m2]|]; [|discriminate].
    destruct (negb (str_eqb (sub_match m2 1) (lit "-->"))); discriminate. }
  destruct (str_eqb (sub_match m 2) (lit "![CDATA[")).
  { destruct (regex_search c1 re_cdata_end) as [[c2 m2]|]; discriminate. }
  apply bind_finishes; [apply ordinary_tag_finishes|discriminate].
Qed.

Lemma comment_loop_body_finishes (c : string_cursor) :
  comment_loop_body c <> Out_of_fuel.
Proof.
  unfold comment_loop_body.
  destruct (regex_search c re_comment_end) as [[c2 m2]|]; [|discriminate].
  destruct (negb (str_eqb (sub_match m2 1) (lit "-->"))); discriminate.
Qed.

Lemma parse_declaration_finishes (c : string_cursor) :
  parse_declaration c <> Out_of_fuel.
Proof.
  unfold parse_declaration.
  destruct (regex_search c re_xml_declaration) as [[c1 m]|]; [|discriminate].
  destruct (negb (str_eqb (sub_match m 1) (lit "1.0"))); [discriminate|].
  apply bind_finishes; [|discriminate].
  apply catch_iterator_finishes, parse_xml_attributes_finishes.
Qed.

(** ** The passes through the loops *)

Lemma closing_tag_cursor st c cur tag mark attrs st' :
  closing_tag st c cur tag mark attrs = Return st' -> cursor st' = c.
Proof.
  unfold closing_tag.
  repeat match goal with
         | |- context [if ?b then _ else _] => destruct b
         end; try discriminate;
    destruct (parents st); try discriminate;
    intros H; inversion H; reflexivity.
Qed.

Lemma ordinary_tag_cursor st c1 text tag st' :
  ordinary_tag st c1 text tag = Return st' ->
  exists m, regex_search c1 re_tag_end = Some (cursor st', m).
Proof.
  unfold ordinary_tag.
  destruct (length tag =? 0); [discriminate|].
  intros H. apply bind_Return in H. destruct H as [_ [_ H]].
  destruct (regex_search c1 re_tag_end) as [[c2 m]|]; [|discriminate].
  apply bind_Return in H. destruct H as [attrs [_ H]].
  cbv beta zeta in H.
  exists m. f_equal. f_equal.
  destruct (is_char (hd " "%char tag) "/").
  - now apply closing_tag_cursor in H.
  - destruct (negb (length (sub_match m 2) =? 0)); inversion H; reflexivity.
Qed.

(** A pass through the loop over the tags that does not leave the loop
    moves the cursor forward, and not beyond the end of the text. *)
Lemma tag_loop_body_advances (st st' : parse_state) :
  cursor_ok (cursor st) ->
  tag_loop_body st = Return (Some st') ->
  cursor_text (cursor st') = cursor_text (cursor st)
  /\ current (cursor st) < current (cursor st')
  /\ cursor_ok (cursor st').
Proof.
  intros Hok. unfold tag_loop_body.
  destruct (regex_search (cursor st) re_tag_head) as [[c1 m]|] eqn:E1;
    [|discriminate].
  destruct (regex_search_advance _ _ _ _ Hok E1) as [T1 [C1 O1]].
  change (min_length re_tag_head) with 1 in C1.
  intros H. apply bind_Return in H. destruct H as [u [_ H]].
  cbv beta zeta in H.
  assert (Hstep : forall e m2,
            regex_search c1 e = Some (cursor st', m2) ->
            cursor_text (cursor st') = cursor_text (cursor st)
            /\ current (cursor st) < current (cursor st')
            /\ cursor_ok (cursor st')).
  { intros e m2 E2.
    destruct (regex_search_advance _ _ _ _ O1 E2) as [T2 [C2 O2]].
    repeat split; [congruence|lia|assumption]. }
  destruct (str_eqb (sub_match m 2) (lit "!--")).
  { destruct (regex_search c1 re_comment_end) as [[c2 m2]|] eqn:E2;
      [|discriminate H].
    destruct (negb (str_eqb (sub_match m2 1) (lit "-->"))); [discriminate H|].
    inversion H; subst; clear H. cbn.
    apply (Hstep re_comment_end m2). exact E2. }
  destruct (str_eqb (sub_match m 2) (lit "![CDATA[")).
  { destruct (regex_search c1 re_cdata_end) as [[c2 m2]|] eqn:E2;
      [|discriminate H].
    inversion H; subst; clear H. cbn.
    apply (Hstep re_cdata_end m2). exact E2. }
  apply bind_Return in H. destruct H as [st1 [H1 H]].
  inversion H; subst; clear H.
  apply ordinary_tag_cursor in H1. destruct H1 as [m2 E2].
  apply (Hstep re_tag_end m2). exact E2.
Qed.

(** A pass through the loop that skips the comments moves the cursor
    forward. *)
Lemma comment_loop_body_advances (c0 c1 c2 : string_cursor) (m : smatch) :
  cursor_ok c0 ->
  regex_search c0 re_comment_head = Some (c1, m) ->
  comment_loop_body c1 = Return c2 ->
  cursor_text c2 = cursor_text c0 /\ current c0 < current c2 /\ cursor_ok c2.
Proof.
  intros Hok E1.
  destruct (regex_search_advance _ _ _ _ Hok E1) as [T1 [C1 O1]].
  change (min_length re_comment_head) with 4 in C1.
  unfold comment_loop_body.
  destruct (regex_search c1 re_comment_end) as [[c2' m2]|] eqn:E2; [|discriminate].
  destruct (negb (str_eqb (sub_match m2 1) (lit "-->"))); [discriminate|].
  intros H. inversion H; subst; clear H.
  destruct (regex_search_advance _ _ _ _ O1 E2) as [T2 [C2 O2]].
  repeat split; [congruence|lia|assumption].
Qed.

(** With fuel for what is left of the text, the loop over the tags ends by
    itself, and more fuel does not change its outcome. *)
Lemma tag_loop_enough (fuel : nat) :
  forall st : parse_state,
    cursor_ok (cursor st) -> remaining (cursor st) <= fuel ->
    tag_loop fuel st <> Out_of_fuel
    /\ (forall fuel', remaining (cursor st) <= fuel' ->
          tag_loop fuel' st = tag_loop fuel st)
    /\ (forall st', tag_loop fuel st = Return st' ->
          cursor_text (cursor st') = cursor_text (cursor st)
          /\ cursor_ok (cursor st')).
Proof.
  induction fuel as [|fuel IH]; intros st Hok Hrem.
  - assert (E : (current (cursor st) <? length (cursor_text (cursor st))) = false).
    { apply Nat.ltb_ge. unfold remaining in Hrem. unfold cursor_ok in Hok. lia. }
    cbn [tag_loop]. rewrite E. split; [discriminate|]. split.
    + intros [|f] _; cbn [tag_loop]; now rewrite E.
    + intros st' H. inversion H; subst. now split.
  - cbn [tag_loop].
    destruct (current (cursor st) <? length (cursor_text (cursor st))) eqn:E.
    2:{ split; [discriminate|]. split.
        - intros [|f] _; cbn [tag_loop]; now rewrite E.
        - intros st' H. inversion H; subst. now split. }
    assert (Hsame : forall fuel', remaining (cursor st) <= fuel' ->
              tag_loop fuel' st
              = bind (tag_loop_body st)
                  (fun r => match r with
                            | None => Return st
                            | Some st1 => tag_loop (pred fuel') st1
                            end)).
    { intros [|f] Hf; cbn [tag_loop pred]; rewrite E; [|reflexivity].
      apply Nat.ltb_lt in E. unfold remaining in Hf. lia. }
    pose proof (tag_loop_body_finishes st) as Hfin.
    pose proof (tag_loop_body_advances st) as Hadv.
    destruct (tag_loop_body st) as [[st1|]| | | |] eqn:Eb; cbn [bind];
      try congruence;
      try (split; [discriminate|]; split;
           [intros f Hf; now rewrite (Hsame f Hf)|discriminate]).
    + destruct (Hadv st1 Hok eq_refl) as [T [C O]].
      assert (Hrem1 : remaining (cursor st1) <= fuel).
      { unfold remaining in *. rewrite T. lia. }
      destruct (IH st1 O Hrem1) as [F [M R]].
      split; [assumption|]. split.
      * intros f Hf. rewrite (Hsame f Hf). cbn [bind]. apply M.
        unfold remaining in *. rewrite T. lia.
      * intros st' H. apply R in H. destruct H as [T' O']. split; congruence.
    + split; [discriminate|]. split.
      * intros f Hf. now rewrite (Hsame f Hf).
      * intros st' H. inversion H; subst. now split.
Qed.

Lemma comment_loop_enough (fuel : nat) :
  forall c : string_cursor,
    cursor_ok c -> remaining c <= fuel ->
    comment_loop fuel c <> Out_of_fuel
    /\ (forall fuel', remaining c <= fuel' ->
          comment_loop fuel' c = comment_loop fuel c).
Proof.
  induction fuel as [|fuel IH]; intros c Hok Hrem; cbn [comment_loop];
    destruct (regex_search c re_comment_head) as [[c1 m]|] eqn:E1;
    try (split; [discriminate|];
         intros [|f] _; cbn [comment_loop]; now rewrite E1).
  - destruct (regex_search_advance _ _ _ _ Hok E1) as [T1 [C1 O1]].
    change (min_length re_comment_head) with 4 in C1.
    unfold remaining, cursor_ok in *. rewrite T1 in O1. lia.
  - assert (Hsame : forall fuel', remaining c <= fuel' ->
              comment_loop fuel' c
              = bind (comment_loop_body c1)
                  (fun c2 => comment_loop (pred fuel') c2)).
    { intros [|f] Hf; cbn [comment_loop pred]; rewrite E1; [|reflexivity].
      destruct (regex_search_advance _ _ _ _ Hok E1) as [T1 [C1 O1]].
      change (min_length re_comment_head) with 4 in C1.
      unfold remaining, cursor_ok in *. rewrite T1 in O1. lia. }
    pose proof (comment_loop_body_finishes c1) as Hfin.
    pose proof (comment_loop_body_advances c c1) as Hadv.
    destruct (comment_loop_body c1) as [c2| | | |] eqn:Eb; cbn [bind];
      try congruence;
      try (split; [discriminate|]; intros f Hf; now rewrite (Hsame f Hf)).
    destruct (Hadv c2 m Hok E1 eq_refl) as [T [C O]].
    assert (Hrem2 : remaining c2 <= fuel).
    { unfold remaining in *. rewrite T. lia. }
    destruct (IH c2 O Hrem2) as [F M]. split; [assumption|].
    intros f Hf. rewrite (Hsame f Hf). cbn [bind]. apply M.
    unfold remaining in *. rewrite T. lia.
Qed.

Lemma parse_declaration_cursor (c c1 : string_cursor) (v : str) (a : attribute_map) :
  cursor_ok c -> parse_declaration c = Return (c1, v, a) ->
  cursor_text c1 = cursor_text c /\ cursor_ok c1.
Proof.
  intros Hok. unfold parse_declaration.
  destruct (regex_search c re_xml_declaration) as [[c1' m]|] eqn:E; [|discriminate].
  destruct (negb (str_eqb (sub_match m 1) (lit "1.0"))); [discriminate|].
  intros H. apply bind_Return in H. destruct H as [attrs [_ H]].
  inversion H; subst; clear H.
  destruct (regex_search_advance _ _ _ _ Hok E) as [T [_ O]].
  now split.
Qed.

(** Fuel for the whole text: [parse_top] ends by itself, with the outcome
    it has for any larger amount. *)
Lemma parse_top_enough (text : str) (fuel : nat) :
  length text <= fuel ->
  parse_top fuel text = parse_top (length text) text
  /\ parse_top (length text) text <> Out_of_fuel.
Proof.
  intros Hfuel. unfold parse_top.
  pose proof (parse_declaration_finishes (make_string_cursor text)) as Hd.
  pose proof (parse_declaration_cursor (make_string_cursor text)) as Hc.
  destruct (parse_declaration (make_string_cursor text))
    as [[[c1 v] a]| | | |] eqn:Ed; cbn [bind]; try (split; congruence).
  assert (Hok0 : cursor_ok (make_string_cursor text)) by (unfold cursor_ok; cbn; lia).
  destruct (Hc c1 v a Hok0 eq_refl) as [T1 O1]. cbn in T1.
  set (st0 := {| cursor := c1; current_node := new_node; parents := [];
                 inner_text_before_tag := [] |}).
  assert (Hrem0 : remaining (cursor st0) <= length text).
  { unfold remaining. cbn. rewrite T1. lia. }
  destruct (tag_loop_enough (length text) st0 O1 Hrem0) as [F [M R]].
  rewrite (M fuel) by lia.
  destruct (tag_loop (length text) st0) as [st| | | |] eqn:Et; cbn [bind];
    try (split; congruence).
  destruct (R st eq_refl) as [T2 O2]. cbn in T2.
  assert (Hrem1 : remaining (cursor st) <= length text).
  { unfold remaining. rewrite T2, T1. lia. }
  destruct (comment_loop_enough (length text) (cursor st) O2 Hrem1) as [F' M'].
  rewrite (M' fuel) by lia.
  destruct (comment_loop (length text) (cursor st)) as [c2| | | |]; cbn [bind];
    try (split; congruence).
  destruct (negb (is_space (cursor_rest c2))); split; congruence.
Qed.

(** ** Global substitution of an entity *)

Section Replace.

(** The pattern starts with [&], has no other [&], and its second byte
    is not [#]: so it is for each predefined entity. *)
Variables (x : ascii) (q r : str).
Hypothesis x_not_hash : is_char x "#" = false.
Hypothesis pattern_amp :
  forallb (fun c => negb (is_char c "&")) (x :: q) = true.

Lemma starts_with_no_amp (c : ascii) (s : str) :
  is_char c "&" = false -> starts_with ("&"%char :: x :: q) (c :: s) = false.
Proof.
  intros Hc. unfold starts_with. cbn [strip_prefix].
  unfold is_char in Hc. rewrite Ascii.eqb_sym, Hc. reflexivity.
Qed.

(** A text without [&] is passed over. *)
Lemma replace_from_plain (t s : str) :
  forallb (fun c => negb (is_char c "&")) t = true ->
  replace_from ("&"%char :: x :: q) r 0 (t ++ s) = t ++ replace_from ("&"%char :: x :: q) r 0 s.
Proof.
  induction t as [|c t IH]; intros Ht; [reflexivity|].
  cbn in Ht. apply andb_prop in Ht. destruct Ht as [Hc Ht].
  apply negb_true_iff in Hc.
  cbn [app replace_from]. rewrite starts_with_no_amp by exact Hc.
  f_equal. now apply IH.
Qed.

(** So is a text that starts with [&#] and has no other [&]. *)
Lemma replace_from_reference (t s : str) :
  forallb (fun c => negb (is_char c "&")) t = true ->
  replace_from ("&"%char :: x :: q) r 0 ("&"%char :: "#"%char :: t ++ s)
  = "&"%char :: "#"%char :: t ++ replace_from ("&"%char :: x :: q) r 0 s.
Proof.
  intros Ht. cbn [replace_from].
  assert (E : starts_with ("&"%char :: x :: q) ("&"%char :: "#"%char :: t ++ s) = false).
  { unfold starts_with. cbn [strip_prefix].
    unfold is_char in x_not_hash. rewrite Ascii.eqb_refl, x_not_hash.
    reflexivity. }
  rewrite E. f_equal.
  apply (replace_from_plain ("#"%char :: t) s). cbn. now rewrite Ht.
Qed.

Lemma strip_prefix_within (p' a s2 : str) :
  forallb (fun c => negb (is_char c "&")) p' = true ->
  (s2 = [] \/ exists s3, s2 = "&"%char :: s3) ->
  strip_prefix p' (a ++ s2) <> None -> strip_prefix p' a <> None.
Proof.
  intros Hp Hs. revert a. induction p' as [|y p' IH]; intros a; cbn [strip_prefix].
  - discriminate.
  - cbn in Hp. apply andb_prop in Hp. destruct Hp as [Hy Hp].
    apply negb_true_iff in Hy. unfold is_char in Hy.
    destruct a as [|c a]; cbn [app].
    + destruct Hs as [->|[s3 ->]]; [easy|]. now rewrite Hy.
    + destruct (Ascii.eqb y c); [|easy]. now apply IH.
Qed.

Lemma starts_with_within (c : ascii) (a s2 : str) :
  (s2 = [] \/ exists s3, s2 = "&"%char :: s3) ->
  starts_with ("&"%char :: x :: q) ((c :: a) ++ s2) = starts_with ("&"%char :: x :: q) (c :: a).
Proof.
  intros Hs. unfold starts_with.
  destruct (strip_prefix ("&"%char :: x :: q) (c :: a)) as [r1|] eqn:E1.
  - apply strip_prefix_app in E1. rewrite E1, <- app_assoc.
    now rewrite strip_prefix_same.
  - pose proof pattern_amp as Hp.
    remember (x :: q) as p' eqn:Ep. clear Ep.
    cbn [app strip_prefix] in *.
    destruct (Ascii.eqb "&" c); [|reflexivity].
    destruct (strip_prefix p' (a ++ s2)) eqn:E2; [|reflexivity].
    exfalso. apply (strip_prefix_within p' a s2 Hp Hs); congruence.
Qed.

Lemma starts_with_length (a : str) :
  starts_with ("&"%char :: x :: q) a = true -> length ("&"%char :: x :: q) <= length a.
Proof.
  intros H. apply starts_with_app in H. destruct H as [r1 ->].
  rewrite length_app. lia.
Qed.

(** A match that starts in front of an [&] ends in front of it. *)
Lemma replace_from_prefix (s2 : str) :
  (s2 = [] \/ exists s3, s2 = "&"%char :: s3) ->
  forall (a : str) (skip : nat),
    skip <= length a ->
    replace_from ("&"%char :: x :: q) r skip (a ++ s2)
    = replace_from ("&"%char :: x :: q) r skip a ++ replace_from ("&"%char :: x :: q) r 0 s2.
Proof.
  intros Hs. induction a as [|c a IH]; intros skip Hskip.
  - cbn in Hskip. assert (skip = 0) as -> by lia. reflexivity.
  - destruct skip as [|k].
    + change (replace_from ("&"%char :: x :: q) r 0 ((c :: a) ++ s2))
        with (if starts_with ("&"%char :: x :: q) ((c :: a) ++ s2)
              then r ++ replace_from ("&"%char :: x :: q) r (length ("&"%char :: x :: q) - 1) (a ++ s2)
              else c :: replace_from ("&"%char :: x :: q) r 0 (a ++ s2)).
      rewrite (starts_with_within c a s2 Hs).
      cbn [replace_from].
      destruct (starts_with ("&"%char :: x :: q) (c :: a)) eqn:E.
      * apply starts_with_length in E. cbn [length] in E |- *.
        rewrite IH by lia. now rewrite app_assoc.
      * rewrite IH by lia. reflexivity.
    + cbn [app replace_from length] in *. apply IH. lia.
Qed.

(** The substitution leaves a numeric character reference where it is
    and treats the texts on its two sides apart. *)
Lemma regex_replace_around (a t b : str) :
  forallb (fun c => negb (is_char c "&")) t = true ->
  regex_replace (a ++ "&"%char :: "#"%char :: t ++ b) ("&"%char :: x :: q) r
  = regex_replace a ("&"%char :: x :: q) r ++ "&"%char :: "#"%char :: t ++ regex_replace b ("&"%char :: x :: q) r.
Proof.
  intros Ht. unfold regex_replace.
  rewrite replace_from_prefix; [|right; eauto|lia].
  now rewrite replace_from_reference.
Qed.

Lemma regex_replace_plain (t : str) :
  forallb (fun c => negb (is_char c "&")) t = true ->
  regex_replace t ("&"%char :: x :: q) r = t.
Proof.
  intros Ht. unfold regex_replace.
  rewrite <- (app_nil_r t) at 1. rewrite replace_from_plain by assumption.
  cbn. apply app_nil_r.
Qed.

End Replace.

Lemma re_xdigit_not_amp (c : ascii) :
  re_xdigit c = true -> negb (is_char c "&") = true.
Proof.
  destruct c as [[] [] [] [] [] [] [] []]; cbn; intros H;
    solve [reflexivity | discriminate H].
Qed.

Lemma re_digit_not_amp (c : ascii) :
  re_digit c = true -> negb (is_char c "&") = true.
Proof.
  intros H. apply re_xdigit_not_amp. unfold re_xdigit. now rewrite H.
Qed.

Lemma forallb_impl (f g : ascii -> bool) (s : str) :
  (forall c, f c = true -> g c = true) ->
  forallb f s = true -> forallb g s = true.
Proof.
  intros Hfg. induction s as [|c s IH]; cbn; [reflexivity|].
  intros H. apply andb_prop in H. destruct H as [H1 H2].
  now rewrite (Hfg _ H1), IH.
Qed.

(** A numeric character reference is [&#] followed by bytes other than
    [&]. *)
Lemma numeric_reference_shape (ref : str) :
  numeric_reference ref = true ->
  exists t, ref = "&"%char :: "#"%char :: t
            /\ forallb (fun c => negb (is_char c "&")) t = true.
Proof.
  unfold numeric_reference, std_regex_match. intros H.
  apply orb_prop in H. destruct H as [H|H].
  - cbn [seq fold_right run] in H.
    destruct (strip_prefix (lit "&#") ref) as [t|] eqn:E0; [|discriminate].
    apply strip_prefix_app in E0. subst ref. exists t. split; [reflexivity|].
    unfold plus in H. cbn [run] in H.
    destruct (rep re_digit true _ 1 (0 + length (lit "&#")) t) as [res|] eqn:E;
      [|discriminate].
    apply rep_inv in E. destruct E as [n [Hn [Hd E]]].
    destruct (strip_prefix (lit ";") (skipn n t)) as [[|c r]|] eqn:E1;
      try discriminate.
    apply strip_prefix_app in E1.
    rewrite <- (firstn_skipn n t), E1, forallb_app.
    rewrite (forallb_impl _ _ (firstn n t) re_digit_not_amp Hd). reflexivity.
  - cbn [seq fold_right run] in H.
    destruct (strip_prefix (lit "&#x") ref) as [t|] eqn:E0; [|discriminate].
    apply strip_prefix_app in E0. subst ref.
    destruct t as [|a t]; [discriminate|].
    destruct (re_xdigit a) eqn:Ea; [|discriminate].
    destruct t as [|b t]; [discriminate|].
    destruct (re_xdigit b) eqn:Eb; [|discriminate].
    destruct t as [|c t]; [discriminate|].
    destruct (re_xdigit c) eqn:Ec; [|discriminate].
    destruct t as [|d t]; [discriminate|].
    destruct (re_xdigit d) eqn:Ed; [|discriminate].
    destruct (strip_prefix (lit ";") t) as [[|e r]|] eqn:E1; try discriminate.
    apply strip_prefix_app in E1. subst t.
    eexists. split; [reflexivity|].
    cbn [forallb app lit list_ascii_of_string].
    rewrite (re_xdigit_not_amp a Ea), (re_xdigit_not_amp b Eb),
      (re_xdigit_not_amp c Ec), (re_xdigit_not_amp d Ed).
    reflexivity.
Qed.

(** The five substitutions, one after the other, around a numeric
    character reference. *)
Lemma rewrite_entities_around (a ref b : str) :
  numeric_reference ref = true ->
  rewrite_entities (a ++ ref ++ b)
  = rewrite_entities a ++ ref ++ rewrite_entities b.
Proof.
  intros H. apply numeric_reference_shape in H. destruct H as [t [-> Ht]].
  unfold rewrite_entities, predefined_entities. cbn [fold_left fst snd app].
  change (lit "&lt;") with ("&"%char :: "l"%char :: lit "t;").
  change (lit "&gt;") with ("&"%char :: "g"%char :: lit "t;").
  change (lit "&apos;") with ("&"%char :: "a"%char :: lit "pos;").
  change (lit "&quot;") with ("&"%char :: "q"%char :: lit "uot;").
  change (lit "&amp;") with ("&"%char :: "a"%char :: lit "mp;").
  rewrite (regex_replace_around "l" (lit "t;") (lit "<") eq_refl eq_refl _ t _ Ht).
  rewrite (regex_replace_around "g" (lit "t;") (lit ">") eq_refl eq_refl _ t _ Ht).
  rewrite (regex_replace_around "a" (lit "pos;") [apos] eq_refl eq_refl _ t _ Ht).
  rewrite (regex_replace_around "q" (lit "uot;") [dquote] eq_refl eq_refl _ t _ Ht).
  rewrite (regex_replace_around "a" (lit "mp;") (lit "&") eq_refl eq_refl _ t _ Ht).
  reflexivity.
Qed.

(** A text without [&] is not changed. *)
Lemma rewrite_entities_plain (t : str) :
  forallb (fun c => negb (is_char c "&")) t = true -> rewrite_entities t = t.
Proof.
  intros Ht.
  unfold rewrite_entities, predefined_entities. cbn [fold_left fst snd].
  change (lit "&lt;") with ("&"%char :: "l"%char :: lit "t;").
  change (lit "&gt;") with ("&"%char :: "g"%char :: lit "t;").
  change (lit "&apos;") with ("&"%char :: "a"%char :: lit "pos;").
  change (lit "&quot;") with ("&"%char :: "q"%char :: lit "uot;").
  change (lit "&amp;") with ("&"%char :: "a"%char :: lit "mp;").
  rewrite (regex_replace_plain "l" (lit "t;") (lit "<") t Ht).
  rewrite (regex_replace_plain "g" (lit "t;") (lit ">") t Ht).
  rewrite (regex_replace_plain "a" (lit "pos;") [apos] t Ht).
  rewrite (regex_replace_plain "q" (lit "uot;") [dquote] t Ht).
  rewrite (regex_replace_plain "a" (lit "mp;") (lit "&") t Ht).
  reflexivity.
Qed.

(** ** Closing tags and comments *)

(** A pattern that starts with [^] has no match behind the start of the
    range. *)
Lemma search_from_bol (r : re) (s : str) (pos : nat) :
  search_from (Seq Bol r) (S pos) s = None.
Proof.
  revert pos. induction s as [|c t IH]; intros pos; cbn; [reflexivity|].
  apply IH.
Qed.

Lemma search_from_anchored (r : re) (s : str) :
  search_from (Seq Bol r) 0 s
  = run (Grp 0 (Seq Bol r)) (fun _ _ m => Some m) 0 s [].
Proof.
  destruct s as [|c t]; cbn [search_from];
    destruct (run (Grp 0 (Seq Bol r)) (fun _ _ m => Some m) 0 _ []);
    try reflexivity.
  apply search_from_bol.
Qed.

(** A greedy repetition stops where the class ends, when the rest of the
    pattern matches there. *)
Lemma rep_greedy_longest (f : ascii -> bool) (k : nat -> str -> option smatch)
    (a b : str) (c : ascii) (res : smatch) :
  forallb f a = true -> f c = false ->
  forall pos, k (pos + length a) (c :: b) = Some res ->
              rep f true k 0 pos (a ++ c :: b) = Some res.
Proof.
  intros Ha Hc. induction a as [|d a IH]; intros pos Hk.
  - cbn [app rep]. rewrite Hc. cbn in Hk. now rewrite Nat.add_0_r in Hk.
  - cbn in Ha. apply andb_prop in Ha. destruct Ha as [Hd Ha].
    cbn [app rep]. rewrite Hd. cbn [pred]. rewrite (IH Ha (S pos)).
    + reflexivity.
    + cbn [length] in Hk. now rewrite Nat.add_succ_r in Hk.
Qed.

(** The end of a comment is not found behind a dash that stands alone,
    whatever follows it. *)
Lemma re_comment_end_single_dash (body rest : str) (c : ascii) :
  forallb (none_of (lit "-")) body = true ->
  is_char c "-" = false ->
  std_regex_search (body ++ "-"%char :: c :: rest) re_comment_end = None.
Proof.
  intros Hbody Hc. unfold std_regex_search.
  set (s := body ++ "-"%char :: c :: rest).
  assert (Hhere : run (Grp 0 re_comment_end) (fun _ _ m => Some m) 0 s [] = None).
  { unfold re_comment_end, star. cbn [seq fold_right run Nat.eqb].
    match goal with |- ?t = None => destruct t as [res|] eqn:E end;
      [|reflexivity].
    exfalso. apply rep_inv in E. destruct E as [n [_ [Hf E]]].
    assert (Hs : exists x r, skipn n s = x :: r
                             /\ (x = "-"%char -> r = c :: rest)).
    { unfold s in *. clear E. revert n Hf.
      induction body as [|d body IH]; intros n Hf.
      - destruct n as [|n]; [cbn; eauto|]. cbn in Hf. discriminate.
      - cbn in Hbody. apply andb_prop in Hbody. destruct Hbody as [Hd Hbody].
        destruct n as [|n].
        + exists d, (body ++ "-"%char :: c :: rest). split; [reflexivity|].
          intros ->. cbn in Hd. discriminate.
        + cbn [app firstn forallb skipn] in *.
          apply andb_prop in Hf. destruct Hf as [_ Hf]. now apply IH. }
    destruct Hs as [x [r [Hs Hx]]]. rewrite Hs in E.
    cbn [strip_prefix lit list_ascii_of_string] in E.
    destruct (Ascii.eqb "-" x) eqn:Ex; [|discriminate].
    apply Ascii.eqb_eq in Ex. subst x. rewrite (Hx eq_refl) in E.
    unfold is_char in Hc. rewrite Ascii.eqb_sym in Hc. rewrite Hc in E.
    discriminate. }
  change re_comment_end
    with (Seq Bol (seq [star (none_of (lit "-"));
                        Grp 1 (seq [Lit (lit "--"); opt (Cls re_any)])])).
  rewrite search_from_anchored. exact Hhere.
Qed.

(** A body without any dash is skipped up to its [-->]. *)
Lemma re_comment_end_no_dash (body rest : str) :
  forallb (none_of (lit "-")) body = true ->
  std_regex_search (body ++ lit "-->" ++ rest) re_comment_end
  = Some [(0, body ++ lit "-->"); (1, lit "-->")].
Proof.
  intros Hbody. unfold std_regex_search.
  change re_comment_end
    with (Seq Bol (seq [star (none_of (lit "-"));
                        Grp 1 (seq [Lit (lit "--"); opt (Cls re_any)])])).
  rewrite search_from_anchored. unfold star.
  cbn [seq fold_right run Nat.eqb lit list_ascii_of_string app].
  apply rep_greedy_longest; [exact Hbody|reflexivity|].
  cbn [strip_prefix]. rewrite !Ascii.eqb_refl. cbn [opt run length].
  change (re_any ">") with true. cbv iota.
  replace (S (0 + length body + 2) - 0) with (length body + 3) by lia.
  replace (S (0 + length body + 2) - (0 + length body)) with 3 by lia.
  rewrite firstn_app_2. reflexivity.
Qed.

(** With no element open, a closing tag with a name behind its [/] is
    reported as a tag without its opening tag. *)
Lemma closing_tag_without_open_element
    (st : parse_state) (c : string_cursor) (current : xml_node)
    (tag_name : str) (attrs : attribute_map) :
  name current = [] -> tag_name <> lit "/" ->
  closing_tag st c current tag_name [] attrs = Throw Missing_an_opening_tag.
Proof.
  intros Hname Htag. unfold closing_tag. cbn [length Nat.eqb negb].
  rewrite Hname. change (lit "/" ++ []) with (lit "/").
  destruct (str_eqb tag_name (lit "/")) eqn:E; [|reflexivity].
  apply str_eqb_eq in E. contradiction.
Qed.

(** The element that a closing tag closes is attached to its parent
    without an only child named [#text]. *)
Lemma closing_tag_collapses
    (st st' : parse_state) (c : string_cursor) (current : xml_node)
    (tag_name mark : str) (attrs : attribute_map) :
  closing_tag st c current tag_name mark attrs = Return st' ->
  exists closed p,
    current_node st' = push_back p closed
    /\ name closed = name current
    /\ (forall child, nodes closed = [child] -> name child <> lit "#text").
Proof.
  unfold closing_tag.
  destruct (negb (length mark =? 0)); [discriminate|].
  destruct (negb (str_eqb tag_name (lit "/" ++ name current))); [discriminate|].
  destruct (negb (map_empty attrs)); [discriminate|].
  destruct (parents st) as [|p ps]; [discriminate|].
  destruct (nodes current) as [|child [|child2 others]] eqn:En.
  - intros [= <-]. exists current, p. cbn [current_node].
    split; [reflexivity|split; [reflexivity|]].
    intros ch Hch. rewrite En in Hch. discriminate.
  - destruct (str_eqb (name child) (lit "#text")) eqn:E.
    + intros [= <-]. eexists. exists p. cbn [current_node].
      split; [reflexivity|split; [reflexivity|]].
      intros ch Hch. discriminate.
    + intros [= <-]. exists current, p. cbn [current_node].
      split; [reflexivity|split; [reflexivity|]].
      intros ch Hch. rewrite En in Hch. inversion Hch; subst.
      intros Hn. apply str_eqb_eq in Hn. congruence.
  - intros [= <-]. exists current, p. cbn [current_node].
    split; [reflexivity|split; [reflexivity|]].
    intros ch Hch. rewrite En in Hch. discriminate.
Qed.

(** * The statements of the specification *)

(** ** Tags *)

(** C1.  The claim: [parse_xml] reads the [/] in front of the [>] of
    [<root/>] as the self-closing mark and returns a root named [root]
    without children and with an empty value.  The code: the name of the
    tag is every byte up to the [>] or a white space, the [/] with it, so
    the tag is an opening tag named [root/], which is left open.  Where
    the [/] does not touch the name, behind a space or an attribute, the
    code does read it as the mark. *)
Theorem self_closing_tag_keeps_slash :
  parse_xml (xml_decl ++ lit "<root/>")
  = Return (document_of (Some (element (lit "root/") [] [])))
  /\ parse_xml (xml_decl ++ lit "<root />")
     = Return (document_of (Some (element (lit "root") [] [])))
  /\ parse_xml (xml_decl ++ lit "<root a='1'/>")
     = Return (document_of
                 (Some {| name := lit "root";
                          attributes := [(lit "a", lit "1")];
                          value := []; nodes := [] |})).
Proof. repeat split; vm_compute; reflexivity. Qed.

(** C3.  The claim: an opening tag that is not closed before the end of
    the input makes [parse_xml] fail.  The code: after the last tag nothing
    compares [current_node] with [top_node], and the document with the open
    element as its root is returned.  The element that is open is missed
    only when the closing tag of another one arrives. *)
Theorem unclosed_element_accepted :
  parse_xml (xml_decl ++ lit "<a>")
  = Return (document_of (Some (element (lit "a") [] [])))
  /\ parse_xml (xml_decl ++ lit "<a></b>") = Throw Missing_an_closing_tag.
Proof. split; vm_compute; reflexivity. Qed.

(** C5.  The claim: a closing tag met while no element is open, [</>]
    among them, fails with [MismatchedClosingTag].  The code: the name of
    [top_node] is empty, so [</>] matches it; [top_node] has no parent and
    the assertion behind the step to the parent fails.  A closing tag with
    a name is reported (see [closing_tag_without_open_element]). *)
Theorem empty_closing_tag_at_top_level :
  parse_xml (xml_decl ++ lit "</>") = Assertion_failed
  /\ parse_xml (xml_decl ++ lit "</a>") = Throw Missing_an_opening_tag
  /\ code Missing_an_opening_tag = MismatchedClosingTag.
Proof. repeat split; vm_compute; reflexivity. Qed.

(** ** Comments and what follows the root *)

(** C2.  The claim: a comment whose body has no two dashes in a row is
    skipped without an error.  The code: the body is matched with [[^-]*],
    so the first dash of the body has to be the start of [--] (see
    [re_comment_end_single_dash]); for the body [ a - b ] no end of the
    comment is found.  A body without a dash is skipped, and two dashes in
    the body are reported as such. *)
Theorem comment_with_single_dash_rejected :
  parse_xml (xml_decl ++ lit "<!-- a - b -->")
  = Throw Missing_an_end_of_the_comment_section
  /\ parse_xml (xml_decl ++ lit "<!-- a b -->") = Return (document_of None)
  /\ parse_xml (xml_decl ++ lit "<!-- a -- b -->")
     = Throw Two_dashes_in_the_middle_of_a_comment_are_not_allowed.
Proof. repeat split; vm_compute; reflexivity. Qed.

(** C4.  The claim: text that is not blank behind the root makes
    [parse_xml] fail with [IllegalFormatTrailingContent], also when a
    comment follows the text.  The code: the loop over the tags takes the
    text in front of the comment into its text buffer, which is dropped at
    the end of the loop; the document is returned.  The same text at the
    very end of the input is rejected. *)
Theorem text_before_trailing_comment_accepted :
  parse_xml (xml_decl ++ lit "<a />x<!--c-->")
  = Return (document_of (Some (element (lit "a") [] [])))
  /\ parse_xml (xml_decl ++ lit "<a />x") = Throw Illegal_format
  /\ parse_xml (xml_decl ++ lit "<a /><!--c-->x") = Throw Illegal_format.
Proof. repeat split; vm_compute; reflexivity. Qed.

(** ** Text nodes *)

(** C7.  The claim: no element of a returned tree has exactly one child
    that is a [#text] node.  The code: the only child is moved into the
    value when the closing tag of the element is read (see
    [closing_tag_collapses]); the element [a] below is never closed and
    keeps its only child, which has the name [#text], the value [x], no
    attributes and no children.  The tree of the example of the claim is
    as the claim has it. *)
Theorem open_element_keeps_lone_text_child :
  parse_xml (xml_decl ++ lit "<a><#text>x</#text>")
  = Return (document_of
              (Some (element (lit "a") []
                       [element (lit "#text") (lit "x") []])))
  /\ parse_xml (xml_decl ++ lit "<a><b>x</b></a>")
     = Return (document_of
                 (Some (element (lit "a") [] [element (lit "b") (lit "x") []]))).
Proof. split; vm_compute; reflexivity. Qed.

(** C8.  The claim: a node named [#text] has neither attributes nor
    children, whatever the input.  The code: [validate_tag_name], which
    stops a name with one of [<>'\x22&] in it, lets the name [#text] pass,
    and the tag makes an element with that name, here with an attribute and
    a child.  The closing tag of a parent takes such an element, when it is
    the only child, for a text node and removes it with all it contains. *)
Theorem text_named_element_has_attributes_and_children :
  parse_xml (xml_decl ++ lit "<#text id='1'><b /></#text>")
  = Return (document_of
              (Some {| name := lit "#text";
                       attributes := [(lit "id", lit "1")];
                       value := [];
                       nodes := [element (lit "b") [] []] |}))
  /\ parse_xml (xml_decl ++ lit "<a><#text id='1'><b /></#text></a>")
     = Return (document_of (Some (element (lit "a") [] [])))
  /\ parse_xml (xml_decl ++ lit "<a&b />") = Throw_iterator.
Proof. repeat split; vm_compute; reflexivity. Qed.

(** ** Entities *)

(** C6.  A text that passes the two validations is returned with the five
    predefined entities rewritten, in the order [&lt;], [&gt;], [&apos;],
    [&quot;], [&amp;], each by a substitution over the whole text; a
    numeric character reference in the text is in the result as it was, the
    texts on its two sides being rewritten apart, and a text without [&] is
    not changed.  A lone [&] as the content of an element makes [parse_xml]
    fail with [NoEscapedCharacter]; the five entities as the content of the
    root give it the inner text [<>'\x22&]. *)
Theorem unescape_rewrites_five_entities :
  (forall (s : str) (illegal_re : re) (r : str),
      _unescape_xml_entity s illegal_re = Return r ->
      r = rewrite_entities s
      /\ (forall a ref b : str,
             s = a ++ ref ++ b -> numeric_reference ref = true ->
             r = rewrite_entities a ++ ref ++ rewrite_entities b)
      /\ (forallb (fun c => negb (is_char c "&")) s = true -> r = s))
  /\ (exists e : xml_error,
         parse_xml (xml_decl ++ lit "<value>&</value>") = Throw e
         /\ code e = NoEscapedCharacter)
  /\ (exists (d : xml_document) (root : xml_node),
         parse_xml (xml_decl ++ lit "<value>&lt;&gt;&apos;&quot;&amp;</value>")
         = Return d
         /\ root_node d = Some root
         /\ nodes root = []
         /\ inner_text root = lit "<>'" ++ [dquote] ++ lit "&").
Proof.
  split; [|split].
  - intros s illegal_re r H.
    assert (Hr : r = rewrite_entities s).
    { unfold _unescape_xml_entity in H.
      destruct (std_regex_search s illegal_re); [discriminate H|].
      destruct (std_regex_search s re_undefined_entity); [discriminate H|].
      inversion H. reflexivity. }
    split; [exact Hr|]. split.
    + intros a ref b -> Href. rewrite Hr. now apply rewrite_entities_around.
    + intros Hs. rewrite Hr. now apply rewrite_entities_plain.
  - exists Found_an_unescaped_character_or_an_undefined_entity.
    split; vm_compute; reflexivity.
  - eexists. eexists. split; [vm_compute; reflexivity|].
    split; [reflexivity|]. split; vm_compute; reflexivity.
Qed.

Lemma unescape_rewrites_five_entities_witness :
  unescape_xml_inner_text (lit "1 &lt; 2 &amp;&amp; &#160;&#x2663; a&gt;b")
  = Return (lit "1 < 2 && &#160;&#x2663; a>b")
  /\ lit "1 < 2 && &#160;&#x2663; a>b"
     = rewrite_entities (lit "1 &lt; 2 &amp;&amp; ") ++ lit "&#160;"
         ++ rewrite_entities (lit "&#x2663; a&gt;b").
Proof.
  split; [reflexivity|].
  apply (proj1 (proj2 (proj1 unescape_rewrites_five_entities
                         (lit "1 &lt; 2 &amp;&amp; &#160;&#x2663; a&gt;b")
                         re_illegal_in_inner_text
                         (lit "1 < 2 && &#160;&#x2663; a>b")
                         eq_refl))
           (lit "1 &lt; 2 &amp;&amp; ") (lit "&#160;") (lit "&#x2663; a&gt;b")
           eq_refl eq_refl).
Defined.

(** ** Termination *)

(** [parse_xml] ends on every text: with the length of the text as
    fuel, and with any larger amount, the loops end by themselves, in a
    document, an [xml_error], an iterator that [validate_tag_name] throws,
    or the failed assertion.  The reason is that a pass through the loop
    over the tags and a pass through the loop over the trailing comments
    move the cursor forward within the text, and that a pass through the
    loop over the attributes moves [itr] forward within its range. *)
Theorem parse_xml_terminates (text : str) (fuel : nat)
    (Hfuel : length text <= fuel) :
  parse_xml_fuel fuel text = parse_xml text
  /\ ((exists d, parse_xml text = Return d)
      \/ (exists e, parse_xml text = Throw e)
      \/ parse_xml text = Throw_iterator
      \/ parse_xml text = Assertion_failed)
  /\ (forall st st' : parse_state,
         cursor_ok (cursor st) ->
         tag_loop_body st = Return (Some st') ->
         current (cursor st) < current (cursor st')
         /\ current (cursor st') <= length (cursor_text (cursor st)))
  /\ (forall (c0 c1 c2 : string_cursor) (m : smatch),
         cursor_ok c0 ->
         regex_search c0 re_comment_head = Some (c1, m) ->
         comment_loop_body c1 = Return c2 ->
         current c0 < current c2 /\ current c2 <= length (cursor_text c0))
  /\ (forall (itr : str) (m : smatch),
         std_regex_search itr re_attribute = Some m ->
         length (skipn (length (sub_match m 0)) itr) < length itr)
  /\ (forall s : str, parse_xml_attributes s <> Out_of_fuel).
Proof.
  destruct (parse_top_enough text fuel Hfuel) as [E F].
  split; [|split; [|split; [|split; [|split]]]].
  - unfold parse_xml, parse_xml_fuel. now rewrite E.
  - unfold parse_xml, parse_xml_fuel.
    destruct (parse_top (length text) text) as [r| e | | |]; cbn [bind].
    + left. now eexists.
    + right. left. now eexists.
    + right. right. now left.
    + right. right. now right.
    + congruence.
  - intros st st' Hok H.
    destruct (tag_loop_body_advances st st' Hok H) as [T [C O]].
    split; [exact C|]. unfold cursor_ok in O. now rewrite T in O.
  - intros c0 c1 c2 m Hok H1 H2.
    destruct (comment_loop_body_advances c0 c1 c2 m Hok H1 H2) as [T [C O]].
    split; [exact C|]. unfold cursor_ok in O. now rewrite T in O.
  - intros itr m H. apply re_attribute_length in H.
    rewrite length_skipn. lia.
  - apply parse_xml_attributes_finishes.
Qed.

Lemma parse_xml_terminates_witness :
  parse_xml_fuel 1000 (xml_decl ++ lit "<a b='1'>x<!--c--><c /></a>")
  = parse_xml (xml_decl ++ lit "<a b='1'>x<!--c--><c /></a>").
Proof.
  apply (parse_xml_terminates (xml_decl ++ lit "<a b='1'>x<!--c--><c /></a>")
           1000).
  vm_compute. lia.
Defined.

(** C9.  The claim: on every text [parse_xml] ends after finitely many
    passes through its loops, with a document or with an error.  The
    code: it does end on every text, each pass moving its cursor forward
    (see [parse_xml_terminates]), but not always with a document or an
    error.  A closing tag [</>] met while no element is open stops it at
    its own assertion that [current_node] has a parent, and the iterator
    that [validate_tag_name] throws at a name such as [R&D] leaves
    [parse_xml] as it is: no [catch] stands around that call, while the
    iterator that [parse_xml_attributes] throws is caught and reported as
    an [xml_error]. *)
Theorem parse_xml_ends_without_document_or_error :
  parse_xml (xml_decl ++ lit "</>") = Assertion_failed
  /\ parse_xml (xml_decl ++ lit "<a /></>") = Assertion_failed
  /\ parse_xml (xml_decl ++ lit "<R&D>") = Throw_iterator
  /\ parse_xml (xml_decl ++ lit "<a b>") = Throw Illegal_attributes
  /\ ~ (forall text : str,
           (exists d, parse_xml text = Return d)
           \/ (exists e, parse_xml text = Throw e)).
Proof.
  split; [|split; [|split; [|split]]]; try (vm_compute; reflexivity).
  intros H. destruct (H (xml_decl ++ lit "</>")) as [[d E]|[e E]];
    vm_compute in E; discriminate E.
Qed.

(** * Further properties *)

(** ** The matcher on texts of a known shape *)

(** A greedy repetition takes the whole run of its class, when the rest of
    the pattern matches behind the run. *)
Lemma rep_greedy_run (f : ascii -> bool) (k : nat -> str -> option smatch)
    (a b : str) (res : smatch) :
  forallb f a = true ->
  match b with [] => true | c :: _ => negb (f c) end = true ->
  forall min pos,
    min <= length a ->
    k (pos + length a) b = Some res ->
    rep f true k min pos (a ++ b) = Some res.
Proof.
  intros Ha Hb. induction a as [|d a IH]; intros min pos Hmin Hk.
  - cbn in Hmin. assert (min = 0) as -> by lia.
    cbn in Hk. rewrite Nat.add_0_r in Hk. cbn [app].
    destruct b as [|c b]; cbn [rep].
    + exact Hk.
    + apply negb_true_iff in Hb. rewrite Hb. exact Hk.
  - cbn in Ha. apply andb_prop in Ha. destruct Ha as [Hd Ha].
    cbn [app rep]. rewrite Hd. rewrite (IH Ha (pred min) (S pos)).
    + reflexivity.
    + cbn [length] in Hmin. lia.
    + cbn [length] in Hk. now rewrite Nat.add_succ_r in Hk.
Qed.

(** A lazy repetition stops at the first place, from [min] characters on,
    where the rest of the pattern matches. *)
Lemma rep_lazy_first (f : ascii -> bool) (k : nat -> str -> option smatch)
    (b : str) (res : smatch) :
  forall (a : str) (min pos : nat),
    forallb f a = true ->
    min <= length a ->
    (forall j, min <= j < length a ->
               k (pos + j) (skipn j (a ++ b)) = None) ->
    k (pos + length a) b = Some res ->
    rep f false k min pos (a ++ b) = Some res.
Proof.
  induction a as [|d a IH]; intros min pos Ha Hmin Hnone Hk.
  - cbn in Hmin. assert (min = 0) as -> by lia.
    cbn in Hk. rewrite Nat.add_0_r in Hk. cbn [app].
    destruct b as [|c b]; cbn [rep Nat.eqb]; now rewrite Hk.
  - cbn in Ha. apply andb_prop in Ha. destruct Ha as [Hd Ha].
    cbn [app rep]. rewrite Hd.
    assert (E : (if min =? 0 then k pos (d :: a ++ b) else None) = None).
    { destruct (min =? 0) eqn:E0; [|reflexivity].
      apply Nat.eqb_eq in E0. subst min.
      specialize (Hnone 0). cbn in Hnone. rewrite Nat.add_0_r in Hnone.
      apply Hnone. lia. }
    rewrite E. apply IH.
    + exact Ha.
    + cbn [length] in Hmin. lia.
    + intros j Hj. specialize (Hnone (S j)).
      cbn [length skipn app] in Hnone. rewrite Nat.add_succ_r in Hnone.
      apply Hnone. lia.
    + cbn [length] in Hk. now rewrite Nat.add_succ_r in Hk.
Qed.

(** A repetition has no match when the rest of the pattern matches behind
    none of the runs it can take. *)
Lemma rep_none (f : ascii -> bool) (greedy : bool)
    (k : nat -> str -> option smatch) (s : str) (min pos : nat) :
  (forall n, min <= n <= length s -> forallb f (firstn n s) = true ->
             k (pos + n) (skipn n s) = None) ->
  rep f greedy k min pos s = None.
Proof.
  intros H. destruct (rep f greedy k min pos s) as [res|] eqn:E; [|reflexivity].
  apply rep_inv in E. destruct E as [n [Hn [Hf Hk]]].
  rewrite (H n Hn Hf) in Hk. discriminate.
Qed.

(** A search for one character of a class finds the first one. *)
Lemma search_class (f : ascii -> bool) (s : str) (pos : nat) :
  search_from (Cls f) pos s
  = if existsb f s then
      Some [(0, match find f s with Some c => [c] | None => [] end)]
    else None.
Proof.
  revert pos. induction s as [|c t IH]; intros pos; cbn [search_from run existsb find].
  - reflexivity.
  - destruct (f c) eqn:E; cbn [orb].
    + replace (S pos - pos) with 1 by lia. reflexivity.
    + apply IH.
Qed.

(** A pattern that starts with a literal has no match in a text in which
    the first character of the literal does not occur. *)
Lemma search_literal_absent (c : ascii) (p : str) (r : re) (s : str) (pos : nat) :
  forallb (fun d => negb (is_char d c)) s = true ->
  search_from (Seq (Lit (c :: p)) r) pos s = None.
Proof.
  revert pos. induction s as [|d t IH]; intros pos Hs; cbn [search_from run strip_prefix].
  - reflexivity.
  - cbn in Hs. apply andb_prop in Hs. destruct Hs as [Hd Hs].
    apply negb_true_iff in Hd. unfold is_char in Hd.
    rewrite Ascii.eqb_sym, Hd. now apply IH.
Qed.

(** ** [is_space] and the characters that the validations stop *)

Lemma skipn_no_char (c : ascii) (s : str) (n : nat) :
  forallb (fun d => negb (is_char d c)) s = true ->
  forall p, strip_prefix (c :: p) (skipn n s) = None.
Proof.
  intros Hs p. revert n. induction s as [|d t IH]; intros n.
  - now destruct n.
  - cbn in Hs. apply andb_prop in Hs. destruct Hs as [Hd Hs].
    destruct n as [|n]; cbn [skipn strip_prefix].
    + apply negb_true_iff in Hd. unfold is_char in Hd.
      now rewrite Ascii.eqb_sym, Hd.
    + now apply IH.
Qed.

Lemma firstn_forallb_all (f : ascii -> bool) (s : str) (n : nat) :
  forallb f s = false -> forallb f (firstn n s) = true -> n < length s.
Proof.
  intros Hs Hn. destruct (Nat.lt_ge_cases n (length s)) as [H|H]; [exact H|].
  rewrite firstn_all2 in Hn by exact H. congruence.
Qed.

Lemma std_regex_match_star_eol (f : ascii -> bool) (min : nat) (s : str) :
  min <= length s ->
  std_regex_match s (seq [Bol; Rep f min true; Eol]) = forallb f s.
Proof.
  intros Hmin. unfold std_regex_match. cbn [seq fold_right run Nat.eqb].
  destruct (forallb f s) eqn:E.
  - rewrite <- (app_nil_r s) at 1.
    rewrite (rep_greedy_run f _ s [] []); trivial.
  - rewrite rep_none; [reflexivity|].
    intros n Hn Hf. pose proof (firstn_forallb_all f s n E Hf) as Hlt.
    destruct (skipn n s) eqn:Es; [|reflexivity].
    apply (f_equal (@length ascii)) in Es. rewrite length_skipn in Es.
    cbn in Es. lia.
Qed.

Lemma is_space_forallb (s : str) : is_space s = forallb re_space s.
Proof.
  destruct s as [|c t]; [reflexivity|].
  unfold is_space, re_blank, star.
  apply std_regex_match_star_eol. lia.
Qed.

(** X1.  [is_space] holds exactly for the ranges all of whose bytes are
    white space, the empty range among them. *)
Theorem is_space_all_white (s : str) : is_space s = forallb re_space s.
Proof.
  destruct s as [|c t]; [reflexivity|].
  unfold is_space, re_blank, star. cbn [seq fold_right].
  unfold std_regex_match. cbn [run Nat.eqb].
  destruct (forallb re_space (c :: t)) eqn:E.
  - rewrite <- (app_nil_r (c :: t)) at 1.
    rewrite (rep_greedy_run re_space _ (c :: t) [] []); trivial.
    cbn [length]. lia.
  - rewrite rep_none; [reflexivity|].
    intros n Hn Hf.
    pose proof (firstn_forallb_all re_space (c :: t) n E Hf) as Hlt.
    destruct (skipn n (c :: t)) eqn:Es; [|reflexivity].
    apply (f_equal (@length ascii)) in Es. rewrite length_skipn in Es.
    cbn [length] in Es, Hlt. lia.
Qed.

Lemma std_regex_search_class (f : ascii -> bool) (s : str) :
  std_regex_search s (Cls f) = None <-> existsb f s = false.
Proof.
  unfold std_regex_search. rewrite search_class.
  destruct (existsb f s); split; congruence.
Qed.

Lemma std_regex_search_undefined_entity_plain (s : str) :
  forallb (fun c => negb (is_char c "&")) s = true ->
  std_regex_search s re_undefined_entity = None.
Proof.
  intros Hs. unfold std_regex_search, re_undefined_entity.
  cbn [seq fold_right]. now apply search_literal_absent.
Qed.

(** X2.  A text with one of the characters that the policy of the caller
    forbids is not unescaped: the three functions throw the iterator,
    whatever else the text holds. *)
Theorem unescape_forbidden_character (s : str) :
  (existsb (one_of (lit "<")) s = true ->
   unescape_xml_inner_text s = Throw_iterator)
  /\ (existsb (one_of ("<"%char :: apos :: [dquote])) s = true ->
      unescape_xml_attribute_value s = Throw_iterator)
  /\ (existsb (one_of ("<"%char :: [apos])) s = true ->
      unescape_xml_attribute_value_with_apos s = Throw_iterator).
Proof.
  assert (H : forall f, existsb f s = true ->
                        _unescape_xml_entity s (Cls f) = Throw_iterator).
  { intros f Hf. unfold _unescape_xml_entity, std_regex_search.
    rewrite search_class, Hf. reflexivity. }
  split; [|split]; apply H.
Qed.

Lemma unescape_forbidden_character_witness :
  unescape_xml_inner_text (lit "a<b") = Throw_iterator
  /\ unescape_xml_attribute_value (lit "it's") = Throw_iterator
  /\ unescape_xml_attribute_value_with_apos (lit "it's") = Throw_iterator.
Proof.
  split; [|split].
  - apply (proj1 (unescape_forbidden_character (lit "a<b"))). reflexivity.
  - apply (proj1 (proj2 (unescape_forbidden_character (lit "it's")))).
    reflexivity.
  - apply (proj2 (proj2 (unescape_forbidden_character (lit "it's")))).
    reflexivity.
Defined.

Lemma _unescape_xml_entity_plain (s : str) (f : ascii -> bool) :
  forallb (fun c => negb (is_char c "&")) s = true -> existsb f s = false ->
  _unescape_xml_entity s (Cls f) = Return s.
Proof.
  intros Hamp Hf. unfold _unescape_xml_entity.
  rewrite (proj2 (std_regex_search_class f s) Hf).
  rewrite (std_regex_search_undefined_entity_plain s Hamp).
  f_equal. apply (rewrite_entities_plain s Hamp).
Qed.

(** X3.  A text without [&] is unescaped to itself when it has none of the
    forbidden characters of the policy. *)
Theorem unescape_plain_text (s : str) (Hamp : without "&" s = true) :
  (existsb (one_of (lit "<")) s = false ->
   unescape_xml_inner_text s = Return s)
  /\ (existsb (one_of ("<"%char :: apos :: [dquote])) s = false ->
      unescape_xml_attribute_value s = Return s)
  /\ (existsb (one_of ("<"%char :: [apos])) s = false ->
      unescape_xml_attribute_value_with_apos s = Return s).
Proof.
  split; [|split]; apply (_unescape_xml_entity_plain s _ Hamp).
Qed.

Lemma unescape_plain_text_witness :
  unescape_xml_inner_text (lit "it's > 1") = Return (lit "it's > 1").
Proof.
  apply (proj1 (unescape_plain_text (lit "it's > 1") eq_refl)). reflexivity.
Defined.


(** ** The cursor behind a part of the text *)

Lemma cursor_at_rest (pre s : str) : cursor_rest (cursor_at pre s) = s.
Proof. apply skipn_app_length. Qed.

Lemma cursor_at_ok (pre s : str) : cursor_ok (cursor_at pre s).
Proof. unfold cursor_ok, cursor_at. cbn. rewrite length_app. lia. Qed.

Lemma cursor_at_remaining (pre s : str) : remaining (cursor_at pre s) = length s.
Proof. unfold remaining, cursor_at. cbn. rewrite length_app. lia. Qed.

Lemma regex_search_cursor_at (pre a s : str) (e : re) (m : smatch) :
  std_regex_search (a ++ s) e = Some m -> sub_match m 0 = a ->
  regex_search (cursor_at pre (a ++ s)) e = Some (cursor_at (pre ++ a) s, m).
Proof.
  intros E Ha. unfold regex_search. rewrite cursor_at_rest, E, Ha.
  unfold cursor_at. cbn [cursor_text current].
  now rewrite app_assoc, length_app.
Qed.

Lemma regex_search_cursor_at_none (pre s : str) (e : re) :
  std_regex_search s e = None -> regex_search (cursor_at pre s) e = None.
Proof. intros E. unfold regex_search. now rewrite cursor_at_rest, E. Qed.

(** ** The loops without their fuel *)

Lemma tag_loop_S (fuel : nat) (st : parse_state) :
  tag_loop (S fuel) st
  = if current (cursor st) <? length (cursor_text (cursor st)) then
      r <- tag_loop_body st ;;
      match r with
      | None => Return st
      | Some st' => tag_loop fuel st'
      end
    else Return st.
Proof. reflexivity. Qed.

Lemma tag_loop_step (fuel : nat) (st : parse_state) :
  cursor_ok (cursor st) -> remaining (cursor st) <= fuel ->
  tag_loop fuel st
  = if current (cursor st) <? length (cursor_text (cursor st)) then
      r <- tag_loop_body st ;;
      match r with
      | None => Return st
      | Some st' => tag_loop fuel st'
      end
    else Return st.
Proof.
  intros Hok Hrem.
  destruct (current (cursor st) <? length (cursor_text (cursor st))) eqn:E.
  - apply Nat.ltb_lt in E. destruct fuel as [|f].
    { unfold remaining in Hrem. lia. }
    rewrite tag_loop_S.
    replace (current (cursor st) <? length (cursor_text (cursor st))) with true
      by (symmetry; now apply Nat.ltb_lt).
    destruct (tag_loop_body st) as [[st'|]| | | |] eqn:Eb; cbn [bind];
      try reflexivity.
    destruct (tag_loop_body_advances st st' Hok Eb) as [T [C O]].
    assert (Hrem' : remaining (cursor st') <= f).
    { unfold remaining in *. rewrite T. lia. }
    destruct (tag_loop_enough f st' O Hrem') as [_ [M _]].
    symmetry. apply M. lia.
  - destruct fuel; cbn [tag_loop]; now rewrite E.
Qed.

Lemma tag_loop_at (fuel : nat) (st : parse_state) (pre : str) (c : ascii) (s : str) :
  cursor st = cursor_at pre (c :: s) -> length (c :: s) <= fuel ->
  tag_loop fuel st
  = (r <- tag_loop_body st ;;
     match r with
     | None => Return st
     | Some st' => tag_loop fuel st'
     end).
Proof.
  intros Hc Hfuel. rewrite tag_loop_step.
  - rewrite Hc. unfold cursor_at. cbn [cursor_text current].
    rewrite length_app. cbn [length].
    replace (length pre <? length pre + S (length s)) with true; [reflexivity|].
    symmetry. apply Nat.ltb_lt. lia.
  - rewrite Hc. apply cursor_at_ok.
  - rewrite Hc, cursor_at_remaining. exact Hfuel.
Qed.

Lemma tag_loop_at_end (fuel : nat) (st : parse_state) (pre : str) :
  cursor st = cursor_at pre [] -> tag_loop fuel st = Return st.
Proof.
  intros Hc.
  assert (E : (current (cursor st) <? length (cursor_text (cursor st))) = false).
  { rewrite Hc. unfold cursor_at. cbn. rewrite app_nil_r. apply Nat.ltb_irrefl. }
  destruct fuel; cbn [tag_loop]; now rewrite E.
Qed.

Lemma comment_loop_none (fuel : nat) (c : string_cursor) :
  regex_search c re_comment_head = None -> comment_loop fuel c = Return c.
Proof. intros E. destruct fuel; cbn [comment_loop]; now rewrite E. Qed.

(** ** The declaration *)

Lemma parse_declaration_xml_decl (body : str) :
  parse_declaration (make_string_cursor (xml_decl ++ body))
  = Return (cursor_at xml_decl body, lit "1.0", []).
Proof. vm_compute. reflexivity. Qed.

(** [parse_xml] behind the declaration [xml_decl]. *)
Lemma parse_xml_body (body : str) :
  parse_xml (xml_decl ++ body)
  = (st <- tag_loop (length (xml_decl ++ body))
             {| cursor := cursor_at xml_decl body; current_node := new_node;
                parents := []; inner_text_before_tag := [] |} ;;
     cursor2 <- comment_loop (length (xml_decl ++ body)) (cursor st) ;;
     if negb (is_space (cursor_rest cursor2)) then Throw Illegal_format
     else Return {| version := lit "1.0"; doc_attributes := [];
                    root_node := hd_error (nodes (top_node st)) |}).
Proof.
  unfold parse_xml, parse_xml_fuel, parse_top.
  rewrite parse_declaration_xml_decl. cbn [bind].
  destruct (tag_loop _ _) as [st| | | |]; cbn [bind]; try reflexivity.
  destruct (comment_loop _ _) as [c2| | | |]; cbn [bind]; try reflexivity.
  destruct (negb (is_space (cursor_rest c2))); reflexivity.
Qed.

(** ** Texts without a tag *)

Lemma re_tag_head_without_lt (s : str) :
  without "<" s = true -> std_regex_search s re_tag_head = None.
Proof.
  intros Hs. unfold std_regex_search.
  change re_tag_head
    with (Seq Bol (seq [Grp 1 (lazy_star (none_of (lit "<"))); Lit (lit "<");
                        Grp 2 (Grp 3 (Alt (Lit (lit "!--"))
                                 (Alt (Lit (lit "![CDATA["))
                                    (star (fun c => none_of (lit ">") c
                                                    && negb (re_space c))))))])).
  rewrite search_from_anchored. unfold lazy_star.
  cbn [seq fold_right run Nat.eqb]. apply rep_none. intros n _ _.
  change (lit "<") with ["<"%char]. now rewrite (skipn_no_char "<" s n Hs).
Qed.

Lemma re_comment_head_without_lt (s : str) :
  without "<" s = true -> std_regex_search s re_comment_head = None.
Proof.
  intros Hs. unfold std_regex_search.
  change re_comment_head
    with (Seq Bol (seq [Grp 1 (lazy_star (none_of (lit "<")));
                        Grp 2 (Lit (lit "<!--"))])).
  rewrite search_from_anchored. unfold lazy_star.
  cbn [seq fold_right run Nat.eqb]. apply rep_none. intros n _ _.
  change (lit "<!--") with ("<"%char :: lit "!--").
  now rewrite (skipn_no_char "<" s n Hs).
Qed.

(** X5.  Behind the declaration a text without [<] makes a document
    without a root when it is blank, and is an illegal format otherwise. *)
Theorem declaration_then_text (t : str) (Ht : without "<" t = true) :
  parse_xml (xml_decl ++ t)
  = if forallb re_space t then Return (document_of None)
    else Throw Illegal_format.
Proof.
  rewrite parse_xml_body.
  set (st0 := {| cursor := cursor_at xml_decl t; current_node := new_node;
                 parents := []; inner_text_before_tag := [] |}).
  assert (E : tag_loop (length (xml_decl ++ t)) st0 = Return st0).
  { destruct t as [|c t'].
    - now apply (tag_loop_at_end _ st0 xml_decl).
    - rewrite (tag_loop_at _ st0 xml_decl c t' eq_refl)
        by (rewrite length_app; lia).
      unfold tag_loop_body. cbn [st0 cursor].
      rewrite regex_search_cursor_at_none; [reflexivity|].
      now apply re_tag_head_without_lt. }
  rewrite E. cbn [bind st0 cursor].
  rewrite comment_loop_none
    by (apply regex_search_cursor_at_none; now apply re_comment_head_without_lt).
  cbn [bind]. rewrite cursor_at_rest, is_space_forallb.
  destruct (forallb re_space t); reflexivity.
Qed.

Lemma declaration_then_text_witness :
  parse_xml (xml_decl ++ lit "  ") = Return (document_of None)
  /\ parse_xml (xml_decl ++ lit " x") = Throw Illegal_format.
Proof.
  split.
  - apply (declaration_then_text (lit "  ") eq_refl).
  - apply (declaration_then_text (lit " x") eq_refl).
Defined.

(** ** Texts without a declaration *)

(** X6.  A text that does not start with [<?xml] and a white space behind
    it has no declaration, whatever else it holds. *)
Theorem parse_xml_without_declaration (text : str)
    (H : forall c r, strip_prefix (lit "<?xml") text = Some (c :: r) ->
                     re_space c = false) :
  parse_xml text = Throw No_XML_declaration.
Proof.
  unfold parse_xml, parse_xml_fuel, parse_top, parse_declaration, regex_search.
  change (cursor_rest (make_string_cursor text)) with text.
  assert (E : std_regex_search text re_xml_declaration = None).
  { unfold std_regex_search.
    change re_xml_declaration
      with (Seq Bol (seq [Lit (lit "<?xml"); plus re_space;
                          Lit (lit "version=" ++ [dquote]);
                          Grp 1 (lazy_plus re_dot); Lit [dquote];
                          Grp 2 (lazy_star re_any); Lit (lit "?>")])).
    rewrite search_from_anchored. unfold plus.
    cbn [seq fold_right run Nat.eqb].
    destruct (strip_prefix (lit "<?xml") text) as [[|c r]|] eqn:E;
      [reflexivity| |reflexivity].
    cbn [rep]. now rewrite (H c r eq_refl). }
  rewrite E. reflexivity.
Qed.

Lemma parse_xml_without_declaration_witness :
  parse_xml (lit " " ++ xml_decl) = Throw No_XML_declaration
  /\ parse_xml (lit "<?xml?>") = Throw No_XML_declaration.
Proof.
  split.
  - apply (parse_xml_without_declaration (lit " " ++ xml_decl)).
    intros c r E. vm_compute in E. discriminate E.
  - apply (parse_xml_without_declaration (lit "<?xml?>")).
    intros c r E. vm_compute in E. injection E as <- _. reflexivity.
Defined.

(** X7.  The document that [parse_xml] returns has the version [1.0]. *)
Theorem parse_xml_version (text : str) (doc : xml_document)
    (H : parse_xml text = Return doc) :
  version doc = lit "1.0".
Proof.
  unfold parse_xml, parse_xml_fuel in H.
  apply bind_Return in H. destruct H as [[[v a] top] [H Hdoc]].
  injection Hdoc as <-. cbn [make_document version].
  unfold parse_top in H. apply bind_Return in H.
  destruct H as [[[c1 v1] a1] [Hd H]]. cbv beta iota zeta in H.
  apply bind_Return in H. destruct H as [st [_ H]].
  apply bind_Return in H. destruct H as [c2 [_ H]].
  destruct (negb (is_space (cursor_rest c2))); [discriminate H|].
  injection H as -> _ _.
  unfold parse_declaration in Hd.
  destruct (regex_search _ re_xml_declaration) as [[c m]|]; [|discriminate Hd].
  destruct (str_eqb (sub_match m 1) (lit "1.0")) eqn:E; [|discriminate Hd].
  cbn [negb] in Hd. apply bind_Return in Hd. destruct Hd as [attrs [_ Hd]].
  injection Hd as _ <- _. now apply str_eqb_eq.
Qed.

Lemma parse_xml_version_witness :
  version (document_of (Some (element (lit "a") [] []))) = lit "1.0".
Proof.
  apply (parse_xml_version (xml_decl ++ lit "<a />")).
  vm_compute. reflexivity.
Defined.

(** ** The declaration with any version *)

Lemma strip_prefix_inside (c : ascii) (p v b : str) (j : nat) :
  without c v = true -> j < length v ->
  strip_prefix (c :: p) (skipn j (v ++ b)) = None.
Proof.
  revert j. induction v as [|d v IH]; intros j Hv Hj; [cbn in Hj; lia|].
  cbn in Hv. apply andb_prop in Hv. destruct Hv as [Hd Hv].
  destruct j as [|j]; cbn [app skipn strip_prefix].
  - apply negb_true_iff in Hd. unfold is_char in Hd.
    now rewrite Ascii.eqb_sym, Hd.
  - apply IH; [exact Hv|cbn in Hj; lia].
Qed.

Lemma occurs_first (p s : str) :
  occurs p s = true ->
  exists a b, s = a ++ p ++ b
              /\ forall j, j < length a ->
                           strip_prefix p (skipn j (a ++ p ++ b)) = None.
Proof.
  induction s as [|c t IH]; intros H.
  - cbn [occurs] in H. rewrite orb_false_r in H.
    apply starts_with_app in H. destruct H as [r H].
    exists [], r. split; [exact H|]. intros j Hj. cbn in Hj. lia.
  - cbn [occurs] in H. destruct (starts_with p (c :: t)) eqn:E.
    + apply starts_with_app in E. destruct E as [r E].
      exists [], r. split; [exact E|]. intros j Hj. cbn in Hj. lia.
    + cbn [orb] in H. destruct (IH H) as [a [b [Ht Hfirst]]].
      exists (c :: a), b. split; [cbn; now rewrite Ht|].
      intros [|j] Hj.
      * cbn [skipn app]. rewrite <- Ht. unfold starts_with in E.
        now destruct (strip_prefix p (c :: t)).
      * cbn [skipn app]. apply Hfirst. cbn in Hj. lia.
Qed.

Lemma firstn_sub (p : nat) (a b : str) : firstn (p + length a - p) (a ++ b) = a.
Proof.
  replace (p + length a - p) with (length a + 0) by lia.
  rewrite firstn_app_2. cbn. apply app_nil_r.
Qed.

Lemma firstn_exact (n : nat) (whole pre rest : str) :
  whole = pre ++ rest -> n = length pre -> firstn n whole = pre.
Proof.
  intros -> ->. rewrite <- (Nat.add_0_r (length pre)), firstn_app_2.
  cbn. apply app_nil_r.
Qed.

Ltac firstn_exact rest :=
  apply (fun n whole pre => firstn_exact n whole pre rest);
  [ cbn [app lit list_ascii_of_string];
    repeat first [rewrite <- app_assoc | rewrite <- app_comm_cons];
    cbn [app]; reflexivity
  | repeat rewrite length_app; cbn [length lit list_ascii_of_string app]; lia ].

Lemma re_xml_declaration_match (ws v g rest : str) :
  ws <> [] -> forallb re_space ws = true ->
  v <> [] -> forallb re_dot v = true -> without dquote v = true ->
  (forall j, j < length g ->
             strip_prefix (lit "?>") (skipn j (g ++ lit "?>" ++ rest)) = None) ->
  exists m,
    std_regex_search
      (lit "<?xml" ++ ws ++ lit "version=" ++ [dquote] ++ v ++ [dquote] ++ g
         ++ lit "?>" ++ rest) re_xml_declaration = Some m
    /\ sub_match m 0
       = lit "<?xml" ++ ws ++ lit "version=" ++ [dquote] ++ v ++ [dquote] ++ g
           ++ lit "?>"
    /\ sub_match m 1 = v /\ sub_match m 2 = g.
Proof.
  intros Hws0 Hws Hv0 Hv Hq Hg. eexists. split.
  - unfold std_regex_search.
    change re_xml_declaration
      with (Seq Bol (seq [Lit (lit "<?xml"); plus re_space;
                          Lit (lit "version=" ++ [dquote]);
                          Grp 1 (lazy_plus re_dot); Lit [dquote];
                          Grp 2 (lazy_star re_any); Lit (lit "?>")])).
    rewrite search_from_anchored. unfold plus, lazy_plus, lazy_star.
    cbn [seq fold_right run Nat.eqb]. rewrite strip_prefix_same.
    apply rep_greedy_run; [exact Hws|reflexivity|
                           destruct ws; [contradiction|cbn; lia]|].
    change (lit "version=" ++ [dquote] ++ v ++ [dquote] ++ g ++ lit "?>" ++ rest)
      with ((lit "version=" ++ [dquote]) ++ v ++ [dquote] ++ g ++ lit "?>" ++ rest).
    rewrite strip_prefix_same.
    apply rep_lazy_first; [exact Hv|destruct v; [contradiction|cbn; lia]| |].
    + intros j Hj. rewrite (strip_prefix_inside dquote [] v _ j Hq); [reflexivity|lia].
    + cbn [app strip_prefix]. rewrite Ascii.eqb_refl.
      apply rep_lazy_first; [|lia| |].
      * clear. induction g as [|c g IH]; [reflexivity|]. cbn [forallb].
        rewrite IH. unfold re_any. now destruct (re_space c).
      * intros j Hj. now rewrite Hg by lia.
      * rewrite strip_prefix_same. reflexivity.
  - cbn [sub_match Nat.eqb]. rewrite !firstn_sub.
    split; [|split; reflexivity]. firstn_exact rest.
Qed.

(** X8.  A declaration with another version than [1.0] is refused for its
    version, whatever stands behind the declaration. *)
Theorem unsupported_version (ws v rest : str)
    (Hws0 : ws <> []) (Hws : forallb re_space ws = true)
    (Hv0 : v <> []) (Hv : forallb re_dot v = true)
    (Hq : without dquote v = true)
    (Hend : occurs (lit "?>") rest = true)
    (Hversion : v <> lit "1.0") :
  parse_xml (lit "<?xml" ++ ws ++ lit "version=" ++ [dquote] ++ v ++ [dquote]
               ++ rest)
  = Throw Unsupported_XML_version.
Proof.
  apply occurs_first in Hend. destruct Hend as [g [rest' [-> Hg]]].
  destruct (re_xml_declaration_match ws v g rest' Hws0 Hws Hv0 Hv Hq Hg)
    as [m [E [_ [E1 _]]]].
  unfold parse_xml, parse_xml_fuel, parse_top, parse_declaration, regex_search.
  change (cursor_rest (make_string_cursor ?t)) with t.
  rewrite E, E1.
  destruct (str_eqb v (lit "1.0")) eqn:Ev; [|reflexivity].
  apply str_eqb_eq in Ev. contradiction.
Qed.

Lemma unsupported_version_witness :
  parse_xml (lit "<?xml version=" ++ [dquote] ++ lit "1.1" ++ [dquote]
               ++ lit " standalone='yes'?><a />")
  = Throw Unsupported_XML_version.
Proof.
  apply (unsupported_version (lit " ") (lit "1.1")
           (lit " standalone='yes'?><a />"));
    try discriminate; reflexivity.
Defined.

(** ** Attributes *)

Lemma without_skipn (c : ascii) (s : str) (n : nat) :
  without c s = true -> without c (skipn n s) = true.
Proof.
  revert n. induction s as [|d t IH]; intros [|n] H; try exact H.
  cbn [skipn]. apply IH. cbn in H. now apply andb_prop in H.
Qed.

Lemma re_attribute_without_equals (s : str) :
  without "=" s = true -> std_regex_search s re_attribute = None.
Proof.
  intros Hs. unfold std_regex_search. generalize 0.
  induction s as [|c t IH]; intros pos.
  - reflexivity.
  - assert (Ht : without "=" t = true).
    { cbn in Hs. now apply andb_prop in Hs. }
    cbn [search_from]. rewrite (IH Ht).
    replace (run (Grp 0 re_attribute) (fun _ _ m => Some m) pos (c :: t) [])
      with (@None smatch); [reflexivity|].
    symmetry. unfold re_attribute, plus.
    cbn [seq fold_right run]. apply rep_none. intros n _ _.
    apply rep_none. intros n' _ _. change (lit "=") with ["="%char].
    rewrite (skipn_no_char "=" _ n'); [reflexivity|].
    now apply without_skipn.
Qed.

Lemma parse_xml_attributes_without_equals_loop
    (s : str) (Hs : without "=" s = true) (fuel : nat) (attrs : attribute_map) :
  parse_xml_attributes_loop fuel s attrs
  = if forallb re_space s then Return attrs else Throw_iterator.
Proof.
  destruct fuel; cbn [parse_xml_attributes_loop];
    rewrite (re_attribute_without_equals s Hs);
    (destruct s as [|c t]; [reflexivity|]);
    unfold re_spaces, plus;
    rewrite std_regex_match_star_eol by (cbn; lia);
    destruct (forallb re_space (c :: t)); reflexivity.
Qed.

(** X9.  An attribute text without [=] makes no attribute: it is accepted
    when it is blank and the iterator is thrown otherwise. *)
Theorem parse_xml_attributes_without_equals (s : str)
    (Hs : without "=" s = true) :
  parse_xml_attributes s
  = if forallb re_space s then Return [] else Throw_iterator.
Proof.
  unfold parse_xml_attributes.
  destruct (length s); cbn [parse_xml_attributes_loop];
    rewrite (re_attribute_without_equals s Hs);
    (destruct s as [|c t]; [reflexivity|]);
    unfold re_spaces, plus;
    rewrite std_regex_match_star_eol by (cbn; lia);
    destruct (forallb re_space (c :: t)); reflexivity.
Qed.

Lemma parse_xml_attributes_without_equals_witness :
  parse_xml_attributes (lit "  ") = Return []
  /\ parse_xml_attributes (lit " checked") = Throw_iterator.
Proof.
  split.
  - apply (parse_xml_attributes_without_equals (lit "  ") eq_refl).
  - apply (parse_xml_attributes_without_equals (lit " checked") eq_refl).
Defined.

Lemma re_any_all (s : str) : forallb re_any s = true.
Proof.
  induction s as [|c s IH]; [reflexivity|]. cbn [forallb]. rewrite IH.
  unfold re_any. now destruct (re_space c).
Qed.

Lemma search_from_here (e : re) (pos : nat) (s : str) (m : smatch) :
  run (Grp 0 e) (fun _ _ m => Some m) pos s [] = Some m ->
  search_from e pos s = Some m.
Proof. intros H. destruct s; cbn [search_from]; now rewrite H. Qed.

(** One attribute at the start of the range. *)
Lemma re_attribute_match (ws k v rest : str) (q : ascii) :
  ws <> [] -> forallb re_space ws = true ->
  k <> [] -> forallb (none_of (lit "=")) k = true ->
  re_space (hd " "%char k) = false ->
  one_of [dquote; apos] q = true -> without q v = true ->
  exists m,
    std_regex_search (ws ++ k ++ lit "=" ++ [q] ++ v ++ [q] ++ rest) re_attribute
    = Some m
    /\ sub_match m 0 = ws ++ k ++ lit "=" ++ [q] ++ v ++ [q]
    /\ sub_match m 1 = k /\ sub_match m 2 = [q] /\ sub_match m 3 = v.
Proof.
  intros Hws0 Hws Hk0 Hk Hhd Hq Hv. eexists. split.
  - unfold std_regex_search.
    apply search_from_here.
    unfold re_attribute, plus, lazy_star. cbn [seq fold_right run].
    apply rep_greedy_run; [exact Hws| |destruct ws; [contradiction|cbn; lia]|].
    { destruct k as [|c k']; [contradiction|]. cbn in Hhd |- *.
      now rewrite Hhd. }
    apply rep_greedy_run; [exact Hk|reflexivity|
                           destruct k; [contradiction|cbn; lia]|].
    cbn [lit list_ascii_of_string app strip_prefix]. rewrite Ascii.eqb_refl.
    rewrite Hq.
    apply rep_lazy_first; [apply re_any_all|lia| |].
    + intros j Hj. cbn [sub_match Nat.eqb].
      replace (S _ - _) with 1 by lia. cbn [firstn].
      rewrite (strip_prefix_inside q [] v _ j Hv); [reflexivity|lia].
    + cbn [sub_match Nat.eqb].
      replace (S _ - _) with 1 by lia. cbn [firstn strip_prefix].
      rewrite Ascii.eqb_refl. reflexivity.
  - cbn [sub_match Nat.eqb]. rewrite !firstn_sub.
    split; [firstn_exact rest|repeat split; reflexivity].
Qed.

(** One pass through the loop of [parse_xml_attributes]. *)
Lemma parse_xml_attributes_loop_step
    (fuel : nat) (ws k v rest : str) (q : ascii) (attrs : attribute_map) :
  ws <> [] -> forallb re_space ws = true ->
  k <> [] -> forallb (none_of (lit "=")) k = true ->
  re_space (hd " "%char k) = false ->
  one_of [dquote; apos] q = true -> without q v = true ->
  parse_xml_attributes_loop (S fuel)
    (ws ++ k ++ lit "=" ++ [q] ++ v ++ [q] ++ rest) attrs
  = (value <- (if is_char q dquote then unescape_xml_attribute_value v
               else unescape_xml_attribute_value_with_apos v) ;;
     parse_xml_attributes_loop fuel rest (map_assign k value attrs)).
Proof.
  intros Hws0 Hws Hk0 Hk Hhd Hq Hv.
  destruct (re_attribute_match ws k v rest q Hws0 Hws Hk0 Hk Hhd Hq Hv)
    as [m [E [E0 [E1 [E2 E3]]]]].
  cbn [parse_xml_attributes_loop]. rewrite E, E0, E1, E2, E3.
  replace (skipn _ _) with rest.
  2:{ symmetry.
      replace (ws ++ k ++ lit "=" ++ [q] ++ v ++ [q] ++ rest)
        with ((ws ++ k ++ lit "=" ++ [q] ++ v ++ [q]) ++ rest).
      - apply skipn_app_length.
      - repeat rewrite <- app_assoc. reflexivity. }
  replace (str_eqb [q] [dquote]) with (is_char q dquote); [reflexivity|].
  unfold is_char, str_eqb.
  destruct (list_eq_dec ascii_dec [q] [dquote]) as [e|n].
  - injection e as ->. apply Ascii.eqb_refl.
  - destruct (Ascii.eqb q dquote) eqn:Eq; [|reflexivity].
    apply Ascii.eqb_eq in Eq. subst q. contradiction.
Qed.

Lemma existsb_false_impl (f g : ascii -> bool) (s : str) :
  (forall c, g c = true -> f c = true) ->
  existsb f s = false -> existsb g s = false.
Proof.
  intros Hfg. induction s as [|c s IH]; [reflexivity|]. cbn [existsb].
  intros H. apply orb_false_elim in H. destruct H as [Hc Hs].
  rewrite (IH Hs), orb_false_r.
  destruct (g c) eqn:E; [|reflexivity]. apply Hfg in E. congruence.
Qed.

Lemma without_of_existsb (f : ascii -> bool) (c : ascii) (s : str) :
  f c = true -> existsb f s = false -> without c s = true.
Proof.
  intros Hc. induction s as [|d s IH]; [reflexivity|]. cbn [existsb].
  intros H. apply orb_false_elim in H. destruct H as [Hd Hs].
  unfold without in *. cbn [forallb]. rewrite (IH Hs), andb_true_r.
  unfold is_char. destruct (Ascii.eqb d c) eqn:E; [|reflexivity].
  apply Ascii.eqb_eq in E. congruence.
Qed.

Lemma re_space_not_equals (ws : str) :
  forallb re_space ws = true -> without "=" ws = true.
Proof.
  unfold without. induction ws as [|c ws IH]; [reflexivity|].
  cbn [forallb]. intros H. apply andb_prop in H. destruct H as [Hc Hws].
  rewrite (IH Hws), andb_true_r. unfold is_char.
  destruct (Ascii.eqb c "=") eqn:E; [|reflexivity].
  apply Ascii.eqb_eq in E. subst c. discriminate Hc.
Qed.

Lemma parse_xml_attributes_loop_rendered (l : list (str * str)) (ws : str) :
  forallb attribute_ok l = true -> forallb re_space ws = true ->
  forall (fuel : nat) (attrs : attribute_map),
    length l <= fuel ->
    parse_xml_attributes_loop fuel (flat_map render_attribute l ++ ws) attrs
    = Return (fold_left (fun m a => map_assign (fst a) (snd a) m) l attrs).
Proof.
  intros Hl Hws. induction l as [|[k v] l IH]; intros fuel attrs Hfuel.
  - cbn [flat_map app fold_left].
    pose proof (parse_xml_attributes_without_equals_loop ws
                  (re_space_not_equals ws Hws) fuel attrs) as E.
    now rewrite Hws in E.
  - cbn [forallb] in Hl. apply andb_prop in Hl. destruct Hl as [Ha Hl].
    unfold attribute_ok in Ha. cbn [fst snd] in Ha.
    apply andb_prop in Ha. destruct Ha as [Ha Hv].
    apply andb_prop in Ha. destruct Ha as [Ha Hhd].
    apply andb_prop in Ha. destruct Ha as [Hk0 Hk].
    apply negb_true_iff in Hv, Hhd, Hk0.
    destruct fuel as [|fuel]; [cbn in Hfuel; lia|].
    cbn [flat_map]. unfold render_attribute at 1. cbn [fst snd].
    repeat rewrite <- app_assoc.
    rewrite parse_xml_attributes_loop_step;
      [|discriminate|reflexivity| |exact Hk|exact Hhd|reflexivity|].
    + change (is_char dquote dquote) with true. cbv iota.
      unfold unescape_xml_attribute_value, re_illegal_in_attribute_value.
      rewrite _unescape_xml_entity_plain.
      * cbn [bind fold_left fst snd]. apply (IH Hl); cbn in Hfuel; lia.
      * apply (without_of_existsb _ "&" v eq_refl Hv).
      * revert Hv. apply existsb_false_impl. intros c. unfold one_of.
        cbn [existsb]. intros H.
        repeat match goal with
               | |- context [Ascii.eqb ?a ?b] => destruct (Ascii.eqb a b)
               end; try reflexivity; discriminate H.
    + intros ->. discriminate Hk0.
    + apply (without_of_existsb _ dquote v eq_refl Hv).
Qed.

Lemma length_flat_map_render_attribute (l : list (str * str)) :
  length l <= length (flat_map render_attribute l).
Proof.
  induction l as [|a l IH]; [cbn; lia|].
  cbn [flat_map length]. rewrite length_app. unfold render_attribute at 1.
  cbn [app length lit list_ascii_of_string]. lia.
Qed.

(** The attributes of a tag, written one after the other with white
    space behind them. *)
Lemma parse_xml_attributes_of_rendered (l : list (str * str)) (ws : str) :
  forallb attribute_ok l = true -> forallb re_space ws = true ->
  parse_xml_attributes (flat_map render_attribute l ++ ws)
  = Return (fold_left (fun m a => map_assign (fst a) (snd a) m) l []).
Proof.
  intros Hl Hws. unfold parse_xml_attributes.
  apply parse_xml_attributes_loop_rendered; [exact Hl|exact Hws|].
  rewrite length_app. pose proof (length_flat_map_render_attribute l). lia.
Qed.

(** X10.  A list of attributes written one after the other is read as the
    map that has each key with the value written last for it. *)
Theorem parse_xml_attributes_rendered (l : list (str * str))
    (Hl : forallb attribute_ok l = true) :
  parse_xml_attributes (flat_map render_attribute l)
  = Return (fold_left (fun m a => map_assign (fst a) (snd a) m) l []).
Proof.
  rewrite <- (app_nil_r (flat_map render_attribute l)).
  now apply parse_xml_attributes_of_rendered.
Qed.

Lemma parse_xml_attributes_rendered_witness :
  parse_xml_attributes (lit " b=" ++ [dquote] ++ lit "1" ++ [dquote]
                          ++ lit " a=" ++ [dquote] ++ lit "2" ++ [dquote]
                          ++ lit " b=" ++ [dquote] ++ lit "3" ++ [dquote])
  = Return [(lit "a", lit "2"); (lit "b", lit "3")].
Proof.
  apply (parse_xml_attributes_rendered
           [(lit "b", lit "1"); (lit "a", lit "2"); (lit "b", lit "3")]).
  reflexivity.
Defined.

(** ** What the tree is made of *)

Lemma re_tag_head_name (s : str) (m : smatch) :
  std_regex_search s re_tag_head = Some m ->
  forallb re_name_char (sub_match m 2) = true.
Proof.
  unfold std_regex_search.
  change re_tag_head
    with (Seq Bol (seq [Grp 1 (lazy_star (none_of (lit "<"))); Lit (lit "<");
                        Grp 2 (Grp 3 (Alt (Lit (lit "!--"))
                                 (Alt (Lit (lit "![CDATA["))
                                    (star (fun c => none_of (lit ">") c
                                                    && negb (re_space c))))))])).
  rewrite search_from_anchored. unfold lazy_star, star.
  cbn [seq fold_right run Nat.eqb]. intros H.
  apply rep_inv in H. destruct H as [n1 [_ [_ H]]].
  destruct (strip_prefix (lit "<") (skipn n1 s)) as [t|]; [|discriminate H].
  destruct (strip_prefix (lit "!--") t) as [r|] eqn:E1.
  { injection H as <-. apply strip_prefix_app in E1. subst t.
    cbn [sub_match Nat.eqb]. replace (_ - _) with 3 by (cbn; lia).
    reflexivity. }
  destruct (strip_prefix (lit "![CDATA[") t) as [r|] eqn:E2.
  { injection H as <-. apply strip_prefix_app in E2. subst t.
    cbn [sub_match Nat.eqb]. replace (_ - _) with 8 by (cbn; lia).
    reflexivity. }
  apply rep_inv in H. destruct H as [n3 [_ [Hf H]]].
  injection H as <-. cbn [sub_match Nat.eqb].
  replace (_ + n3 - _) with n3 by lia. exact Hf.
Qed.

Lemma all_nodes_eq (P : xml_node -> bool) (n : xml_node) :
  all_nodes P n = P n && forallb (all_nodes P) (nodes n).
Proof. destruct n; reflexivity. Qed.

Lemma open_ok_push_back (p n : xml_node) :
  open_ok p = true -> all_nodes node_ok n = true ->
  open_ok (push_back p n) = true.
Proof.
  unfold open_ok, push_back, set_nodes. cbn [value nodes].
  intros Hp Hn. apply andb_prop in Hp. destruct Hp as [Hv Hc].
  rewrite Hv, forallb_app, Hc. cbn [forallb andb]. now rewrite Hn.
Qed.

Lemma open_node_closed (n : xml_node) :
  open_ok n = true -> name_ok (name n) = true -> all_nodes node_ok n = true.
Proof.
  unfold open_ok. intros Hn Hname. apply andb_prop in Hn.
  destruct Hn as [Hv Hc]. rewrite all_nodes_eq, Hc. unfold node_ok.
  now rewrite Hname, Hv.
Qed.

Lemma flush_text_ok (n : xml_node) (text : str) :
  open_ok n = true ->
  open_ok (flush_text n text) = true /\ name (flush_text n text) = name n.
Proof.
  intros Hn. unfold flush_text. destruct (negb (is_space text)).
  - split; [|reflexivity]. apply open_ok_push_back; [exact Hn|].
    rewrite all_nodes_eq. unfold node_ok.
    cbn [name value nodes forallb length Nat.eqb]. now rewrite orb_true_r.
  - now split.
Qed.

Lemma chain_ok_eq (n : xml_node) (ps : list xml_node) :
  chain_ok n ps
  = open_ok n
    && match ps with
       | [] => true
       | p :: ps' => name_ok (name n) && chain_ok p ps'
       end.
Proof. destruct ps; reflexivity. Qed.

Lemma chain_ok_flush_text (n : xml_node) (ps : list xml_node) (text : str) :
  chain_ok n ps = true -> chain_ok (flush_text n text) ps = true.
Proof.
  rewrite !chain_ok_eq. intros H. apply andb_prop in H. destruct H as [Hn Hps].
  destruct (flush_text_ok n text Hn) as [Ho Hname].
  now rewrite Ho, Hname.
Qed.

(** The chain, closed from [current_node] upwards, is a [top_node] whose
    children are in order. *)
Lemma chain_ok_top_node (ps : list xml_node) :
  forall n, chain_ok n ps = true ->
            forallb (all_nodes node_ok) (nodes (top_node_of n ps)) = true.
Proof.
  induction ps as [|p ps IH]; intros n H.
  - cbn [top_node_of]. cbn [chain_ok] in H. rewrite andb_true_r in H.
    unfold open_ok in H. now apply andb_prop in H.
  - cbn [top_node_of]. apply IH. cbn [chain_ok] in H.
    apply andb_prop in H. destruct H as [Hn H].
    apply andb_prop in H. destruct H as [Hname Hp].
    rewrite chain_ok_eq in Hp |- *.
    apply andb_prop in Hp. destruct Hp as [Hp Hps].
    rewrite (open_ok_push_back p n Hp (open_node_closed n Hn Hname)).
    exact Hps.
Qed.

Lemma closing_tag_chain_ok
    (st st' : parse_state) (c : string_cursor) (current : xml_node)
    (tag_name mark : str) (attrs : attribute_map) :
  closing_tag st c current tag_name mark attrs = Return st' ->
  chain_ok current (parents st) = true ->
  chain_ok (current_node st') (parents st') = true.
Proof.
  unfold closing_tag.
  destruct (negb (length mark =? 0)); [discriminate|].
  destruct (negb (str_eqb tag_name (lit "/" ++ name current))); [discriminate|].
  destruct (negb (map_empty attrs)); [discriminate|].
  destruct (parents st) as [|p ps]; [discriminate|].
  intros [= <-] H. cbn [current_node parents].
  cbn [chain_ok] in H. apply andb_prop in H. destruct H as [Hn H].
  apply andb_prop in H. destruct H as [Hname Hp].
  rewrite chain_ok_eq in Hp |- *.
  apply andb_prop in Hp. destruct Hp as [Hp Hps].
  rewrite open_ok_push_back; [exact Hps|exact Hp|].
  destruct (nodes current) as [|child [|child2 others]] eqn:En;
    try (now apply open_node_closed).
  match goal with
  | |- context [if ?b then _ else _] => destruct b
  end; [|now apply open_node_closed].
  rewrite all_nodes_eq. unfold node_ok, set_nodes, set_value.
  cbn [name value nodes forallb length Nat.eqb].
  now rewrite Hname, orb_true_r.
Qed.

Lemma validate_tag_name_Return (s : str) :
  validate_tag_name s = Return tt ->
  existsb (one_of ("<"%char :: ">"%char :: apos :: dquote :: ["&"%char])) s
  = false.
Proof.
  unfold validate_tag_name, re_illegal_in_tag_name.
  destruct (std_regex_search s _) eqn:E; [discriminate|].
  intros _. now apply std_regex_search_class.
Qed.

Lemma ordinary_tag_chain_ok
    (st st' : parse_state) (c : string_cursor) (text tag_name : str) :
  ordinary_tag st c text tag_name = Return st' ->
  forallb re_name_char tag_name = true ->
  chain_ok (current_node st) (parents st) = true ->
  chain_ok (current_node st') (parents st') = true.
Proof.
  unfold ordinary_tag. intros H Hcls Hst.
  destruct (length tag_name =? 0) eqn:El; [discriminate H|].
  apply bind_Return in H. destruct H as [[] [Hv H]].
  apply validate_tag_name_Return in Hv.
  destruct (regex_search c re_tag_end) as [[c2 m]|]; [|discriminate H].
  apply bind_Return in H. destruct H as [attrs [_ H]].
  cbv beta zeta in H.
  pose proof (chain_ok_flush_text _ _ text Hst) as Hf.
  destruct (is_char (hd " "%char tag_name) "/") eqn:Eslash.
  { now apply (closing_tag_chain_ok _ _ _ _ _ _ _ H). }
  assert (Hname : name_ok tag_name = true).
  { unfold name_ok. now rewrite El, Hv, Hcls, Eslash. }
  rewrite chain_ok_eq in Hf. apply andb_prop in Hf. destruct Hf as [Ho Hps].
  destruct (negb (length (sub_match m 2) =? 0)); injection H as <-;
    cbn [current_node parents].
  - rewrite chain_ok_eq.
    replace (name (push_back (flush_text (current_node st) text) _))
      with (name (flush_text (current_node st) text)) by reflexivity.
    rewrite Hps, andb_true_r. apply open_ok_push_back; [exact Ho|].
    rewrite all_nodes_eq. unfold node_ok. cbn [name value nodes forallb].
    now rewrite Hname.
  - cbn [chain_ok]. cbn [name]. rewrite Hname.
    rewrite chain_ok_eq, Ho, Hps. reflexivity.
Qed.

Lemma regex_search_std (c c' : string_cursor) (e : re) (m : smatch) :
  regex_search c e = Some (c', m) -> std_regex_search (cursor_rest c) e = Some m.
Proof.
  unfold regex_search. destruct (std_regex_search (cursor_rest c) e);
    [|discriminate]. now intros [= _ <-].
Qed.

Lemma tag_loop_body_chain_ok (st st' : parse_state) :
  tag_loop_body st = Return (Some st') ->
  chain_ok (current_node st) (parents st) = true ->
  chain_ok (current_node st') (parents st') = true.
Proof.
  unfold tag_loop_body. intros H Hst.
  destruct (regex_search (cursor st) re_tag_head) as [[c1 m]|] eqn:E1;
    [|discriminate H].
  apply regex_search_std, re_tag_head_name in E1.
  apply bind_Return in H. destruct H as [u [_ H]]. cbv beta zeta in H.
  destruct (str_eqb (sub_match m 2) (lit "!--")).
  { destruct (regex_search c1 re_comment_end) as [[c2 m2]|]; [|discriminate H].
    destruct (negb (str_eqb (sub_match m2 1) (lit "-->"))); [discriminate H|].
    injection H as <-. exact Hst. }
  destruct (str_eqb (sub_match m 2) (lit "![CDATA[")).
  { destruct (regex_search c1 re_cdata_end) as [[c2 m2]|]; [|discriminate H].
    injection H as <-. exact Hst. }
  apply bind_Return in H. destruct H as [st1 [H1 H]].
  injection H as <-. exact (ordinary_tag_chain_ok _ _ _ _ _ H1 E1 Hst).
Qed.

Lemma tag_loop_chain_ok (fuel : nat) :
  forall st st' : parse_state,
    tag_loop fuel st = Return st' ->
    chain_ok (current_node st) (parents st) = true ->
    chain_ok (current_node st') (parents st') = true.
Proof.
  induction fuel as [|fuel IH]; intros st st' H Hst.
  - cbn [tag_loop] in H.
    destruct (current (cursor st) <? length (cursor_text (cursor st)));
      [discriminate H|]. now injection H as <-.
  - rewrite tag_loop_S in H.
    destruct (current (cursor st) <? length (cursor_text (cursor st)));
      [|now injection H as <-].
    apply bind_Return in H. destruct H as [[st1|] [Hb H]].
    + apply (IH st1 st' H). exact (tag_loop_body_chain_ok _ _ Hb Hst).
    + now injection H as <-.
Qed.

(** X11.  In the tree of a document that [parse_xml] returns every node
    has a name that is not empty, has none of [<>'\x22&], no white space
    and no [/] in front, and no node has a value and children at once. *)
Theorem parse_xml_nodes_ok (text : str) (doc : xml_document) (root : xml_node)
    (H : parse_xml text = Return doc) (Hroot : root_node doc = Some root) :
  all_nodes node_ok root = true.
Proof.
  unfold parse_xml, parse_xml_fuel in H.
  apply bind_Return in H. destruct H as [[[v a] top] [H Hdoc]].
  injection Hdoc as <-. cbn [make_document root_node] in Hroot.
  unfold parse_top in H. apply bind_Return in H.
  destruct H as [[[c1 v1] a1] [_ H]]. cbv beta iota zeta in H.
  apply bind_Return in H. destruct H as [st [Ht H]].
  apply bind_Return in H. destruct H as [c2 [_ H]].
  destruct (negb (is_space (cursor_rest c2))); [discriminate H|].
  injection H as _ _ <-.
  apply tag_loop_chain_ok in Ht; [|reflexivity].
  apply chain_ok_top_node in Ht. unfold top_node in Hroot.
  destruct (nodes (top_node_of (current_node st) (parents st)))
    as [|r rs]; [discriminate Hroot|].
  injection Hroot as ->. cbn [forallb] in Ht. now apply andb_prop in Ht.
Qed.

Lemma parse_xml_nodes_ok_witness :
  all_nodes node_ok
    (element (lit "a") []
       [element (lit "#text") (lit "x") []; element (lit "b") (lit "y") []])
  = true.
Proof.
  apply (parse_xml_nodes_ok (xml_decl ++ lit "<a>x<b>y</b>")
           (document_of (Some (element (lit "a") []
              [element (lit "#text") (lit "x") [];
               element (lit "b") (lit "y") []])))).
  - vm_compute. reflexivity.
  - reflexivity.
Defined.

(** ** The patterns at a tag *)

Lemma without_none_of (c : ascii) (s : str) :
  forallb (none_of [c]) s = without c s.
Proof.
  unfold without. induction s as [|d s IH]; [reflexivity|].
  cbn [forallb]. rewrite IH. unfold none_of, one_of, is_char.
  cbn [existsb]. now rewrite orb_false_r.
Qed.

Lemma take_while_split (f : ascii -> bool) (s : str) :
  exists b, s = take_while f s ++ b
            /\ forallb f (take_while f s) = true
            /\ match b with [] => true | c :: _ => negb (f c) end = true.
Proof.
  induction s as [|c t IH].
  - exists []. now split.
  - cbn [take_while]. destruct (f c) eqn:E.
    + destruct IH as [b [Hs [Hf Hb]]]. exists b. cbn [app forallb].
      rewrite E, Hf. split; [now rewrite <- Hs|now split].
    + exists (c :: t). cbn. now rewrite E.
Qed.

(** The groups of a match, each compared with the part of the range that
    it has to be; [rest] is what the match leaves of the range. *)
Ltac groups_eq rest :=
  rewrite ?firstn_sub;
  match goal with
  | |- Some ((0, firstn ?n ?whole) :: ?l) = Some ((0, ?pre) :: ?l') =>
      replace (firstn n whole) with pre;
      [reflexivity|symmetry; firstn_exact rest]
  end.

(** The head of a tag behind a text without [<]: the text is the first
    group and the name the second. *)
Lemma re_tag_head_match (t rest : str) :
  without "<" t = true ->
  std_regex_search (t ++ lit "<" ++ rest) re_tag_head
  = Some [(0, t ++ lit "<" ++ tag_name_of rest); (2, tag_name_of rest);
          (3, tag_name_of rest); (1, t)].
Proof.
  intros Ht. unfold std_regex_search.
  change re_tag_head
    with (Seq Bol (seq [Grp 1 (lazy_star (none_of (lit "<"))); Lit (lit "<");
                        Grp 2 (Grp 3 (Alt (Lit (lit "!--"))
                                 (Alt (Lit (lit "![CDATA["))
                                    (star re_name_char))))])).
  rewrite search_from_anchored. unfold lazy_star, star.
  cbn [seq fold_right run Nat.eqb].
  apply rep_lazy_first;
    [change (lit "<") with ["<"%char]; now rewrite without_none_of|lia| |].
  { intros j Hj. change (lit "<") with ["<"%char].
    rewrite (strip_prefix_inside "<" [] t _ j Ht); [reflexivity|lia]. }
  rewrite strip_prefix_same. unfold tag_name_of, starts_with.
  destruct (strip_prefix (lit "!--") rest) as [r|] eqn:E1.
  { apply strip_prefix_app in E1. subst rest. groups_eq r. }
  destruct (strip_prefix (lit "![CDATA[") rest) as [r|] eqn:E2.
  { apply strip_prefix_app in E2. subst rest. groups_eq r. }
  destruct (take_while_split re_name_char rest) as [b [Hs [Hf Hb]]].
  remember (take_while re_name_char rest) as n eqn:En. clear En. subst rest.
  apply rep_greedy_run; [exact Hf|exact Hb|lia|]. groups_eq b.
Qed.

Lemma run_anchored_group1 (f : ascii -> bool) (min : nat) (greedy : bool)
    (r : re) (k : nat -> str -> smatch -> option smatch) (s : str) :
  run (Grp 0 (Seq Bol (Seq (Grp 1 (Rep f min greedy)) r))) k 0 s []
  = rep f greedy
      (fun pos' s' =>
         run r (fun p s'' m' => k p s'' ((0, firstn (p - 0) s) :: m'))
           pos' s' [(1, firstn (pos' - 0) s)])
      min 0 s.
Proof. reflexivity. Qed.

Lemma strip_prefix_two (c1 c2 : ascii) (s : str) :
  without c2 s = true -> strip_prefix [c1; c2] s = None.
Proof.
  destruct s as [|x [|y s]]; cbn [strip_prefix]; intros H.
  - reflexivity.
  - now destruct (Ascii.eqb c1 x).
  - destruct (Ascii.eqb c1 x); [|reflexivity].
    cbn in H. apply andb_prop in H. destruct H as [_ H].
    apply andb_prop in H. destruct H as [H _].
    apply negb_true_iff in H. unfold is_char in H.
    now rewrite Ascii.eqb_sym, H.
Qed.

(** The mark [/] and the [>] of a tag are not found where neither [/>]
    nor [>] stands. *)
Lemma run_mark_none (k : nat -> str -> smatch -> option smatch)
    (pos : nat) (s : str) (m : smatch) :
  strip_prefix (lit "/>") s = None -> strip_prefix (lit ">") s = None ->
  run (seq [Grp 2 (opt (Lit (lit "/"))); Lit (lit ">")]) k pos s m = None.
Proof.
  intros H2 H1. unfold opt. cbn [seq fold_right run].
  rewrite H1. destruct s as [|c t]; [reflexivity|].
  cbn [lit list_ascii_of_string strip_prefix] in *.
  destruct (Ascii.eqb "/" c); [|reflexivity].
  destruct t as [|d t]; [reflexivity|].
  now destruct (Ascii.eqb ">" d).
Qed.

Lemma re_tag_end_without_gt (s : str) :
  without ">" s = true -> std_regex_search s re_tag_end = None.
Proof.
  intros Hs. unfold std_regex_search.
  change re_tag_end
    with (Seq Bol (Seq (Grp 1 (Rep re_any 0 false))
                     (seq [Grp 2 (opt (Lit (lit "/"))); Lit (lit ">")]))).
  rewrite search_from_anchored, run_anchored_group1.
  apply rep_none. intros n _ _. apply run_mark_none.
  - apply strip_prefix_two. now apply without_skipn.
  - now apply skipn_no_char.
Qed.

Lemma strip_slash_gt_before_slash (a b : str) (j : nat) :
  without ">" a = true -> j < length a ->
  strip_prefix (lit "/>") (skipn j (a ++ "/"%char :: b)) = None.
Proof.
  revert j. induction a as [|c a IH]; intros j Ha Hj; [cbn in Hj; lia|].
  cbn in Ha. apply andb_prop in Ha. destruct Ha as [Hc Ha].
  destruct j as [|j].
  - cbn [skipn app lit list_ascii_of_string strip_prefix].
    destruct (Ascii.eqb "/" c); [|reflexivity].
    destruct a as [|d a]; [reflexivity|].
    cbn in Ha. apply andb_prop in Ha. destruct Ha as [Hd _].
    apply negb_true_iff in Hd. unfold is_char in Hd.
    cbn [app]. now rewrite Ascii.eqb_sym, Hd.
  - cbn [skipn app]. apply IH; [exact Ha|cbn in Hj; lia].
Qed.

Lemma strip_slash_gt_before_gt (a b : str) (j : nat) :
  without ">" a = true -> is_char (last a " "%char) "/" = false ->
  j < length a ->
  strip_prefix (lit "/>") (skipn j (a ++ ">"%char :: b)) = None.
Proof.
  revert j. induction a as [|c a IH]; intros j Ha Hl Hj; [cbn in Hj; lia|].
  cbn in Ha. apply andb_prop in Ha. destruct Ha as [Hc Ha].
  destruct j as [|j].
  - cbn [skipn app lit list_ascii_of_string strip_prefix].
    destruct (Ascii.eqb "/" c) eqn:E; [|reflexivity].
    destruct a as [|d a].
    + cbn in Hl. unfold is_char in Hl. rewrite Ascii.eqb_sym in Hl. congruence.
    + cbn in Ha. apply andb_prop in Ha. destruct Ha as [Hd _].
      apply negb_true_iff in Hd. unfold is_char in Hd.
      cbn [app]. now rewrite Ascii.eqb_sym, Hd.
  - cbn [skipn app]. cbn in Hj.
    destruct a as [|d a]; [cbn in Hj; lia|].
    apply IH; [exact Ha|exact Hl|lia].
Qed.

(** The end of a tag without the mark: [a] has no [>] and does not end
    with [/]. *)
Lemma re_tag_end_match (a rest : str) :
  without ">" a = true -> is_char (last a " "%char) "/" = false ->
  std_regex_search (a ++ lit ">" ++ rest) re_tag_end
  = Some [(0, a ++ lit ">"); (2, []); (1, a)].
Proof.
  intros Ha Hl. unfold std_regex_search.
  change re_tag_end
    with (Seq Bol (Seq (Grp 1 (Rep re_any 0 false))
                     (seq [Grp 2 (opt (Lit (lit "/"))); Lit (lit ">")]))).
  rewrite search_from_anchored, run_anchored_group1.
  apply rep_lazy_first; [apply re_any_all|lia| |].
  - intros j Hj. apply run_mark_none.
    + apply strip_slash_gt_before_gt; [exact Ha|exact Hl|lia].
    + apply (strip_prefix_inside ">" [] a _ j Ha). lia.
  - unfold opt. cbn [seq fold_right run lit list_ascii_of_string app
                       strip_prefix].
    change (Ascii.eqb "/" ">") with false. cbv iota.
    rewrite Ascii.eqb_refl. cbn [length].
    replace (0 + length a - (0 + length a)) with 0 by lia. cbn [firstn].
    groups_eq rest.
Qed.

(** The end of a tag with the mark. *)
Lemma re_tag_end_match_mark (a rest : str) :
  without ">" a = true ->
  std_regex_search (a ++ lit "/>" ++ rest) re_tag_end
  = Some [(0, a ++ lit "/>"); (2, lit "/"); (1, a)].
Proof.
  intros Ha. unfold std_regex_search.
  change re_tag_end
    with (Seq Bol (Seq (Grp 1 (Rep re_any 0 false))
                     (seq [Grp 2 (opt (Lit (lit "/"))); Lit (lit ">")]))).
  rewrite search_from_anchored, run_anchored_group1.
  apply rep_lazy_first; [apply re_any_all|lia| |].
  - intros j Hj. apply run_mark_none.
    + apply strip_slash_gt_before_slash; [exact Ha|lia].
    + apply (strip_prefix_inside ">" [] a _ j Ha). lia.
  - unfold opt. cbn [seq fold_right run lit list_ascii_of_string app
                       strip_prefix].
    rewrite !Ascii.eqb_refl. cbn [length].
    replace (0 + length a + 1 - (0 + length a)) with 1 by lia. cbn [firstn].
    groups_eq rest.
Qed.

(** ** The patterns at a comment and at a CDATA section *)

Lemma strip_prefix_longer (p u w : str) :
  length p <= length u -> strip_prefix p u = None ->
  strip_prefix p (u ++ w) = None.
Proof.
  revert u. induction p as [|x p IH]; intros u Hl H; [discriminate H|].
  destruct u as [|y u]; [cbn in Hl; lia|].
  cbn [app strip_prefix] in *. destruct (Ascii.eqb x y); [|reflexivity].
  apply IH; [cbn in Hl; lia|exact H].
Qed.

Lemma occurs_false_skipn (p s : str) (n : nat) :
  occurs p s = false -> strip_prefix p (skipn n s) = None.
Proof.
  revert n. induction s as [|c t IH]; intros n H.
  - cbn [occurs] in H. apply orb_false_elim in H. destruct H as [H _].
    unfold starts_with in H. destruct n; cbn [skipn];
      now destruct (strip_prefix p []).
  - cbn [occurs] in H. apply orb_false_elim in H. destruct H as [H Ht].
    destruct n as [|n]; cbn [skipn].
    + unfold starts_with in H. now destruct (strip_prefix p (c :: t)).
    + now apply IH.
Qed.

(** The first []]>] behind a body that does not hold one, also not
    together with the two brackets that follow it. *)
Lemma cdata_end_first (body rest : str) (j : nat) :
  occurs (lit "]]>") (body ++ lit "]]") = false -> j < length body ->
  strip_prefix (lit "]]>") (skipn j (body ++ lit "]]>" ++ rest)) = None.
Proof.
  intros H Hj.
  replace (body ++ lit "]]>" ++ rest)
    with ((body ++ lit "]]") ++ lit ">" ++ rest)
    by (now rewrite <- app_assoc).
  rewrite skipn_app.
  replace (j - length (body ++ lit "]]")) with 0
    by (rewrite length_app; lia).
  cbn [skipn]. apply strip_prefix_longer.
  - rewrite length_skipn, length_app. cbn [length lit list_ascii_of_string]. lia.
  - now apply occurs_false_skipn.
Qed.

Lemma re_cdata_end_match (body rest : str) :
  occurs (lit "]]>") (body ++ lit "]]") = false ->
  std_regex_search (body ++ lit "]]>" ++ rest) re_cdata_end
  = Some [(0, body ++ lit "]]>"); (1, body ++ lit "]]>")].
Proof.
  intros H. unfold std_regex_search.
  change re_cdata_end
    with (Seq Bol (seq [Grp 1 (seq [lazy_star re_any; Lit (lit "]]>")])])).
  rewrite search_from_anchored. unfold lazy_star.
  cbn [seq fold_right run Nat.eqb].
  apply rep_lazy_first; [apply re_any_all|lia| |].
  - intros j Hj. rewrite cdata_end_first; [reflexivity|exact H|lia].
  - rewrite strip_prefix_same.
    replace (0 + length body + length (lit "]]>") - 0)
      with (length (body ++ lit "]]>")) by (rewrite length_app; lia).
    replace (body ++ lit "]]>" ++ rest) with ((body ++ lit "]]>") ++ rest)
      by (now rewrite <- app_assoc).
    rewrite <- (Nat.add_0_r (length (body ++ lit "]]>"))), firstn_app_2.
    cbn [firstn]. now rewrite app_nil_r.
Qed.

Lemma re_cdata_end_absent (s : str) :
  occurs (lit "]]>") s = false -> std_regex_search s re_cdata_end = None.
Proof.
  intros H. unfold std_regex_search.
  change re_cdata_end
    with (Seq Bol (seq [Grp 1 (seq [lazy_star re_any; Lit (lit "]]>")])])).
  rewrite search_from_anchored. unfold lazy_star.
  cbn [seq fold_right run Nat.eqb].
  apply rep_none. intros n _ _. now rewrite occurs_false_skipn.
Qed.

Lemma re_comment_head_match (t rest : str) :
  without "<" t = true ->
  std_regex_search (t ++ lit "<!--" ++ rest) re_comment_head
  = Some [(0, t ++ lit "<!--"); (2, lit "<!--"); (1, t)].
Proof.
  intros Ht. unfold std_regex_search.
  change re_comment_head
    with (Seq Bol (seq [Grp 1 (lazy_star (none_of (lit "<")));
                        Grp 2 (Lit (lit "<!--"))])).
  rewrite search_from_anchored. unfold lazy_star.
  cbn [seq fold_right run Nat.eqb].
  apply rep_lazy_first;
    [change (lit "<") with ["<"%char]; now rewrite without_none_of|lia| |].
  - intros j Hj. change (lit "<!--") with ("<"%char :: lit "!--").
    rewrite (strip_prefix_inside "<" _ t _ j Ht); [reflexivity|lia].
  - rewrite strip_prefix_same. groups_eq rest.
Qed.

(** A comment without the two dashes of its end. *)
Lemma re_comment_end_absent (s : str) :
  without "-" s = true -> std_regex_search s re_comment_end = None.
Proof.
  intros Hs. unfold std_regex_search.
  change re_comment_end
    with (Seq Bol (seq [star (none_of (lit "-"));
                        Grp 1 (seq [Lit (lit "--"); opt (Cls re_any)])])).
  rewrite search_from_anchored. unfold star.
  cbn [seq fold_right run Nat.eqb].
  apply rep_none. intros n _ _. change (lit "--") with ("-"%char :: lit "-").
  now rewrite (skipn_no_char "-" s n Hs).
Qed.

(** Two dashes behind a body without dashes, with the character that
    follows them if there is one. *)
Lemma re_comment_end_two_dashes (body rest : str) :
  without "-" body = true ->
  std_regex_search (body ++ lit "--" ++ rest) re_comment_end
  = Some [(0, body ++ lit "--" ++ firstn 1 rest);
          (1, lit "--" ++ firstn 1 rest)].
Proof.
  intros Hbody. unfold std_regex_search.
  change re_comment_end
    with (Seq Bol (seq [star (none_of (lit "-"));
                        Grp 1 (seq [Lit (lit "--"); opt (Cls re_any)])])).
  rewrite search_from_anchored. unfold star.
  cbn [seq fold_right run Nat.eqb].
  apply rep_greedy_run;
    [change (lit "-") with ["-"%char]; now rewrite without_none_of
    |reflexivity|lia|].
  rewrite strip_prefix_same. unfold opt. cbn [run].
  destruct rest as [|c rest].
  - cbn [firstn]. rewrite !firstn_sub.
    f_equal. f_equal. f_equal. rewrite app_nil_r.
    firstn_exact (@nil ascii).
  - replace (re_any c) with true by (unfold re_any; now destruct (re_space c)).
    cbn [firstn]. f_equal. f_equal; [f_equal|].
    + apply (firstn_exact _ _ _ rest);
        [now rewrite <- !app_assoc
        |rewrite !length_app; cbn [length lit list_ascii_of_string]; lia].
    + f_equal. f_equal.
      apply (firstn_exact _ _ _ rest);
        [reflexivity|cbn [length lit list_ascii_of_string app]; lia].
Qed.

(** ** A pass through the loop over the tags *)

Lemma take_while_prefix (f : ascii -> bool) (s : str) :
  s = take_while f s ++ skipn (length (take_while f s)) s.
Proof.
  induction s as [|c t IH]; [reflexivity|]. cbn [take_while].
  destruct (f c); [|reflexivity]. cbn [length skipn app]. now rewrite <- IH.
Qed.

Lemma tag_name_of_prefix (rest : str) :
  rest = tag_name_of rest ++ skipn (length (tag_name_of rest)) rest.
Proof.
  unfold tag_name_of, starts_with.
  destruct (strip_prefix (lit "!--") rest) as [r|] eqn:E1.
  { apply strip_prefix_app in E1. now rewrite E1 at 1 2; rewrite skipn_app_length. }
  destruct (strip_prefix (lit "![CDATA[") rest) as [r|] eqn:E2.
  { apply strip_prefix_app in E2. now rewrite E2 at 1 2; rewrite skipn_app_length. }
  apply take_while_prefix.
Qed.

Lemma take_while_app (f : ascii -> bool) (n r : str) :
  forallb f n = true ->
  match r with [] => true | c :: _ => negb (f c) end = true ->
  take_while f (n ++ r) = n.
Proof.
  intros Hn Hr. induction n as [|c n IH].
  - destruct r as [|c r]; [reflexivity|]. cbn [app take_while].
    apply negb_true_iff in Hr. now rewrite Hr.
  - cbn in Hn. apply andb_prop in Hn. destruct Hn as [Hc Hn].
    cbn [app take_while]. now rewrite Hc, (IH Hn).
Qed.

(** The name that is read where [n] stands in front of [r]. *)
Lemma tag_name_of_app (n r : str) :
  forallb re_name_char n = true -> is_char (hd " "%char n) "!" = false ->
  match r with [] => true | c :: _ => negb (re_name_char c) end = true ->
  tag_name_of (n ++ r) = n.
Proof.
  intros Hn Hhd Hr. unfold tag_name_of.
  assert (E : forall p, starts_with ("!"%char :: p) (n ++ r) = false).
  { intros p. unfold starts_with. destruct n as [|c n].
    - destruct r as [|c r]; [reflexivity|]. cbn [app strip_prefix].
      destruct (Ascii.eqb "!" c) eqn:E; [|reflexivity].
      apply Ascii.eqb_eq in E. subst c. discriminate Hr.
    - cbn [app strip_prefix]. cbn [hd] in Hhd. unfold is_char in Hhd.
      now rewrite Ascii.eqb_sym, Hhd. }
  change (lit "!--") with ("!"%char :: lit "--").
  change (lit "![CDATA[") with ("!"%char :: lit "[CDATA[").
  rewrite !E. now apply take_while_app.
Qed.

(** The pass that starts in front of a text without [<] and the [<] of a
    tag: the text is unescaped and the name read, and the cursor is behind
    the name. *)
Lemma tag_loop_body_head (st : parse_state) (pre t rest : str) :
  cursor st = cursor_at pre (t ++ lit "<" ++ rest) ->
  without "<" t = true ->
  tag_loop_body st
  = (unescaped <- catch_iterator (unescape_xml_inner_text t)
                    Found_an_unescaped_character_or_an_undefined_entity ;;
     let text := inner_text_before_tag st ++ unescaped in
     let tag_name := tag_name_of rest in
     let cursor1 := cursor_at (pre ++ t ++ lit "<" ++ tag_name)
                      (skipn (length tag_name) rest) in
     if str_eqb tag_name (lit "!--") then
       match regex_search cursor1 re_comment_end with
       | None => Throw Missing_an_end_of_the_comment_section
       | Some (cursor2, m) =>
           if negb (str_eqb (sub_match m 1) (lit "-->")) then
             Throw Two_dashes_in_the_middle_of_a_comment_are_not_allowed
           else
             Return (Some {| cursor := cursor2; current_node := current_node st;
                             parents := parents st;
                             inner_text_before_tag := text |})
       end
     else if str_eqb tag_name (lit "![CDATA[") then
       match regex_search cursor1 re_cdata_end with
       | None => Throw Missing_an_end_of_the_CDATA_section
       | Some (cursor2, m) =>
           let m1 := sub_match m 1 in
           Return (Some {| cursor := cursor2; current_node := current_node st;
                           parents := parents st;
                           inner_text_before_tag :=
                             text ++ firstn (length m1 - 3) m1 |})
       end
     else
       st' <- ordinary_tag st cursor1 text tag_name ;;
       Return (Some st')).
Proof.
  intros Hc Ht. unfold tag_loop_body. rewrite Hc.
  rewrite (tag_name_of_prefix rest) at 1.
  replace (t ++ lit "<" ++ tag_name_of rest
             ++ skipn (length (tag_name_of rest)) rest)
    with ((t ++ lit "<" ++ tag_name_of rest)
            ++ skipn (length (tag_name_of rest)) rest)
    by (now rewrite <- !app_assoc).
  rewrite (regex_search_cursor_at pre _ _ re_tag_head
             [(0, t ++ lit "<" ++ tag_name_of rest); (2, tag_name_of rest);
              (3, tag_name_of rest); (1, t)]).
  - reflexivity.
  - rewrite <- !app_assoc. rewrite <- (tag_name_of_prefix rest).
    now apply re_tag_head_match.
  - reflexivity.
Qed.

Lemma tag_loop_pass (fuel : nat) (st : parse_state) (pre s : str) :
  cursor st = cursor_at pre s -> s <> [] -> length s <= fuel ->
  tag_loop fuel st
  = (r <- tag_loop_body st ;;
     match r with
     | None => Return st
     | Some st' => tag_loop fuel st'
     end).
Proof.
  intros Hc Hs Hfuel. destruct s as [|c s]; [contradiction|].
  now apply (tag_loop_at fuel st pre c s).
Qed.

(** An error in the first pass through the loop over the tags is the
    outcome of [parse_xml]. *)
Lemma parse_xml_first_pass (body : str) (e : xml_error) :
  body <> [] ->
  tag_loop_body {| cursor := cursor_at xml_decl body; current_node := new_node;
                   parents := []; inner_text_before_tag := [] |} = Throw e ->
  parse_xml (xml_decl ++ body) = Throw e.
Proof.
  intros Hbody H. rewrite parse_xml_body.
  rewrite (tag_loop_pass _ {| cursor := cursor_at xml_decl body;
                              current_node := new_node; parents := [];
                              inner_text_before_tag := [] |}
             xml_decl body eq_refl Hbody)
    by (rewrite length_app; lia).
  now rewrite H.
Qed.

Lemma app_lt_not_nil (t rest : str) : t ++ lit "<" ++ rest <> [].
Proof. destruct t; discriminate. Qed.

(** ** Errors at the first tag *)

(** X12.  A text in front of a tag that cannot be unescaped is reported
    as an unescaped character or undefined entity, whatever the tag is. *)
Theorem text_before_tag_not_unescaped (t rest : str)
    (Ht : without "<" t = true)
    (Hu : unescape_xml_inner_text t = Throw_iterator) :
  parse_xml (xml_decl ++ t ++ lit "<" ++ rest)
  = Throw Found_an_unescaped_character_or_an_undefined_entity.
Proof.
  apply parse_xml_first_pass; [apply app_lt_not_nil|].
  rewrite (tag_loop_body_head
             {| cursor := cursor_at xml_decl (t ++ lit "<" ++ rest);
                current_node := new_node; parents := [];
                inner_text_before_tag := [] |}
             xml_decl t rest eq_refl Ht), Hu.
  reflexivity.
Qed.

Lemma text_before_tag_not_unescaped_witness :
  parse_xml (xml_decl ++ lit "fish & chips<a />")
  = Throw Found_an_unescaped_character_or_an_undefined_entity.
Proof.
  apply (text_before_tag_not_unescaped (lit "fish & chips") (lit "a />"));
    reflexivity.
Defined.

Lemma first_pass_head (t rest : str) (u : str) :
  without "<" t = true -> unescape_xml_inner_text t = Return u ->
  tag_loop_body (initial_state (t ++ lit "<" ++ rest))
  = (let tag_name := tag_name_of rest in
     let cursor1 := cursor_at (xml_decl ++ t ++ lit "<" ++ tag_name)
                      (skipn (length tag_name) rest) in
     if str_eqb tag_name (lit "!--") then
       match regex_search cursor1 re_comment_end with
       | None => Throw Missing_an_end_of_the_comment_section
       | Some (cursor2, m) =>
           if negb (str_eqb (sub_match m 1) (lit "-->")) then
             Throw Two_dashes_in_the_middle_of_a_comment_are_not_allowed
           else
             Return (Some {| cursor := cursor2; current_node := new_node;
                             parents := []; inner_text_before_tag := u |})
       end
     else if str_eqb tag_name (lit "![CDATA[") then
       match regex_search cursor1 re_cdata_end with
       | None => Throw Missing_an_end_of_the_CDATA_section
       | Some (cursor2, m) =>
           let m1 := sub_match m 1 in
           Return (Some {| cursor := cursor2; current_node := new_node;
                           parents := [];
                           inner_text_before_tag :=
                             u ++ firstn (length m1 - 3) m1 |})
       end
     else
       st' <- ordinary_tag (initial_state (t ++ lit "<" ++ rest)) cursor1 u
                tag_name ;;
       Return (Some st')).
Proof.
  intros Ht Hu.
  rewrite (tag_loop_body_head (initial_state (t ++ lit "<" ++ rest))
             xml_decl t rest eq_refl Ht), Hu.
  reflexivity.
Qed.

(** X13.  A [<] that no name follows is a tag without a name. *)
Theorem tag_without_name (t u rest : str)
    (Ht : without "<" t = true) (Hu : unescape_xml_inner_text t = Return u)
    (Hrest : name_ends rest = true) :
  parse_xml (xml_decl ++ t ++ lit "<" ++ rest) = Throw Found_a_no_name_tag.
Proof.
  apply parse_xml_first_pass; [apply app_lt_not_nil|].
  change (tag_loop_body (initial_state (t ++ lit "<" ++ rest))
          = Throw Found_a_no_name_tag).
  rewrite (first_pass_head t rest u Ht Hu).
  pose proof (tag_name_of_app [] rest eq_refl eq_refl Hrest) as E.
  cbn [app] in E. rewrite E. reflexivity.
Qed.

Lemma tag_without_name_witness :
  parse_xml (xml_decl ++ lit "<>") = Throw Found_a_no_name_tag
  /\ parse_xml (xml_decl ++ lit "1 < 2") = Throw Found_a_no_name_tag.
Proof.
  split.
  - apply (tag_without_name [] [] (lit ">")); reflexivity.
  - apply (tag_without_name (lit "1 ") (lit "1 ") (lit " 2")); reflexivity.
Defined.

(** X14.  A tag with a name and without a [>] behind it is reported as
    such; the name may be that of a closing tag. *)
Theorem tag_without_gt (t u n r : str)
    (Ht : without "<" t = true) (Hu : unescape_xml_inner_text t = Return u)
    (Hn0 : n <> []) (Hn : forallb re_name_char n = true)
    (Hbang : is_char (hd " "%char n) "!" = false)
    (Hlegal : legal_name n = true)
    (Hr : name_ends r = true) (Hgt : without ">" r = true) :
  parse_xml (xml_decl ++ t ++ lit "<" ++ n ++ r) = Throw Missing_gt.
Proof.
  unfold legal_name in Hlegal. apply negb_true_iff in Hlegal.
  apply parse_xml_first_pass; [apply app_lt_not_nil|].
  change (tag_loop_body (initial_state (t ++ lit "<" ++ n ++ r))
          = Throw Missing_gt).
  rewrite (first_pass_head t (n ++ r) u Ht Hu).
  rewrite (tag_name_of_app n r Hn Hbang Hr). cbv zeta.
  rewrite skipn_app_length.
  destruct n as [|c n']; [contradiction|].
  assert (E1 : str_eqb (c :: n') (lit "!--") = false).
  { destruct (str_eqb (c :: n') (lit "!--")) eqn:E; [|reflexivity].
    apply str_eqb_eq in E. injection E as -> _. discriminate Hbang. }
  assert (E2 : str_eqb (c :: n') (lit "![CDATA[") = false).
  { destruct (str_eqb (c :: n') (lit "![CDATA[")) eqn:E; [|reflexivity].
    apply str_eqb_eq in E. injection E as -> _. discriminate Hbang. }
  rewrite E1, E2. unfold ordinary_tag. cbn [length Nat.eqb].
  unfold validate_tag_name, re_illegal_in_tag_name.
  rewrite (proj2 (std_regex_search_class _ _) Hlegal). cbn [bind].
  rewrite regex_search_cursor_at_none by (now apply re_tag_end_without_gt).
  reflexivity.
Qed.

Lemma tag_without_gt_witness :
  parse_xml (xml_decl ++ lit "<b c='1'") = Throw Missing_gt
  /\ parse_xml (xml_decl ++ lit "</b") = Throw Missing_gt.
Proof.
  split.
  - apply (tag_without_gt [] [] (lit "b") (lit " c='1'"));
      try discriminate; reflexivity.
  - apply (tag_without_gt [] [] (lit "/b") []);
      try discriminate; reflexivity.
Defined.

(** X15.  A CDATA section without its []]>] is reported as such. *)
Theorem cdata_without_end (t u r : str)
    (Ht : without "<" t = true) (Hu : unescape_xml_inner_text t = Return u)
    (Hr : occurs (lit "]]>") r = false) :
  parse_xml (xml_decl ++ t ++ lit "<![CDATA[" ++ r)
  = Throw Missing_an_end_of_the_CDATA_section.
Proof.
  change (lit "<![CDATA[" ++ r) with (lit "<" ++ lit "![CDATA[" ++ r).
  apply parse_xml_first_pass; [apply app_lt_not_nil|].
  change (tag_loop_body (initial_state (t ++ lit "<" ++ lit "![CDATA[" ++ r))
          = Throw Missing_an_end_of_the_CDATA_section).
  rewrite (first_pass_head t (lit "![CDATA[" ++ r) u Ht Hu).
  change (tag_name_of (lit "![CDATA[" ++ r)) with (lit "![CDATA[").
  cbv zeta. rewrite skipn_app_length.
  change (str_eqb (lit "![CDATA[") (lit "!--")) with false.
  change (str_eqb (lit "![CDATA[") (lit "![CDATA[")) with true. cbv iota.
  rewrite regex_search_cursor_at_none by (now apply re_cdata_end_absent).
  reflexivity.
Qed.

Lemma cdata_without_end_witness :
  parse_xml (xml_decl ++ lit "<![CDATA[ a ]] > b")
  = Throw Missing_an_end_of_the_CDATA_section.
Proof.
  apply (cdata_without_end [] [] (lit " a ]] > b")); reflexivity.
Defined.

(** X16.  A comment whose body has no dash up to a [--] that no [>]
    follows is refused for its two dashes; a comment without any dash
    behind its head has no end. *)
Theorem comment_without_end (t u body r : str)
    (Ht : without "<" t = true) (Hu : unescape_xml_inner_text t = Return u)
    (Hbody : without "-" body = true) :
  parse_xml (xml_decl ++ t ++ lit "<!--" ++ body)
  = Throw Missing_an_end_of_the_comment_section
  /\ (is_char (hd " "%char r) ">" = false ->
      parse_xml (xml_decl ++ t ++ lit "<!--" ++ body ++ lit "--" ++ r)
      = Throw Two_dashes_in_the_middle_of_a_comment_are_not_allowed).
Proof.
  split.
  - change (lit "<!--" ++ body) with (lit "<" ++ lit "!--" ++ body).
    apply parse_xml_first_pass; [apply app_lt_not_nil|].
    change (tag_loop_body (initial_state (t ++ lit "<" ++ lit "!--" ++ body))
            = Throw Missing_an_end_of_the_comment_section).
    rewrite (first_pass_head t (lit "!--" ++ body) u Ht Hu).
    change (tag_name_of (lit "!--" ++ body)) with (lit "!--").
    cbv zeta. rewrite skipn_app_length.
    change (str_eqb (lit "!--") (lit "!--")) with true. cbv iota.
    rewrite regex_search_cursor_at_none by (now apply re_comment_end_absent).
    reflexivity.
  - intros Hr.
    change (lit "<!--" ++ body ++ lit "--" ++ r)
      with (lit "<" ++ lit "!--" ++ body ++ lit "--" ++ r).
    apply parse_xml_first_pass; [apply app_lt_not_nil|].
    change (tag_loop_body
              (initial_state (t ++ lit "<" ++ lit "!--" ++ body ++ lit "--" ++ r))
            = Throw Two_dashes_in_the_middle_of_a_comment_are_not_allowed).
    rewrite (first_pass_head t (lit "!--" ++ body ++ lit "--" ++ r) u Ht Hu).
    change (tag_name_of (lit "!--" ++ body ++ lit "--" ++ r)) with (lit "!--").
    cbv zeta. rewrite skipn_app_length.
    change (str_eqb (lit "!--") (lit "!--")) with true. cbv iota.
    unfold regex_search. rewrite cursor_at_rest.
    rewrite (re_comment_end_two_dashes body r Hbody). cbn [sub_match Nat.eqb].
    destruct (str_eqb (lit "--" ++ firstn 1 r) (lit "-->")) eqn:E;
      [|reflexivity].
    apply str_eqb_eq in E. destruct r as [|c r]; [discriminate E|].
    injection E as ->. discriminate Hr.
Qed.

Lemma comment_without_end_witness :
  parse_xml (xml_decl ++ lit "<!-- a")
  = Throw Missing_an_end_of_the_comment_section
  /\ parse_xml (xml_decl ++ lit "<!-- a -- b -->")
     = Throw Two_dashes_in_the_middle_of_a_comment_are_not_allowed.
Proof.
  destruct (comment_without_end [] [] (lit " a ") (lit " b -->")
              eq_refl eq_refl eq_refl) as [H1 H2].
  split.
  - apply (proj1 (comment_without_end [] [] (lit " a") [] eq_refl eq_refl
                    eq_refl)).
  - apply H2. reflexivity.
Defined.

(** ** The passes at a well-formed tag *)

Lemma validate_tag_name_legal (n : str) :
  legal_name n = true -> validate_tag_name n = Return tt.
Proof.
  unfold legal_name, validate_tag_name, re_illegal_in_tag_name.
  intros H. apply negb_true_iff in H.
  now rewrite (proj2 (std_regex_search_class _ _) H).
Qed.

(** An ordinary tag whose attributes [a] end at a [>] without the mark. *)
Lemma ordinary_tag_plain
    (st : parse_state) (pre a rest text n : str) (attrs : attribute_map) :
  n <> [] -> legal_name n = true ->
  without ">" a = true -> is_char (last a " "%char) "/" = false ->
  parse_xml_attributes a = Return attrs ->
  ordinary_tag st (cursor_at pre (a ++ lit ">" ++ rest)) text n
  = (let current := flush_text (current_node st) text in
     if is_char (hd " "%char n) "/" then
       closing_tag st (cursor_at (pre ++ a ++ lit ">") rest) current n [] attrs
     else
       Return {| cursor := cursor_at (pre ++ a ++ lit ">") rest;
                 current_node :=
                   {| name := n; attributes := attrs; value := [];
                      nodes := [] |};
                 parents := current :: parents st;
                 inner_text_before_tag := [] |}).
Proof.
  intros Hn0 Hn Ha Hl Hattrs. unfold ordinary_tag.
  destruct n as [|c n']; [contradiction|]. cbn [length Nat.eqb].
  rewrite (validate_tag_name_legal _ Hn). cbn [bind].
  replace (a ++ lit ">" ++ rest) with ((a ++ lit ">") ++ rest)
    by (now rewrite <- app_assoc).
  rewrite (regex_search_cursor_at pre (a ++ lit ">") rest re_tag_end
             [(0, a ++ lit ">"); (2, []); (1, a)]);
    [|rewrite <- app_assoc; now apply re_tag_end_match|reflexivity].
  cbn [sub_match Nat.eqb]. rewrite Hattrs. cbn [catch_iterator bind].
  cbn [length Nat.eqb negb]. reflexivity.
Qed.

(** An ordinary tag whose attributes [a] end at the mark [/>]. *)
Lemma ordinary_tag_mark
    (st : parse_state) (pre a rest text n : str) (attrs : attribute_map) :
  n <> [] -> legal_name n = true -> without ">" a = true ->
  parse_xml_attributes a = Return attrs ->
  ordinary_tag st (cursor_at pre (a ++ lit "/>" ++ rest)) text n
  = (let current := flush_text (current_node st) text in
     if is_char (hd " "%char n) "/" then
       closing_tag st (cursor_at (pre ++ a ++ lit "/>") rest) current n
         (lit "/") attrs
     else
       Return {| cursor := cursor_at (pre ++ a ++ lit "/>") rest;
                 current_node :=
                   push_back current
                     {| name := n; attributes := attrs; value := [];
                        nodes := [] |};
                 parents := parents st;
                 inner_text_before_tag := [] |}).
Proof.
  intros Hn0 Hn Ha Hattrs. unfold ordinary_tag.
  destruct n as [|c n']; [contradiction|]. cbn [length Nat.eqb].
  rewrite (validate_tag_name_legal _ Hn). cbn [bind].
  replace (a ++ lit "/>" ++ rest) with ((a ++ lit "/>") ++ rest)
    by (now rewrite <- app_assoc).
  rewrite (regex_search_cursor_at pre (a ++ lit "/>") rest re_tag_end
             [(0, a ++ lit "/>"); (2, lit "/"); (1, a)]);
    [|rewrite <- app_assoc; now apply re_tag_end_match_mark|reflexivity].
  cbn [sub_match Nat.eqb]. rewrite Hattrs. cbn [catch_iterator bind].
  cbn [length Nat.eqb negb lit list_ascii_of_string]. reflexivity.
Qed.

Lemma closing_tag_eq
    (st : parse_state) (c : string_cursor) (current : xml_node)
    (tag_name : str) (p : xml_node) (ps : list xml_node) :
  tag_name = lit "/" ++ name current -> parents st = p :: ps ->
  closing_tag st c current tag_name [] []
  = Return {| cursor := c; current_node := push_back p (collapse_text current);
              parents := ps; inner_text_before_tag := [] |}.
Proof.
  intros -> Hp. unfold closing_tag. cbn [length Nat.eqb negb map_empty].
  replace (str_eqb (lit "/" ++ name current) (lit "/" ++ name current))
    with true by (symmetry; now apply str_eqb_eq).
  cbn [negb]. now rewrite Hp.
Qed.

Lemma not_special_name (n : str) :
  is_char (hd " "%char n) "!" = false ->
  str_eqb n (lit "!--") = false /\ str_eqb n (lit "![CDATA[") = false.
Proof.
  intros H. split.
  - destruct (str_eqb n (lit "!--")) eqn:E; [|reflexivity].
    apply str_eqb_eq in E. subst n. discriminate H.
  - destruct (str_eqb n (lit "![CDATA[")) eqn:E; [|reflexivity].
    apply str_eqb_eq in E. subst n. discriminate H.
Qed.

(** The pass at an opening tag. *)
Lemma tag_loop_body_open
    (pre t u n a rest : str) (attrs : attribute_map)
    (current : xml_node) (ps : list xml_node) (text : str) :
  without "<" t = true -> unescape_xml_inner_text t = Return u ->
  n <> [] -> forallb re_name_char n = true -> legal_name n = true ->
  is_char (hd " "%char n) "!" = false ->
  is_char (hd " "%char n) "/" = false ->
  name_ends (a ++ lit ">") = true ->
  without ">" a = true -> is_char (last a " "%char) "/" = false ->
  parse_xml_attributes a = Return attrs ->
  exists pre',
    tag_loop_body
      (state_at pre (t ++ lit "<" ++ n ++ a ++ lit ">" ++ rest) current ps text)
    = Return (Some (state_at pre' rest
                      {| name := n; attributes := attrs; value := [];
                         nodes := [] |}
                      (flush_text current (text ++ u) :: ps) [])).
Proof.
  intros Ht Hu Hn0 Hn Hlegal Hbang Hslash Hends Ha Hl Hattrs.
  eexists.
  rewrite (tag_loop_body_head
             (state_at pre (t ++ lit "<" ++ n ++ a ++ lit ">" ++ rest)
                current ps text)
             pre t (n ++ a ++ lit ">" ++ rest) eq_refl Ht).
  rewrite Hu. cbn [catch_iterator bind]. cbv zeta.
  assert (En : tag_name_of (n ++ a ++ lit ">" ++ rest) = n).
  { apply tag_name_of_app; [exact Hn|exact Hbang|].
    destruct a; exact Hends. }
  rewrite En, skipn_app_length.
  destruct (not_special_name n Hbang) as [E1 E2]. rewrite E1, E2.
  rewrite (ordinary_tag_plain _ _ a rest _ n attrs Hn0 Hlegal Ha Hl Hattrs).
  cbv zeta. rewrite Hslash. cbn [bind]. reflexivity.
Qed.

(** The pass at a tag with the mark [/>]. *)
Lemma tag_loop_body_independent
    (pre t u n a rest : str) (attrs : attribute_map)
    (current : xml_node) (ps : list xml_node) (text : str) :
  without "<" t = true -> unescape_xml_inner_text t = Return u ->
  n <> [] -> forallb re_name_char n = true -> legal_name n = true ->
  is_char (hd " "%char n) "!" = false ->
  is_char (hd " "%char n) "/" = false ->
  name_ends (a ++ lit "/") = true ->
  without ">" a = true ->
  parse_xml_attributes a = Return attrs ->
  exists pre',
    tag_loop_body
      (state_at pre (t ++ lit "<" ++ n ++ a ++ lit "/>" ++ rest) current ps text)
    = Return (Some (state_at pre' rest
                      (push_back (flush_text current (text ++ u))
                         {| name := n; attributes := attrs; value := [];
                            nodes := [] |})
                      ps [])).
Proof.
  intros Ht Hu Hn0 Hn Hlegal Hbang Hslash Hends Ha Hattrs.
  eexists.
  rewrite (tag_loop_body_head
             (state_at pre (t ++ lit "<" ++ n ++ a ++ lit "/>" ++ rest)
                current ps text)
             pre t (n ++ a ++ lit "/>" ++ rest) eq_refl Ht).
  rewrite Hu. cbn [catch_iterator bind]. cbv zeta.
  assert (En : tag_name_of (n ++ a ++ lit "/>" ++ rest) = n).
  { apply tag_name_of_app; [exact Hn|exact Hbang|].
    destruct a; exact Hends. }
  rewrite En, skipn_app_length.
  destruct (not_special_name n Hbang) as [E1 E2]. rewrite E1, E2.
  rewrite (ordinary_tag_mark _ _ a rest _ n attrs Hn0 Hlegal Ha Hattrs).
  cbv zeta. rewrite Hslash. cbn [bind]. reflexivity.
Qed.

Lemma parse_xml_attributes_nil : parse_xml_attributes [] = Return [].
Proof. reflexivity. Qed.

Lemma flush_text_name (current : xml_node) (text : str) :
  name (flush_text current text) = name current.
Proof. unfold flush_text. now destruct (negb (is_space text)). Qed.

(** The pass at the closing tag of [current_node]. *)
Lemma tag_loop_body_close
    (pre t u rest : str) (current p : xml_node) (ps : list xml_node)
    (text : str) :
  without "<" t = true -> unescape_xml_inner_text t = Return u ->
  forallb re_name_char (name current) = true ->
  legal_name (name current) = true ->
  exists pre',
    tag_loop_body
      (state_at pre (t ++ lit "</" ++ name current ++ lit ">" ++ rest)
         current (p :: ps) text)
    = Return (Some (state_at pre' rest
                      (push_back p
                         (collapse_text (flush_text current (text ++ u))))
                      ps [])).
Proof.
  intros Ht Hu Hn Hlegal. eexists.
  change (lit "</" ++ name current ++ lit ">" ++ rest)
    with (lit "<" ++ (lit "/" ++ name current) ++ [] ++ lit ">" ++ rest).
  rewrite (tag_loop_body_head
             (state_at pre (t ++ lit "<" ++ (lit "/" ++ name current) ++ []
                              ++ lit ">" ++ rest)
                current (p :: ps) text)
             pre t ((lit "/" ++ name current) ++ [] ++ lit ">" ++ rest)
             eq_refl Ht).
  rewrite Hu. cbn [catch_iterator bind]. cbv zeta.
  assert (En : tag_name_of ((lit "/" ++ name current) ++ [] ++ lit ">" ++ rest)
               = lit "/" ++ name current).
  { apply tag_name_of_app; [|reflexivity|reflexivity].
    cbn [lit list_ascii_of_string app forallb]. now rewrite Hn. }
  rewrite En, skipn_app_length.
  destruct (not_special_name (lit "/" ++ name current) eq_refl) as [E1 E2].
  rewrite E1, E2.
  rewrite (ordinary_tag_plain _ _ [] rest _ (lit "/" ++ name current) []);
    [|discriminate| |reflexivity|reflexivity|reflexivity].
  - cbv zeta. change (is_char (hd " "%char (lit "/" ++ name current)) "/")
      with true. cbv iota.
    rewrite closing_tag_eq with (p := p) (ps := ps);
      [reflexivity|now rewrite flush_text_name|reflexivity].
  - unfold legal_name in *. cbn [lit list_ascii_of_string app existsb].
    apply negb_true_iff in Hlegal. now rewrite Hlegal.
Qed.

(** The pass at a comment without dashes in its body. *)
Lemma tag_loop_body_comment
    (pre t u body rest : str) (current : xml_node) (ps : list xml_node)
    (text : str) :
  without "<" t = true -> unescape_xml_inner_text t = Return u ->
  without "-" body = true ->
  exists pre',
    tag_loop_body
      (state_at pre (t ++ lit "<!--" ++ body ++ lit "-->" ++ rest)
         current ps text)
    = Return (Some (state_at pre' rest current ps (text ++ u))).
Proof.
  intros Ht Hu Hbody. eexists.
  change (lit "<!--" ++ body ++ lit "-->" ++ rest)
    with (lit "<" ++ lit "!--" ++ body ++ lit "-->" ++ rest).
  rewrite (tag_loop_body_head
             (state_at pre (t ++ lit "<" ++ lit "!--" ++ body ++ lit "-->"
                              ++ rest) current ps text)
             pre t (lit "!--" ++ body ++ lit "-->" ++ rest) eq_refl Ht).
  rewrite Hu. cbn [catch_iterator bind]. cbv zeta.
  change (tag_name_of (lit "!--" ++ body ++ lit "-->" ++ rest))
    with (lit "!--").
  rewrite skipn_app_length.
  change (str_eqb (lit "!--") (lit "!--")) with true. cbv iota.
  replace (body ++ lit "-->" ++ rest) with ((body ++ lit "-->") ++ rest)
    by (now rewrite <- app_assoc).
  rewrite (regex_search_cursor_at _ (body ++ lit "-->") rest re_comment_end
             [(0, body ++ lit "-->"); (1, lit "-->")]);
    [reflexivity| |reflexivity].
  rewrite <- app_assoc. apply re_comment_end_no_dash.
  change (lit "-") with ["-"%char]. now rewrite without_none_of.
Qed.

(** The pass at a CDATA section. *)
Lemma tag_loop_body_cdata
    (pre t u body rest : str) (current : xml_node) (ps : list xml_node)
    (text : str) :
  without "<" t = true -> unescape_xml_inner_text t = Return u ->
  occurs (lit "]]>") (body ++ lit "]]") = false ->
  exists pre',
    tag_loop_body
      (state_at pre (t ++ lit "<![CDATA[" ++ body ++ lit "]]>" ++ rest)
         current ps text)
    = Return (Some (state_at pre' rest current ps (text ++ u ++ body))).
Proof.
  intros Ht Hu Hbody. eexists.
  change (lit "<![CDATA[" ++ body ++ lit "]]>" ++ rest)
    with (lit "<" ++ lit "![CDATA[" ++ body ++ lit "]]>" ++ rest).
  rewrite (tag_loop_body_head
             (state_at pre (t ++ lit "<" ++ lit "![CDATA[" ++ body ++ lit "]]>"
                              ++ rest) current ps text)
             pre t (lit "![CDATA[" ++ body ++ lit "]]>" ++ rest) eq_refl Ht).
  rewrite Hu. cbn [catch_iterator bind]. cbv zeta.
  change (tag_name_of (lit "![CDATA[" ++ body ++ lit "]]>" ++ rest))
    with (lit "![CDATA[").
  rewrite skipn_app_length.
  change (str_eqb (lit "![CDATA[") (lit "!--")) with false.
  change (str_eqb (lit "![CDATA[") (lit "![CDATA[")) with true. cbv iota.
  replace (body ++ lit "]]>" ++ rest) with ((body ++ lit "]]>") ++ rest)
    by (now rewrite <- app_assoc).
  rewrite (regex_search_cursor_at _ (body ++ lit "]]>") rest re_cdata_end
             [(0, body ++ lit "]]>"); (1, body ++ lit "]]>")]);
    [| |reflexivity].
  - cbn [sub_match Nat.eqb]. rewrite length_app.
    cbn [length lit list_ascii_of_string].
    replace (length body + 3 - 3) with (length body + 0) by lia.
    rewrite firstn_app_2. cbn [firstn]. rewrite app_nil_r.
    cbn [state_at inner_text_before_tag current_node parents].
    rewrite <- (app_assoc text u body). reflexivity.
  - rewrite <- app_assoc. now apply re_cdata_end_match.
Qed.

Lemma tag_loop_pass_at (fuel : nat) (pre s : str) (current : xml_node)
    (ps : list xml_node) (text : str) :
  s <> [] -> length s <= fuel ->
  tag_loop fuel (state_at pre s current ps text)
  = (r <- tag_loop_body (state_at pre s current ps text) ;;
     match r with
     | None => Return (state_at pre s current ps text)
     | Some st' => tag_loop fuel st'
     end).
Proof.
  apply (tag_loop_pass fuel (state_at pre s current ps text) pre s).
  reflexivity.
Qed.

(** ** The character data of an element *)

Lemma existsb_one_of_without (c : ascii) (s : str) :
  without c s = true -> existsb (one_of [c]) s = false.
Proof.
  unfold without. induction s as [|d s IH]; [reflexivity|].
  cbn [forallb existsb]. intros H. apply andb_prop in H. destruct H as [Hd Hs].
  rewrite (IH Hs), orb_false_r. unfold one_of, is_char in *. cbn [existsb].
  apply negb_true_iff in Hd. now rewrite Hd.
Qed.

Lemma unescape_text_ok (t : str) :
  text_ok t = true -> unescape_xml_inner_text t = Return (rewrite_entities t).
Proof.
  unfold text_ok. intros H. apply andb_prop in H. destruct H as [Hlt He].
  unfold unescape_xml_inner_text, _unescape_xml_entity, re_illegal_in_inner_text.
  change (lit "<") with ["<"%char].
  rewrite (proj2 (std_regex_search_class _ _)
             (existsb_one_of_without "<" t Hlt)).
  destruct (std_regex_search t re_undefined_entity); [discriminate He|].
  reflexivity.
Qed.

Lemma text_ok_without (t : str) : text_ok t = true -> without "<" t = true.
Proof. unfold text_ok. intros H. now apply andb_prop in H. Qed.

Lemma element_name_ok_parts (n : str) :
  element_name_ok n = true ->
  n <> [] /\ forallb re_name_char n = true /\ legal_name n = true
  /\ is_char (hd " "%char n) "!" = false
  /\ is_char (hd " "%char n) "/" = false.
Proof.
  unfold element_name_ok, name_ok, legal_name. intros H.
  apply andb_prop in H. destruct H as [H Hbang].
  apply andb_prop in H. destruct H as [H Hslash].
  apply andb_prop in H. destruct H as [H Hcls].
  apply andb_prop in H. destruct H as [H0 Hlegal].
  apply negb_true_iff in Hbang, Hslash.
  repeat split; try assumption.
  intros ->. discriminate H0.
Qed.

(** The passes at comments and CDATA sections add to the text buffer and
    leave the tree as it is. *)
Lemma tag_loop_pieces (fuel : nat) (current : xml_node) (ps : list xml_node)
    (rest : str) (l : list (str * piece)) :
  forallb piece_ok l = true ->
  forall (pre text : str),
    length (flat_map render_piece l ++ rest) <= fuel ->
    exists pre',
      tag_loop fuel (state_at pre (flat_map render_piece l ++ rest)
                       current ps text)
      = tag_loop fuel (state_at pre' rest current ps
                         (text ++ flat_map piece_data l)).
Proof.
  induction l as [|[t p] l IH]; intros Hl pre text Hfuel.
  - exists pre. cbn [flat_map app]. now rewrite app_nil_r.
  - cbn [forallb] in Hl. apply andb_prop in Hl. destruct Hl as [Hp Hl].
    unfold piece_ok in Hp. cbn [fst snd] in Hp.
    apply andb_prop in Hp. destruct Hp as [Ht Hbody].
    pose proof (text_ok_without t Ht) as Hlt.
    pose proof (unescape_text_ok t Ht) as Hu.
    assert (Er : flat_map render_piece ((t, p) :: l) ++ rest
                 = t ++ match p with
                        | Comment body => lit "<!--" ++ body ++ lit "-->"
                        | Cdata body => lit "<![CDATA[" ++ body ++ lit "]]>"
                        end ++ flat_map render_piece l ++ rest).
    { cbn [flat_map]. unfold render_piece at 1. cbn [fst snd].
      now rewrite <- !app_assoc. }
    assert (Ed : text ++ flat_map piece_data ((t, p) :: l)
                 = (text ++ rewrite_entities t
                      ++ match p with
                         | Comment _ => []
                         | Cdata body => body
                         end) ++ flat_map piece_data l).
    { cbn [flat_map]. unfold piece_data at 1. cbn [fst snd].
      now rewrite <- !app_assoc. }
    rewrite Er in Hfuel |- *. rewrite Ed.
    assert (Hstep : exists pre1,
               tag_loop_body
                 (state_at pre
                    (t ++ match p with
                          | Comment body => lit "<!--" ++ body ++ lit "-->"
                          | Cdata body => lit "<![CDATA[" ++ body ++ lit "]]>"
                          end ++ flat_map render_piece l ++ rest)
                    current ps text)
               = Return (Some (state_at pre1 (flat_map render_piece l ++ rest)
                                 current ps
                                 (text ++ rewrite_entities t
                                    ++ match p with
                                       | Comment _ => []
                                       | Cdata body => body
                                       end)))).
    { destruct p as [body|body].
      - destruct (tag_loop_body_comment pre t _ body
                    (flat_map render_piece l ++ rest) current ps text
                    Hlt Hu Hbody) as [pre1 E].
        exists pre1. rewrite <- !app_assoc. rewrite app_nil_r.
        rewrite <- E. reflexivity.
      - apply negb_true_iff in Hbody.
        destruct (tag_loop_body_cdata pre t _ body
                    (flat_map render_piece l ++ rest) current ps text
                    Hlt Hu Hbody) as [pre1 E].
        exists pre1. rewrite <- !app_assoc. rewrite <- E. reflexivity. }
    destruct Hstep as [pre1 Hstep].
    rewrite tag_loop_pass_at; [|destruct t, p; discriminate|exact Hfuel].
    rewrite Hstep. cbn [bind].
    destruct (IH Hl pre1 (text ++ rewrite_entities t
                            ++ match p with
                               | Comment _ => []
                               | Cdata body => body
                               end)) as [pre' E].
    { rewrite length_app in Hfuel. rewrite (length_app (match p with
                                              | Comment body => _
                                              | Cdata body => _
                                              end)) in Hfuel. lia. }
    exists pre'. exact E.
Qed.

Lemma tag_loop_end_at (fuel : nat) (pre : str) (current : xml_node)
    (ps : list xml_node) (text : str) :
  tag_loop fuel (state_at pre [] current ps text)
  = Return (state_at pre [] current ps text).
Proof. now apply (tag_loop_at_end fuel _ pre). Qed.

(** What [parse_xml] returns when the loop over the tags has ended at
    the end of the text. *)
Lemma parse_xml_at_end (body pre : str) (current : xml_node)
    (ps : list xml_node) (text : str) :
  tag_loop (length (xml_decl ++ body)) (initial_state body)
  = Return (state_at pre [] current ps text) ->
  parse_xml (xml_decl ++ body)
  = Return {| version := lit "1.0"; doc_attributes := [];
              root_node := hd_error (nodes (top_node_of current ps)) |}.
Proof.
  intros H. rewrite parse_xml_body.
  change {| cursor := cursor_at xml_decl body; current_node := new_node;
            parents := []; inner_text_before_tag := [] |}
    with (initial_state body).
  rewrite H. cbn [bind state_at cursor].
  rewrite comment_loop_none
    by (now apply regex_search_cursor_at_none).
  cbn [bind]. now rewrite cursor_at_rest.
Qed.

(** X17.  The value of an element that holds texts, comments and CDATA
    sections is what the texts unescape to and the bodies of the CDATA
    sections, in their order; the comments are left out, and a value that
    is blank is dropped. *)
Theorem element_character_data (n t : str) (l : list (str * piece))
    (Hn : element_name_ok n = true)
    (Hl : forallb piece_ok l = true) (Ht : text_ok t = true) :
  parse_xml (xml_decl ++ lit "<" ++ n ++ lit ">" ++ flat_map render_piece l
               ++ t ++ lit "</" ++ n ++ lit ">")
  = Return (document_of
              (Some (element n
                       (let data := flat_map piece_data l ++ rewrite_entities t in
                        if is_space data then [] else data)
                       []))).
Proof.
  destruct (element_name_ok_parts n Hn) as [Hn0 [Hcls [Hlegal [Hbang Hslash]]]].
  set (body := lit "<" ++ n ++ lit ">" ++ flat_map render_piece l
                 ++ t ++ lit "</" ++ n ++ lit ">").
  set (fuel := length (xml_decl ++ body)).
  set (node := {| name := n; attributes := []; value := []; nodes := [] |}).
  set (data := flat_map piece_data l ++ rewrite_entities t).
  assert (Hloop : exists pre,
             tag_loop fuel (initial_state body)
             = Return (state_at pre []
                         (push_back new_node
                            (collapse_text (flush_text node data))) [] [])).
  { (* the opening tag *)
    destruct (tag_loop_body_open xml_decl [] [] n []
                (flat_map render_piece l ++ t ++ lit "</" ++ n ++ lit ">")
                [] new_node [] [] eq_refl eq_refl Hn0 Hcls Hlegal Hbang Hslash
                eq_refl eq_refl eq_refl eq_refl) as [pre1 E1].
    change (initial_state body)
      with (state_at xml_decl
              ([] ++ lit "<" ++ n ++ [] ++ lit ">" ++ flat_map render_piece l
                 ++ t ++ lit "</" ++ n ++ lit ">") new_node [] []).
    rewrite tag_loop_pass_at;
      [|discriminate
       |change (length body <= length (xml_decl ++ body));
        rewrite length_app; lia].
    rewrite E1. cbn [bind].
    change (flush_text new_node ([] ++ [])) with new_node.
    (* the comments and the CDATA sections *)
    destruct (tag_loop_pieces fuel node [new_node]
                (t ++ lit "</" ++ n ++ lit ">") l Hl pre1 []) as [pre2 E2].
    { unfold fuel, body. rewrite !length_app. lia. }
    fold node. rewrite E2. cbn [app].
    (* the closing tag *)
    destruct (tag_loop_body_close pre2 t _ [] node new_node []
                (flat_map piece_data l)
                (text_ok_without t Ht) (unescape_text_ok t Ht) Hcls Hlegal)
      as [pre3 E3].
    change (lit ">" ++ []) with (lit ">") in E3.
    change (name node) with n in E3.
    rewrite tag_loop_pass_at;
      [|destruct t; discriminate
       |unfold fuel, body; rewrite !length_app; lia].
    rewrite E3. cbn [bind]. exists pre3. apply tag_loop_end_at. }
  destruct Hloop as [pre Hloop].
  rewrite (parse_xml_at_end body pre _ _ _ Hloop).
  unfold document_of. f_equal. cbn [top_node_of push_back set_nodes nodes
                                     new_node app hd_error].
  f_equal. unfold flush_text, collapse_text.
  destruct (is_space data); reflexivity.
Qed.

Lemma element_character_data_witness :
  parse_xml (xml_decl ++ lit "<a>1 &lt; <!-- c -->2<![CDATA[ & ]]> 3</a>")
  = Return (document_of (Some (element (lit "a") (lit "1 < 2 &  3") []))).
Proof.
  apply (element_character_data (lit "a") (lit " 3")
           [(lit "1 &lt; ", Comment (lit " c ")); (lit "2", Cdata (lit " & "))]);
    reflexivity.
Defined.

(** ** Maps in the order of their keys *)

Lemma str_ltb_irrefl (a : str) : str_ltb a a = false.
Proof.
  induction a as [|x a IH]; [reflexivity|]. cbn [str_ltb].
  now rewrite Nat.ltb_irrefl.
Qed.

Lemma str_ltb_asym (a b : str) : str_ltb a b = true -> str_ltb b a = false.
Proof.
  revert b. induction a as [|x a IH]; intros [|y b] H; try reflexivity;
    try discriminate H.
  cbn [str_ltb] in *.
  destruct (nat_of_ascii x <? nat_of_ascii y) eqn:E1.
  - apply Nat.ltb_lt in E1.
    replace (nat_of_ascii y <? nat_of_ascii x) with false
      by (symmetry; apply Nat.ltb_ge; lia).
    replace (nat_of_ascii x <? nat_of_ascii y) with true
      by (symmetry; apply Nat.ltb_lt; lia).
    reflexivity.
  - destruct (nat_of_ascii y <? nat_of_ascii x); [discriminate H|].
    now apply IH.
Qed.

(** A key above all the keys of the map is put behind them. *)
Lemma map_assign_above (k v : str) (m : attribute_map) :
  forallb (fun a => str_ltb (fst a) k) m = true ->
  map_assign k v m = m ++ [(k, v)].
Proof.
  induction m as [|[k' v'] m IH]; intros H; [reflexivity|].
  cbn [forallb fst] in H. apply andb_prop in H. destruct H as [Hk Hm].
  cbn [map_assign app].
  destruct (str_eqb k k') eqn:E.
  { apply str_eqb_eq in E. subst k'. rewrite str_ltb_irrefl in Hk.
    discriminate Hk. }
  now rewrite (str_ltb_asym k' k Hk), (IH Hm).
Qed.

Lemma fold_map_assign_sorted (m : attribute_map) :
  forall acc : attribute_map,
    map_sorted m = true ->
    forallb (fun a => forallb (fun b => str_ltb (fst a) (fst b)) m) acc = true ->
    fold_left (fun m a => map_assign (fst a) (snd a) m) m acc = acc ++ m.
Proof.
  induction m as [|[k v] m IH]; intros acc Hm Hacc.
  - cbn. now rewrite app_nil_r.
  - cbn [map_sorted] in Hm. apply andb_prop in Hm. destruct Hm as [Hk Hm].
    cbn [fold_left fst snd]. rewrite map_assign_above.
    + rewrite IH; [now rewrite <- app_assoc|exact Hm|].
      rewrite forallb_app. cbn [forallb fst]. rewrite Hk, !andb_true_r.
      clear -Hacc. induction acc as [|a acc IH]; [reflexivity|].
      cbn [forallb] in *. apply andb_prop in Hacc. destruct Hacc as [Ha Hacc].
      apply andb_prop in Ha. destruct Ha as [_ Ha].
      now rewrite Ha, (IH Hacc).
    + clear -Hacc. induction acc as [|a acc IH]; [reflexivity|].
      cbn [forallb] in *. apply andb_prop in Hacc. destruct Hacc as [Ha Hacc].
      apply andb_prop in Ha. destruct Ha as [Ha _].
      cbn [fst] in Ha. now rewrite Ha, (IH Hacc).
Qed.

(** The attributes of a well-formed element are read as they are. *)
Lemma parse_xml_attributes_sorted (m : attribute_map) (ws : str) :
  forallb attribute_ok m = true -> map_sorted m = true ->
  forallb re_space ws = true ->
  parse_xml_attributes (flat_map render_attribute m ++ ws) = Return m.
Proof.
  intros Hok Hsorted Hws.
  rewrite (parse_xml_attributes_of_rendered m ws Hok Hws).
  now rewrite (fold_map_assign_sorted m [] Hsorted eq_refl).
Qed.

Lemma last_app_singleton (s : str) (c d : ascii) : last (s ++ [c]) d = c.
Proof.
  induction s as [|x s IH]; [reflexivity|].
  cbn [app]. destruct (s ++ [c]) eqn:E; [now destruct s|].
  cbn [last]. exact IH.
Qed.

Lemma last_flat_map_render_attribute (m : attribute_map) :
  is_char (last (flat_map render_attribute m) " "%char) "/" = false.
Proof.
  destruct m as [|a m] using rev_ind; [reflexivity|].
  rewrite flat_map_app. cbn [flat_map]. rewrite app_nil_r.
  unfold render_attribute at 2. rewrite !app_assoc.
  now rewrite last_app_singleton.
Qed.

Lemma name_ends_flat_map_render_attribute (m : attribute_map) (r : str) :
  name_ends r = true -> name_ends (flat_map render_attribute m ++ r) = true.
Proof. intros Hr. destruct m as [|a m]; [exact Hr|reflexivity]. Qed.

(** ** Reading what [render] has written *)

Lemma xml_node_nested_ind (P : xml_node -> Prop) :
  (forall n, Forall P (nodes n) -> P n) -> forall n, P n.
Proof.
  intros H. fix IH 1. intros [nm attrs v ns]. apply H. cbn [nodes].
  induction ns as [|c ns IHns]; constructor; [apply IH|exact IHns].
Qed.

Lemma render_eq (ws : str) (n : xml_node) :
  render ws n
  = ws ++ lit "<" ++ name n ++ flat_map render_attribute (attributes n)
    ++ match value n, nodes n with
       | [], [] => lit " />"
       | _, [] => lit ">" ++ value n ++ lit "</" ++ name n ++ lit ">"
       | _, _ :: _ =>
           lit ">" ++ value n ++ flat_map (render ws) (nodes n)
           ++ ws ++ lit "</" ++ name n ++ lit ">"
       end.
Proof. destruct n; reflexivity. Qed.

Lemma well_formed_eq (n : xml_node) :
  well_formed n
  = element_name_ok (name n)
    && negb (str_eqb (name n) (lit "#text"))
    && forallb attribute_ok (attributes n)
    && map_sorted (attributes n)
    && without ">" (flat_map render_attribute (attributes n))
    && match nodes n with
       | [] => value_ok (value n)
       | _ :: _ => (length (value n) =? 0) && forallb well_formed (nodes n)
       end.
Proof. destruct n; reflexivity. Qed.

Ltac same_text :=
  cbn [app flat_map lit list_ascii_of_string];
  repeat first [rewrite <- app_assoc | rewrite <- app_comm_cons];
  cbn [app]; reflexivity.

Ltac text_length :=
  cbn [app lit list_ascii_of_string];
  repeat first [rewrite length_app | progress cbn [length]]; lia.

Lemma without_app (c : ascii) (a b : str) :
  without c (a ++ b) = without c a && without c b.
Proof. apply forallb_app. Qed.

Lemma unescape_xml_inner_text_plain (v : str) :
  without "<" v = true -> without "&" v = true ->
  unescape_xml_inner_text v = Return v.
Proof.
  intros Hlt Hamp. unfold unescape_xml_inner_text, re_illegal_in_inner_text.
  apply _unescape_xml_entity_plain; [exact Hamp|].
  now apply (existsb_one_of_without "<").
Qed.

Lemma re_space_without (c : ascii) (ws : str) :
  re_space c = false -> forallb re_space ws = true -> without c ws = true.
Proof.
  intros Hc. unfold without. induction ws as [|d ws IH]; [reflexivity|].
  cbn [forallb]. intros H. apply andb_prop in H. destruct H as [Hd Hws].
  rewrite (IH Hws), andb_true_r. unfold is_char.
  destruct (Ascii.eqb d c) eqn:E; [|reflexivity].
  apply Ascii.eqb_eq in E. subst d. congruence.
Qed.

Lemma flush_text_blank (n : xml_node) (text : str) :
  forallb re_space text = true -> flush_text n text = n.
Proof.
  intros H. unfold flush_text. now rewrite is_space_forallb, H.
Qed.

Lemma forallb_Forall_impl {A : Type} (f : A -> bool) (P : A -> Prop)
    (l : list A) :
  Forall (fun a => f a = true -> P a) l -> forallb f l = true -> Forall P l.
Proof.
  induction 1 as [|a l Ha _ IH]; intros H; constructor;
    cbn [forallb] in H; apply andb_prop in H; destruct H as [H1 H2];
    [now apply Ha|now apply IH].
Qed.

(** The children of an element, read one after the other. *)
Lemma tag_loop_children (fuel : nat) (ws : str) (ps : list xml_node)
    (rest : str) (cs : list xml_node) :
  Forall (fun c =>
            forall (pre rest : str) (current : xml_node) (ps : list xml_node),
              length (render ws c ++ rest) <= fuel ->
              exists pre',
                tag_loop fuel (state_at pre (render ws c ++ rest) current ps [])
                = tag_loop fuel (state_at pre' rest (push_back current c) ps []))
         cs ->
  forall (pre : str) (current : xml_node),
    length (flat_map (render ws) cs ++ rest) <= fuel ->
    exists pre',
      tag_loop fuel (state_at pre (flat_map (render ws) cs ++ rest)
                       current ps [])
      = tag_loop fuel (state_at pre' rest
                         (set_nodes current (nodes current ++ cs)) ps []).
Proof.
  induction 1 as [|c cs Hc _ IH]; intros pre current Hfuel.
  - exists pre. cbn [flat_map app]. rewrite app_nil_r.
    now destruct current.
  - cbn [flat_map] in Hfuel |- *. rewrite <- app_assoc in Hfuel |- *.
    destruct (Hc pre (flat_map (render ws) cs ++ rest) current ps Hfuel)
      as [pre1 E1].
    destruct (IH pre1 (push_back current c)) as [pre2 E2].
    { rewrite length_app in Hfuel. lia. }
    exists pre2. rewrite E1, E2. unfold push_back, set_nodes.
    cbn [name attributes value nodes]. now rewrite <- app_assoc.
Qed.

(** The loop over the tags reads a well-formed element that [render] has
    written as a child of [current_node]. *)
Lemma tag_loop_render (ws : str) (n : xml_node) :
  forallb re_space ws = true -> well_formed n = true ->
  forall (fuel : nat) (pre rest : str) (current : xml_node)
         (ps : list xml_node),
    length (render ws n ++ rest) <= fuel ->
    exists pre',
      tag_loop fuel (state_at pre (render ws n ++ rest) current ps [])
      = tag_loop fuel (state_at pre' rest (push_back current n) ps []).
Proof.
  intros Hws.
  pose proof (re_space_without "<" ws eq_refl Hws) as Hwlt.
  pose proof (unescape_xml_inner_text_plain ws Hwlt
                (re_space_without "&" ws eq_refl Hws)) as Hwu.
  induction n as [n IH] using xml_node_nested_ind.
  intros Hwf fuel pre rest current ps Hfuel.
  rewrite well_formed_eq in Hwf.
  apply andb_prop in Hwf. destruct Hwf as [Hwf Hbody].
  apply andb_prop in Hwf. destruct Hwf as [Hwf Hgt].
  apply andb_prop in Hwf. destruct Hwf as [Hwf Hsorted].
  apply andb_prop in Hwf. destruct Hwf as [Hwf Hattrs].
  apply andb_prop in Hwf. destruct Hwf as [Hname Htext].
  destruct (element_name_ok_parts _ Hname)
    as [Hn0 [Hcls [Hlegal [Hbang Hslash]]]].
  rewrite render_eq in Hfuel |- *.
  destruct n as [nm attrs v ns]. cbn [name attributes value nodes] in *.
  set (A := flat_map render_attribute attrs) in *.
  destruct ns as [|c cs].
  - destruct v as [|x v].
    + (* neither a value nor children *)
      assert (E : (ws ++ lit "<" ++ nm ++ A ++ lit " />") ++ rest
                  = ws ++ lit "<" ++ nm ++ (A ++ lit " ") ++ lit "/>" ++ rest).
      { same_text. }
      rewrite E in Hfuel |- *.
      destruct (tag_loop_body_independent pre ws ws nm (A ++ lit " ") rest
                  attrs current ps [] Hwlt Hwu Hn0 Hcls Hlegal Hbang
                  Hslash) as [pre1 E1].
      { rewrite <- app_assoc.
        now apply name_ends_flat_map_render_attribute. }
      { now rewrite without_app, Hgt. }
      { now apply parse_xml_attributes_sorted. }
      rewrite tag_loop_pass_at; [|destruct ws; discriminate|exact Hfuel].
      rewrite E1. cbn [bind]. exists pre1.
      now rewrite (flush_text_blank current ([] ++ ws) Hws).
    + (* a value *)
      apply andb_prop in Hbody. destruct Hbody as [Hbody Hamp].
      apply andb_prop in Hbody. destruct Hbody as [Hblank Hlt].
      apply negb_true_iff in Hblank.
      assert (E : (ws ++ lit "<" ++ nm ++ A
                     ++ lit ">" ++ (x :: v) ++ lit "</" ++ nm ++ lit ">")
                    ++ rest
                  = ws ++ lit "<" ++ nm ++ A ++ lit ">"
                    ++ (x :: v) ++ lit "</" ++ nm ++ lit ">" ++ rest).
      { same_text. }
      rewrite E in Hfuel |- *.
      destruct (tag_loop_body_open pre ws ws nm A
                  ((x :: v) ++ lit "</" ++ nm ++ lit ">" ++ rest)
                  attrs current ps [] Hwlt Hwu Hn0 Hcls Hlegal Hbang
                  Hslash) as [pre1 E1].
      { now apply name_ends_flat_map_render_attribute. }
      { exact Hgt. }
      { apply last_flat_map_render_attribute. }
      { rewrite <- (app_nil_r A). now apply parse_xml_attributes_sorted. }
      rewrite tag_loop_pass_at; [|destruct ws; discriminate|exact Hfuel].
      rewrite E1. cbn [bind].
      rewrite (flush_text_blank current ([] ++ ws) Hws).
      set (node := {| name := nm; attributes := attrs; value := [];
                      nodes := [] |}).
      destruct (tag_loop_body_close pre1 (x :: v) (x :: v) rest node current
                  ps [] Hlt (unescape_xml_inner_text_plain _ Hlt Hamp)
                  Hcls Hlegal) as [pre2 E2].
      change (name node) with nm in E2.
      rewrite tag_loop_pass_at; [|discriminate|].
      2:{ rewrite !length_app in Hfuel. rewrite !length_app.
          cbn [length] in *. lia. }
      rewrite E2. cbn [bind]. exists pre2.
      unfold flush_text, collapse_text. cbn [app]. rewrite Hblank.
      reflexivity.
  - (* children *)
    apply andb_prop in Hbody. destruct Hbody as [Hv Hcs].
    destruct v as [|x v]; [|discriminate Hv].
    set (cs' := c :: cs) in *.
    change (match cs' with
            | [] => lit " />"
            | _ :: _ => lit ">" ++ [] ++ flat_map (render ws) cs'
                        ++ ws ++ lit "</" ++ nm ++ lit ">"
            end)
      with (lit ">" ++ [] ++ flat_map (render ws) cs'
              ++ ws ++ lit "</" ++ nm ++ lit ">")
      in Hfuel |- *.
    assert (E : (ws ++ lit "<" ++ nm ++ A
                   ++ lit ">" ++ [] ++ flat_map (render ws) cs'
                   ++ ws ++ lit "</" ++ nm ++ lit ">") ++ rest
                = ws ++ lit "<" ++ nm ++ A ++ lit ">"
                  ++ flat_map (render ws) cs' ++ ws ++ lit "</" ++ nm
                  ++ lit ">" ++ rest).
    { cbn [app]. now rewrite <- !app_assoc. }
    rewrite E in Hfuel |- *.
    destruct (tag_loop_body_open pre ws ws nm A
                (flat_map (render ws) cs' ++ ws ++ lit "</" ++ nm ++ lit ">"
                   ++ rest)
                attrs current ps [] Hwlt Hwu Hn0 Hcls Hlegal Hbang
                Hslash) as [pre1 E1].
    { now apply name_ends_flat_map_render_attribute. }
    { exact Hgt. }
    { apply last_flat_map_render_attribute. }
    { rewrite <- (app_nil_r A). now apply parse_xml_attributes_sorted. }
    rewrite tag_loop_pass_at; [|destruct ws; discriminate|exact Hfuel].
    rewrite E1. cbn [bind].
    rewrite (flush_text_blank current ([] ++ ws) Hws).
    set (node := {| name := nm; attributes := attrs; value := [];
                    nodes := [] |}).
    assert (Hlen : length (flat_map (render ws) cs' ++ ws ++ lit "</" ++ nm
                             ++ lit ">" ++ rest) <= fuel).
    { rewrite !length_app in Hfuel. rewrite !length_app. lia. }
    destruct (tag_loop_children fuel ws (current :: ps)
                (ws ++ lit "</" ++ nm ++ lit ">" ++ rest) cs') with
      (pre := pre1) (current := node) as [pre2 E2].
    { apply (forallb_Forall_impl well_formed); [|exact Hcs].
      revert IH. apply Forall_impl. intros d Hd Hwd pre0 rest0 cur0 ps0 Hl.
      now apply Hd. }
    { exact Hlen. }
    rewrite E2. cbn [node nodes app set_nodes name attributes value].
    set (node' := {| name := nm; attributes := attrs; value := [];
                     nodes := cs' |}).
    destruct (tag_loop_body_close pre2 ws ws rest node' current ps []
                Hwlt Hwu Hcls Hlegal) as [pre3 E3].
    change (name node') with nm in E3.
    rewrite tag_loop_pass_at; [|destruct ws; discriminate|].
    2:{ rewrite !length_app in Hlen. rewrite !length_app. cbn [length] in *.
        lia. }
    change (set_nodes node cs') with node'.
    rewrite E3. cbn [bind]. exists pre3.
    rewrite (flush_text_blank node' ([] ++ ws) Hws).
    replace (collapse_text node') with node'; [reflexivity|].
    unfold collapse_text, node', cs'. cbn [nodes].
    destruct cs as [|c2 cs]; [|reflexivity].
    unfold cs' in Hcs. cbn [forallb] in Hcs. rewrite andb_true_r in Hcs.
    rewrite well_formed_eq in Hcs.
    destruct (str_eqb (name c) (lit "#text")); [|reflexivity].
    rewrite andb_false_r in Hcs. discriminate Hcs.
Qed.

(** What [parse_xml] returns when the loop over the tags has stopped in
    front of a text without [<]. *)
Lemma parse_xml_at_stop (body pre t : str) (current : xml_node)
    (ps : list xml_node) (text : str) :
  tag_loop (length (xml_decl ++ body)) (initial_state body)
  = Return (state_at pre t current ps text) ->
  without "<" t = true ->
  parse_xml (xml_decl ++ body)
  = if forallb re_space t then
      Return {| version := lit "1.0"; doc_attributes := [];
                root_node := hd_error (nodes (top_node_of current ps)) |}
    else Throw Illegal_format.
Proof.
  intros H Ht. rewrite parse_xml_body.
  change {| cursor := cursor_at xml_decl body; current_node := new_node;
            parents := []; inner_text_before_tag := [] |}
    with (initial_state body).
  rewrite H. cbn [bind state_at cursor].
  rewrite comment_loop_none
    by (apply regex_search_cursor_at_none;
        now apply re_comment_head_without_lt).
  cbn [bind]. rewrite cursor_at_rest, is_space_forallb.
  destruct (forallb re_space t); reflexivity.
Qed.

Lemma tag_loop_tail (fuel : nat) (pre t : str) (current : xml_node)
    (ps : list xml_node) (text : str) :
  without "<" t = true -> length t <= fuel ->
  tag_loop fuel (state_at pre t current ps text)
  = Return (state_at pre t current ps text).
Proof.
  intros Ht Hfuel. destruct t as [|c t]; [apply tag_loop_end_at|].
  rewrite tag_loop_pass_at; [|discriminate|exact Hfuel].
  unfold tag_loop_body. cbn [state_at cursor].
  rewrite regex_search_cursor_at_none; [reflexivity|].
  now apply re_tag_head_without_lt.
Qed.

(** X18.  Well-formed trees that [render] has written behind the
    declaration, with white space in front of their tags, are read by
    [parse_xml] as they are: the first of them is the root of the
    document, and the text behind the last one, if it has no [<], has to
    be blank. *)
Theorem parse_xml_render (ws : str) (l : list xml_node) (t : str)
    (Hws : forallb re_space ws = true)
    (Hl : forallb well_formed l = true)
    (Ht : without "<" t = true) :
  parse_xml (xml_decl ++ flat_map (render ws) l ++ t)
  = if forallb re_space t then Return (document_of (hd_error l))
    else Throw Illegal_format.
Proof.
  set (body := flat_map (render ws) l ++ t).
  destruct (tag_loop_children (length (xml_decl ++ body)) ws [] t l)
    with (pre := xml_decl) (current := new_node) as [pre E].
  { apply (forallb_Forall_impl well_formed); [|exact Hl].
    apply Forall_forall. intros c _ Hc pre rest current ps Hlen.
    now apply tag_loop_render. }
  { unfold body. rewrite (length_app xml_decl). lia. }
  rewrite (tag_loop_tail _ pre t) in E;
    [|exact Ht|unfold body; rewrite !length_app; lia].
  rewrite (parse_xml_at_stop body pre t _ [] [] E Ht).
  reflexivity.
Qed.

Lemma parse_xml_render_witness :
  parse_xml (xml_decl
               ++ ["010"%char]
               ++ lit "<list kind=" ++ [dquote] ++ lit "short" ++ [dquote]
               ++ lit ">" ++ ["010"%char]
               ++ lit "<item>one</item>" ++ ["010"%char]
               ++ lit "<item />" ++ ["010"%char]
               ++ lit "<group>" ++ ["010"%char]
               ++ lit "<item id=" ++ [dquote] ++ lit "3" ++ [dquote]
               ++ lit ">three</item>" ++ ["010"%char]
               ++ lit "</group>" ++ ["010"%char]
               ++ lit "</list>" ++ ["010"%char])
  = Return
      (document_of
         (Some {| name := lit "list";
                  attributes := [(lit "kind", lit "short")];
                  value := [];
                  nodes :=
                    [element (lit "item") (lit "one") [];
                     element (lit "item") [] [];
                     element (lit "group") []
                       [{| name := lit "item";
                           attributes := [(lit "id", lit "3")];
                           value := lit "three"; nodes := [] |}]] |})).
Proof.
  apply (parse_xml_render ["010"%char]
           [{| name := lit "list";
               attributes := [(lit "kind", lit "short")];
               value := [];
               nodes :=
                 [element (lit "item") (lit "one") [];
                  element (lit "item") [] [];
                  element (lit "group") []
                    [{| name := lit "item";
                        attributes := [(lit "id", lit "3")];
                        value := lit "three"; nodes := [] |}]] |}]
           ["010"%char]);
    reflexivity.
Defined.

(** ** The root among several nodes of the top level *)

Lemma parse_top_body (body : str) :
  parse_top (length (xml_decl ++ body)) (xml_decl ++ body)
  = (st <- tag_loop (length (xml_decl ++ body)) (initial_state body) ;;
     cursor2 <- comment_loop (length (xml_decl ++ body)) (cursor st) ;;
     if negb (is_space (cursor_rest cursor2)) then Throw Illegal_format
     else Return (lit "1.0", [], top_node st)).
Proof.
  unfold parse_top. rewrite parse_declaration_xml_decl. cbn [bind].
  reflexivity.
Qed.

(** What [parse_xml] has read when the loop over the tags has stopped in
    front of a blank text. *)
Lemma parse_top_at_stop (body pre t : str) (current : xml_node)
    (ps : list xml_node) (text : str) :
  tag_loop (length (xml_decl ++ body)) (initial_state body)
  = Return (state_at pre t current ps text) ->
  forallb re_space t = true ->
  parse_top (length (xml_decl ++ body)) (xml_decl ++ body)
  = Return (lit "1.0", [], top_node_of current ps).
Proof.
  intros H Ht. rewrite parse_top_body, H. cbn [bind state_at cursor].
  rewrite comment_loop_none
    by (apply regex_search_cursor_at_none;
        apply re_comment_head_without_lt;
        now apply (re_space_without "<")).
  cbn [bind]. rewrite cursor_at_rest, is_space_forallb, Ht. reflexivity.
Qed.

(** An ordinary tag reads the state through the parents and through
    [current_node] with the text in front of the tag added to it. *)
Lemma ordinary_tag_same_flush (st1 st2 : parse_state) (c : string_cursor)
    (text1 text2 tag_name : str) :
  parents st1 = parents st2 ->
  flush_text (current_node st1) text1 = flush_text (current_node st2) text2 ->
  ordinary_tag st1 c text1 tag_name = ordinary_tag st2 c text2 tag_name.
Proof.
  intros Hp Hf. unfold ordinary_tag, closing_tag. now rewrite Hp, Hf.
Qed.

Lemma tag_name_of_not_special (rest : str) :
  is_char (hd " "%char rest) "!" = false ->
  is_char (hd " "%char (tag_name_of rest)) "!" = false.
Proof.
  intros H. unfold tag_name_of.
  assert (E : forall p, starts_with ("!"%char :: p) rest = false).
  { intros p. unfold starts_with. destruct rest as [|c r]; [reflexivity|].
    cbn [strip_prefix]. cbn [hd] in H. unfold is_char in H.
    now rewrite Ascii.eqb_sym, H. }
  change (lit "!--") with ("!"%char :: lit "--").
  change (lit "![CDATA[") with ("!"%char :: lit "[CDATA[").
  rewrite !E. destruct rest as [|c r]; [reflexivity|].
  cbn [take_while]. destruct (re_name_char c); [exact H|reflexivity].
Qed.

Lemma hd_app_name (n r : str) :
  n <> [] -> hd " "%char (n ++ r) = hd " "%char n.
Proof. destruct n; [contradiction|reflexivity]. Qed.

(** A text in front of a tag that is neither a comment nor a CDATA
    section is read in the pass of the tag: the loop goes on as it does
    from behind the text, with the text added to [current_node]. *)
Lemma tag_loop_behind_text (fuel : nat) (pre x ws rest u : str)
    (current : xml_node) (ps : list xml_node) :
  without "<" x = true -> forallb re_space ws = true ->
  unescape_xml_inner_text (x ++ ws) = Return u ->
  is_char (hd " "%char rest) "!" = false ->
  length (x ++ ws ++ lit "<" ++ rest) <= fuel ->
  tag_loop fuel (state_at pre (x ++ ws ++ lit "<" ++ rest) current ps [])
  = tag_loop fuel (state_at (pre ++ x) (ws ++ lit "<" ++ rest)
                     (flush_text current u) ps []).
Proof.
  intros Hx Hws Hu Hbang Hfuel.
  pose proof (re_space_without "<" ws eq_refl Hws) as Hwlt.
  pose proof (unescape_xml_inner_text_plain ws Hwlt
                (re_space_without "&" ws eq_refl Hws)) as Hwu.
  rewrite (tag_loop_pass_at fuel pre);
    [|destruct x; destruct ws; discriminate|exact Hfuel].
  rewrite (tag_loop_pass_at fuel (pre ++ x));
    [|destruct ws; discriminate|rewrite length_app in Hfuel; lia].
  rewrite (tag_loop_body_head
             (state_at pre (x ++ ws ++ lit "<" ++ rest) current ps [])
             pre (x ++ ws) rest);
    [|cbn [state_at cursor]; now rewrite <- app_assoc
     |now rewrite without_app, Hx, Hwlt].
  rewrite (tag_loop_body_head
             (state_at (pre ++ x) (ws ++ lit "<" ++ rest)
                (flush_text current u) ps [])
             (pre ++ x) ws rest eq_refl Hwlt).
  rewrite Hu, Hwu. cbn [catch_iterator bind]. cbv zeta.
  destruct (not_special_name (tag_name_of rest)
              (tag_name_of_not_special rest Hbang)) as [E1 E2].
  rewrite E1, E2.
  replace (pre ++ (x ++ ws) ++ lit "<" ++ tag_name_of rest)
    with ((pre ++ x) ++ ws ++ lit "<" ++ tag_name_of rest)
    by (now rewrite <- !app_assoc).
  set (st1 := state_at pre (x ++ ws ++ lit "<" ++ rest) current ps []).
  set (st2 := state_at (pre ++ x) (ws ++ lit "<" ++ rest)
                (flush_text current u) ps []).
  rewrite (ordinary_tag_same_flush st1 st2 _ _
             (inner_text_before_tag st2 ++ ws) (tag_name_of rest) eq_refl).
  - now destruct (ordinary_tag st2 _ _ _).
  - unfold st1, st2. cbn [state_at inner_text_before_tag current_node app].
    now rewrite (flush_text_blank _ ws Hws).
Qed.

(** The loop over the tags reads well-formed elements of the top level up
    to the blank text behind them. *)
Lemma tag_loop_top_level (ws : str) (l : list xml_node) (t pre : str)
    (current : xml_node) (fuel : nat) :
  forallb re_space ws = true -> forallb well_formed l = true ->
  forallb re_space t = true ->
  length (flat_map (render ws) l ++ t) <= fuel ->
  exists pre',
    tag_loop fuel (state_at pre (flat_map (render ws) l ++ t) current [] [])
    = Return (state_at pre' t (set_nodes current (nodes current ++ l)) [] []).
Proof.
  intros Hws Hl Ht Hfuel.
  destruct (tag_loop_children fuel ws [] t l)
    with (pre := pre) (current := current) as [pre' E].
  { apply (forallb_Forall_impl well_formed); [|exact Hl].
    apply Forall_forall. intros c _ Hc pre0 rest0 cur0 ps0 Hlen.
    now apply tag_loop_render. }
  { exact Hfuel. }
  exists pre'. rewrite E. apply tag_loop_tail.
  - now apply (re_space_without "<").
  - rewrite length_app in Hfuel. lia.
Qed.

(** The root is the first child of [top_node]. *)
Lemma parse_xml_first_child (text v : str) (a : attribute_map)
    (top first : xml_node) (others : list xml_node) :
  parse_top (length text) text = Return (v, a, top) ->
  nodes top = first :: others ->
  parse_xml text
  = Return {| version := v; doc_attributes := a; root_node := Some first |}.
Proof.
  intros Hparse Hnodes. unfold parse_xml, parse_xml_fuel. rewrite Hparse.
  cbn [bind make_document]. now rewrite Hnodes.
Qed.

(** C10.  A parse that ends with more than one child of [top_node]
    succeeds, and the document has the first child as its root and
    nothing of the other children.  First, for every text: when the parse
    has come to the point where the root is chosen and [top_node] has two
    children or more, the document with the first of them is returned.
    Second, the texts with two or more well-formed elements at the top
    level, with white space around them, are such texts: [top_node] ends
    with all of them as its children, the document is returned with the
    first one as its root, and it is the document of the text that has
    the first element only.  Third, so are the texts in which a text that
    is not blank stands in front of one or more such elements: the text
    becomes the first child of [top_node], a node named [#text], and that
    node is the root. *)
Theorem first_top_level_child_is_root :
  (forall (text v : str) (a : attribute_map) (top first second : xml_node)
          (others : list xml_node),
      parse_top (length text) text = Return (v, a, top) ->
      nodes top = first :: second :: others ->
      parse_xml text
      = Return {| version := v; doc_attributes := a;
                  root_node := Some first |})
  /\ (forall (ws : str) (first second : xml_node) (others : list xml_node)
             (t : str),
         forallb re_space ws = true ->
         forallb well_formed (first :: second :: others) = true ->
         forallb re_space t = true ->
         parse_top
           (length (xml_decl ++ flat_map (render ws) (first :: second :: others)
                      ++ t))
           (xml_decl ++ flat_map (render ws) (first :: second :: others) ++ t)
         = Return (lit "1.0", [], element [] [] (first :: second :: others))
         /\ parse_xml
              (xml_decl ++ flat_map (render ws) (first :: second :: others)
                 ++ t)
            = Return (document_of (Some first))
         /\ parse_xml (xml_decl ++ render ws first ++ t)
            = Return (document_of (Some first)))
  /\ (forall (ws x u : str) (second : xml_node) (others : list xml_node)
             (t : str),
         forallb re_space ws = true ->
         without "<" x = true ->
         unescape_xml_inner_text (x ++ ws) = Return u ->
         is_space u = false ->
         forallb well_formed (second :: others) = true ->
         forallb re_space t = true ->
         parse_top
           (length (xml_decl ++ x ++ flat_map (render ws) (second :: others)
                      ++ t))
           (xml_decl ++ x ++ flat_map (render ws) (second :: others) ++ t)
         = Return (lit "1.0", [],
                   element [] []
                     (element (lit "#text") u [] :: second :: others))
         /\ parse_xml
              (xml_decl ++ x ++ flat_map (render ws) (second :: others) ++ t)
            = Return (document_of (Some (element (lit "#text") u [])))).
Proof.
  split; [|split].
  - intros text v a top first second others Hparse Hnodes.
    now apply (parse_xml_first_child text v a top first (second :: others)).
  - intros ws first second others t Hws Hl Ht.
    set (l := first :: second :: others) in *.
    set (body := flat_map (render ws) l ++ t).
    destruct (tag_loop_top_level ws l t xml_decl new_node
                (length (xml_decl ++ body)) Hws Hl Ht) as [pre E].
    { unfold body. rewrite (length_app xml_decl). lia. }
    pose proof (parse_top_at_stop body pre t _ [] [] E Ht) as Htop.
    split; [exact Htop|].
    split; [now apply (parse_xml_first_child _ _ _ _ first (second :: others)
                         Htop)|].
    assert (Hfirst : forallb well_formed [first] = true).
    { unfold l in Hl. cbn [forallb] in Hl |- *. apply andb_prop in Hl.
      destruct Hl as [Hl _]. now rewrite Hl. }
    destruct (tag_loop_top_level ws [first] t xml_decl new_node
                (length (xml_decl ++ render ws first ++ t)) Hws Hfirst Ht)
      as [pre1 E1].
    { cbn [flat_map]. rewrite app_nil_r, (length_app xml_decl). lia. }
    cbn [flat_map] in E1. rewrite app_nil_r in E1.
    now apply (parse_xml_first_child _ _ _ _ first []
                 (parse_top_at_stop (render ws first ++ t) pre1 t _ [] []
                    E1 Ht)).
  - intros ws x u second others t Hws Hx Hu Hblank Hl Ht.
    set (l := second :: others) in *.
    set (body := x ++ flat_map (render ws) l ++ t).
    assert (Hwf : well_formed second = true).
    { unfold l in Hl. cbn [forallb] in Hl. now apply andb_prop in Hl. }
    rewrite well_formed_eq in Hwf.
    do 5 (apply andb_prop in Hwf; destruct Hwf as [Hwf _]).
    destruct (element_name_ok_parts _ Hwf) as [Hn0 [_ [_ [Hbang _]]]].
    assert (Er : exists r, flat_map (render ws) l ++ t
                           = ws ++ lit "<" ++ name second ++ r).
    { unfold l. cbn [flat_map]. rewrite render_eq. eexists.
      rewrite <- !app_assoc. reflexivity. }
    destruct Er as [r Er].
    assert (Hlen : length body <= length (xml_decl ++ body)).
    { rewrite (length_app xml_decl). lia. }
    assert (E1 : tag_loop (length (xml_decl ++ body)) (initial_state body)
                 = tag_loop (length (xml_decl ++ body))
                     (state_at (xml_decl ++ x) (flat_map (render ws) l ++ t)
                        (flush_text new_node u) [] [])).
    { change (initial_state body)
        with (state_at xml_decl (x ++ flat_map (render ws) l ++ t)
                new_node [] []).
      rewrite Er. apply tag_loop_behind_text; try assumption.
      - now rewrite hd_app_name.
      - rewrite <- Er. exact Hlen. }
    destruct (tag_loop_top_level ws l t (xml_decl ++ x)
                (flush_text new_node u) (length (xml_decl ++ body))
                Hws Hl Ht) as [pre E2].
    { assert (Hb : length body
                   = length x + length (flat_map (render ws) l ++ t))
        by (unfold body; apply length_app).
      lia. }
    rewrite E2 in E1.
    pose proof (parse_top_at_stop body pre t _ [] [] E1 Ht) as Htop.
    assert (Etop : top_node_of
                     (set_nodes (flush_text new_node u)
                        (nodes (flush_text new_node u) ++ l)) []
                   = element [] [] (element (lit "#text") u [] :: l)).
    { unfold flush_text. rewrite Hblank. reflexivity. }
    rewrite Etop in Htop.
    split; [exact Htop|].
    now apply (parse_xml_first_child _ _ _ _ (element (lit "#text") u []) l
                 Htop).
Qed.

(** Two elements with the mark [/>] at the top level, and a text in front
    of the first element, which becomes a [#text] node of the top level. *)
Lemma first_top_level_child_is_root_witness :
  parse_xml (xml_decl ++ lit "<a /><b />")
  = Return (document_of (Some (element (lit "a") [] [])))
  /\ parse_xml (xml_decl ++ lit "x<a />")
     = Return (document_of (Some (element (lit "#text") (lit "x") []))).
Proof.
  split.
  - apply (proj1 (proj2 (proj1 (proj2 first_top_level_child_is_root)
                           [] (element (lit "a") [] [])
                           (element (lit "b") [] []) [] []
                           eq_refl eq_refl eq_refl))).
  - apply (proj2 (proj2 (proj2 first_top_level_child_is_root)
                    [] (lit "x") (lit "x") (element (lit "a") [] [])
                    [] [] eq_refl eq_refl eq_refl eq_refl eq_refl eq_refl)).
Defined.

(** ** Behind the last tag *)

Lemma split_at_first (c : ascii) (s : str) :
  without c s = false ->
  exists t rest, s = t ++ [c] ++ rest /\ without c t = true.
Proof.
  unfold without. induction s as [|d s IH]; [discriminate|].
  cbn [forallb]. destruct (is_char d c) eqn:E.
  - intros _. exists [], s. unfold is_char in E. apply Ascii.eqb_eq in E.
    subst d. now split.
  - cbn [negb andb]. intros H. destruct (IH H) as [t [rest [Hs Ht]]].
    exists (d :: t), rest. cbn [app forallb]. rewrite E, Ht, Hs.
    now split.
Qed.

(** Where the pattern of the tag head finds nothing, no [<] is left. *)
Lemma re_tag_head_none (s : str) :
  std_regex_search s re_tag_head = None -> without "<" s = true.
Proof.
  intros H. destruct (without "<" s) eqn:E; [reflexivity|].
  apply split_at_first in E. destruct E as [t [rest [-> Ht]]].
  change (["<"%char] ++ rest) with (lit "<" ++ rest) in H.
  rewrite (re_tag_head_match t rest Ht) in H. discriminate H.
Qed.

Lemma tag_loop_stops (fuel : nat) :
  forall st st' : parse_state,
    tag_loop fuel st = Return st' ->
    without "<" (cursor_rest (cursor st')) = true.
Proof.
  induction fuel as [|fuel IH]; intros st st' H.
  - cbn [tag_loop] in H.
    destruct (current (cursor st) <? length (cursor_text (cursor st))) eqn:E;
      [discriminate H|].
    injection H as <-. apply Nat.ltb_ge in E. unfold cursor_rest.
    now rewrite skipn_all2.
  - rewrite tag_loop_S in H.
    destruct (current (cursor st) <? length (cursor_text (cursor st))) eqn:E.
    + apply bind_Return in H. destruct H as [[st1|] [Hb H]].
      * now apply (IH st1).
      * injection H as <-. unfold tag_loop_body, regex_search in Hb.
        destruct (std_regex_search (cursor_rest (cursor st)) re_tag_head)
          as [m|] eqn:Em.
        -- exfalso. apply bind_Return in Hb. destruct Hb as [u [_ Hb]].
           cbv beta zeta in Hb.
           destruct (str_eqb (sub_match m 2) (lit "!--")).
           { destruct (std_regex_search _ re_comment_end); [|discriminate Hb].
             destruct (negb _); discriminate Hb. }
           destruct (str_eqb (sub_match m 2) (lit "![CDATA[")).
           { destruct (std_regex_search _ re_cdata_end); discriminate Hb. }
           apply bind_Return in Hb. destruct Hb as [st1 [_ Hb]].
           discriminate Hb.
        -- now apply re_tag_head_none.
    + injection H as <-. apply Nat.ltb_ge in E. unfold cursor_rest.
      now rewrite skipn_all2.
Qed.

(** X19.  The loop that skips the comments behind the last tag never
    finds one: the loop over the tags stops only where no [<] is left, so
    all that [parse_xml] does behind it is the check for white space. *)
Theorem comment_loop_idle (fuel fuel' : nat) (st st' : parse_state)
    (H : tag_loop fuel st = Return st') :
  without "<" (cursor_rest (cursor st')) = true
  /\ comment_loop fuel' (cursor st') = Return (cursor st').
Proof.
  pose proof (tag_loop_stops fuel st st' H) as Hlt.
  split; [exact Hlt|].
  apply comment_loop_none. unfold regex_search.
  now rewrite (re_comment_head_without_lt _ Hlt).
Qed.

Lemma comment_loop_idle_witness :
  comment_loop 0 (cursor_at (xml_decl ++ lit "<a /><!-- c -->") (lit " x"))
  = Return (cursor_at (xml_decl ++ lit "<a /><!-- c -->") (lit " x")).
Proof.
  apply (comment_loop_idle 40 0 (initial_state (lit "<a /><!-- c --> x"))
           (state_at (xml_decl ++ lit "<a /><!-- c -->") (lit " x")
              (push_back new_node (element (lit "a") [] [])) [] [])).
  vm_compute. reflexivity.
Defined.

(** ** Errors at a tag *)

(** An ordinary tag whose attributes [a] end at a [>] without the mark,
    whatever the attributes are. *)
Lemma ordinary_tag_plain_attributes
    (st : parse_state) (pre a rest text n : str) :
  n <> [] -> legal_name n = true ->
  without ">" a = true -> is_char (last a " "%char) "/" = false ->
  ordinary_tag st (cursor_at pre (a ++ lit ">" ++ rest)) text n
  = (attrs <- catch_iterator (parse_xml_attributes a) Illegal_attributes ;;
     let current := flush_text (current_node st) text in
     if is_char (hd " "%char n) "/" then
       closing_tag st (cursor_at (pre ++ a ++ lit ">") rest) current n [] attrs
     else
       Return {| cursor := cursor_at (pre ++ a ++ lit ">") rest;
                 current_node :=
                   {| name := n; attributes := attrs; value := [];
                      nodes := [] |};
                 parents := current :: parents st;
                 inner_text_before_tag := [] |}).
Proof.
  intros Hn0 Hn Ha Hl. unfold ordinary_tag.
  destruct n as [|c n']; [contradiction|]. cbn [length Nat.eqb].
  rewrite (validate_tag_name_legal _ Hn). cbn [bind].
  replace (a ++ lit ">" ++ rest) with ((a ++ lit ">") ++ rest)
    by (now rewrite <- app_assoc).
  rewrite (regex_search_cursor_at pre (a ++ lit ">") rest re_tag_end
             [(0, a ++ lit ">"); (2, []); (1, a)]);
    [|rewrite <- app_assoc; now apply re_tag_end_match|reflexivity].
  cbn [sub_match Nat.eqb].
  destruct (catch_iterator (parse_xml_attributes a) Illegal_attributes);
    reflexivity.
Qed.

(** The first pass at a tag with a name, up to its attributes. *)
Lemma first_pass_tag (t u n a rest : str) :
  without "<" t = true -> unescape_xml_inner_text t = Return u ->
  n <> [] -> forallb re_name_char n = true -> legal_name n = true ->
  is_char (hd " "%char n) "!" = false ->
  name_ends (a ++ lit ">") = true ->
  without ">" a = true -> is_char (last a " "%char) "/" = false ->
  tag_loop_body (initial_state (t ++ lit "<" ++ n ++ a ++ lit ">" ++ rest))
  = (st' <- (attrs <- catch_iterator (parse_xml_attributes a)
                        Illegal_attributes ;;
             let current := flush_text new_node u in
             if is_char (hd " "%char n) "/" then
               closing_tag
                 (initial_state (t ++ lit "<" ++ n ++ a ++ lit ">" ++ rest))
                 (cursor_at ((xml_decl ++ t ++ lit "<" ++ n) ++ a ++ lit ">")
                    rest)
                 current n [] attrs
             else
               Return {| cursor :=
                           cursor_at ((xml_decl ++ t ++ lit "<" ++ n) ++ a
                                        ++ lit ">") rest;
                         current_node :=
                           {| name := n; attributes := attrs; value := [];
                              nodes := [] |};
                         parents := [current];
                         inner_text_before_tag := [] |}) ;;
     Return (Some st')).
Proof.
  intros Ht Hu Hn0 Hn Hlegal Hbang Hends Ha Hl.
  rewrite (first_pass_head t (n ++ a ++ lit ">" ++ rest) u Ht Hu).
  assert (En : tag_name_of (n ++ a ++ lit ">" ++ rest) = n).
  { apply tag_name_of_app; [exact Hn|exact Hbang|].
    destruct a; exact Hends. }
  rewrite En. cbv zeta. rewrite skipn_app_length.
  destruct (not_special_name n Hbang) as [E1 E2]. rewrite E1, E2.
  now rewrite (ordinary_tag_plain_attributes _ _ a rest u n Hn0 Hlegal Ha Hl).
Qed.

(** X20.  A tag whose attributes cannot be read is reported for its
    attributes. *)
Theorem tag_with_illegal_attributes (t u n a rest : str)
    (Ht : without "<" t = true) (Hu : unescape_xml_inner_text t = Return u)
    (Hn0 : n <> []) (Hn : forallb re_name_char n = true)
    (Hlegal : legal_name n = true)
    (Hbang : is_char (hd " "%char n) "!" = false)
    (Hends : name_ends (a ++ lit ">") = true)
    (Ha : without ">" a = true)
    (Hl : is_char (last a " "%char) "/" = false)
    (Hattrs : parse_xml_attributes a = Throw_iterator) :
  parse_xml (xml_decl ++ t ++ lit "<" ++ n ++ a ++ lit ">" ++ rest)
  = Throw Illegal_attributes.
Proof.
  apply parse_xml_first_pass; [apply app_lt_not_nil|].
  change (tag_loop_body
            (initial_state (t ++ lit "<" ++ n ++ a ++ lit ">" ++ rest))
          = Throw Illegal_attributes).
  rewrite (first_pass_tag t u n a rest Ht Hu Hn0 Hn Hlegal Hbang Hends Ha Hl).
  now rewrite Hattrs.
Qed.

Lemma tag_with_illegal_attributes_witness :
  parse_xml (xml_decl ++ lit "<input checked>") = Throw Illegal_attributes
  /\ parse_xml (xml_decl ++ lit "<a title=" ++ [dquote] ++ lit "it's"
                  ++ [dquote] ++ lit "></a>")
     = Throw Illegal_attributes.
Proof.
  split.
  - apply (tag_with_illegal_attributes [] [] (lit "input") (lit " checked") []);
      try discriminate; reflexivity.
  - apply (tag_with_illegal_attributes [] [] (lit "a")
             (lit " title=" ++ [dquote] ++ lit "it's" ++ [dquote])
             (lit "</a>"));
      try discriminate; reflexivity.
Defined.

(** The pass at a closing tag with another name than [current_node],
    whatever element is open and whatever stands above it. *)
Lemma tag_loop_body_mismatch
    (pre t u m rest : str) (current : xml_node) (ps : list xml_node)
    (text : str) :
  without "<" t = true -> unescape_xml_inner_text t = Return u ->
  forallb re_name_char m = true -> legal_name m = true ->
  m <> name current ->
  tag_loop_body
    (state_at pre (t ++ lit "</" ++ m ++ lit ">" ++ rest) current ps text)
  = Throw (mismatch_error current).
Proof.
  intros Ht Hu Hm Hlegal Hne.
  assert (Hcls : forallb re_name_char (lit "/" ++ m) = true).
  { cbn [lit list_ascii_of_string app forallb]. now rewrite Hm. }
  assert (Hleg : legal_name (lit "/" ++ m) = true).
  { unfold legal_name in *. cbn [lit list_ascii_of_string app existsb].
    apply negb_true_iff in Hlegal. now rewrite Hlegal. }
  change (lit "</" ++ m ++ lit ">" ++ rest)
    with (lit "<" ++ (lit "/" ++ m) ++ [] ++ lit ">" ++ rest).
  rewrite (tag_loop_body_head
             (state_at pre (t ++ lit "<" ++ (lit "/" ++ m) ++ []
                               ++ lit ">" ++ rest) current ps text)
             pre t ((lit "/" ++ m) ++ [] ++ lit ">" ++ rest) eq_refl Ht).
  rewrite Hu. cbn [catch_iterator bind]. cbv zeta.
  assert (En : tag_name_of ((lit "/" ++ m) ++ [] ++ lit ">" ++ rest)
               = lit "/" ++ m).
  { apply tag_name_of_app; [exact Hcls|reflexivity|reflexivity]. }
  rewrite En, skipn_app_length.
  destruct (not_special_name (lit "/" ++ m) eq_refl) as [E2 E3].
  rewrite E2, E3.
  rewrite (ordinary_tag_plain _ _ [] rest _ (lit "/" ++ m) []);
    [|discriminate|exact Hleg|reflexivity|reflexivity|reflexivity].
  cbv zeta. change (is_char (hd " "%char (lit "/" ++ m)) "/") with true.
  cbv iota. unfold closing_tag. cbn [length Nat.eqb negb].
  rewrite flush_text_name. cbn [state_at current_node].
  destruct (str_eqb (lit "/" ++ m) (lit "/" ++ name current)) eqn:E.
  { apply str_eqb_eq in E. injection E as E. contradiction. }
  cbn [negb bind]. reflexivity.
Qed.

(** The loop over the tags reads the opening tag of an element and the
    children that are closed already, and the element is open then. *)
Lemma tag_loop_render_open (ws : str) (n : xml_node) :
  forallb re_space ws = true -> open_formed n = true ->
  forall (fuel : nat) (pre rest : str) (current : xml_node)
         (ps : list xml_node),
    length (render_open ws n ++ rest) <= fuel ->
    exists pre',
      tag_loop fuel (state_at pre (render_open ws n ++ rest) current ps [])
      = tag_loop fuel (state_at pre' rest n (current :: ps) []).
Proof.
  intros Hws Hn fuel pre rest current ps Hfuel.
  pose proof (re_space_without "<" ws eq_refl Hws) as Hwlt.
  pose proof (unescape_xml_inner_text_plain ws Hwlt
                (re_space_without "&" ws eq_refl Hws)) as Hwu.
  unfold open_formed in Hn.
  apply andb_prop in Hn. destruct Hn as [Hn Hcs].
  apply andb_prop in Hn. destruct Hn as [Hn Hv].
  apply andb_prop in Hn. destruct Hn as [Hn Hgt].
  apply andb_prop in Hn. destruct Hn as [Hn Hsorted].
  apply andb_prop in Hn. destruct Hn as [Hname Hattrs].
  destruct (element_name_ok_parts _ Hname)
    as [Hn0 [Hcls [Hlegal [Hbang Hslash]]]].
  destruct n as [nm attrs v cs]. cbn [name attributes value nodes] in *.
  destruct v as [|x v]; [|discriminate Hv].
  unfold render_open in Hfuel |- *. cbn [name attributes nodes] in Hfuel |- *.
  set (A := flat_map render_attribute attrs) in *.
  assert (E : (ws ++ lit "<" ++ nm ++ A ++ lit ">" ++ flat_map (render ws) cs)
                ++ rest
              = ws ++ lit "<" ++ nm ++ A ++ lit ">"
                ++ flat_map (render ws) cs ++ rest).
  { now rewrite <- !app_assoc. }
  rewrite E in Hfuel |- *.
  destruct (tag_loop_body_open pre ws ws nm A (flat_map (render ws) cs ++ rest)
              attrs current ps [] Hwlt Hwu Hn0 Hcls Hlegal Hbang Hslash)
    as [pre1 E1].
  { now apply name_ends_flat_map_render_attribute. }
  { exact Hgt. }
  { apply last_flat_map_render_attribute. }
  { rewrite <- (app_nil_r A). now apply parse_xml_attributes_sorted. }
  rewrite tag_loop_pass_at; [|destruct ws; discriminate|exact Hfuel].
  rewrite E1. cbn [bind].
  rewrite (flush_text_blank current ([] ++ ws) Hws).
  destruct (tag_loop_children fuel ws (current :: ps) rest cs) with
    (pre := pre1)
    (current := {| name := nm; attributes := attrs; value := [];
                   nodes := [] |}) as [pre2 E2].
  { apply (forallb_Forall_impl well_formed); [|exact Hcs].
    apply Forall_forall. intros c _ Hc pre0 rest0 cur0 ps0 Hl.
    now apply tag_loop_render. }
  { rewrite !length_app in Hfuel. rewrite !length_app. lia. }
  exists pre2. rewrite E2. reflexivity.
Qed.

Lemma innermost_cons (o : xml_node) (opens : list xml_node)
    (current : xml_node) :
  innermost (o :: opens) current = innermost opens o.
Proof.
  unfold innermost. revert o current.
  induction opens as [|a l IH]; intros o current; [reflexivity|].
  change (last (o :: a :: l) current) with (last (a :: l) current).
  now rewrite !IH.
Qed.

Lemma innermost_name (opens : list xml_node) (c d : xml_node) :
  name c = name d -> name (innermost opens c) = name (innermost opens d).
Proof.
  intros H. destruct opens as [|o opens]; [exact H|].
  now rewrite !innermost_cons.
Qed.

Lemma innermost_open (opens : list xml_node) (o current : xml_node) :
  forallb open_formed (o :: opens) = true ->
  element_name_ok (name (innermost (o :: opens) current)) = true.
Proof.
  rewrite innermost_cons. revert o.
  induction opens as [|a l IH]; intros o H.
  - cbn [forallb] in H. rewrite andb_true_r in H. unfold open_formed in H.
    cbn [innermost last].
    do 5 (apply andb_prop in H; destruct H as [H _]). exact H.
  - rewrite innermost_cons. apply IH. cbn [forallb] in H |- *.
    now apply andb_prop in H.
Qed.

(** The opening tags of the elements [opens], each with its closed
    children behind it: the last of them is open then. *)
Lemma tag_loop_render_opens (ws : str) (opens : list xml_node) :
  forallb re_space ws = true -> forallb open_formed opens = true ->
  forall (fuel : nat) (pre rest : str) (current : xml_node)
         (ps : list xml_node),
    length (flat_map (render_open ws) opens ++ rest) <= fuel ->
    exists pre' ps',
      tag_loop fuel (state_at pre (flat_map (render_open ws) opens ++ rest)
                       current ps [])
      = tag_loop fuel (state_at pre' rest (innermost opens current) ps' []).
Proof.
  intros Hws. induction opens as [|o opens IH];
    intros Hopens fuel pre rest current ps Hfuel.
  - exists pre, ps. reflexivity.
  - cbn [forallb] in Hopens. apply andb_prop in Hopens.
    destruct Hopens as [Ho Hopens].
    cbn [flat_map] in Hfuel |- *. rewrite <- app_assoc in Hfuel |- *.
    destruct (tag_loop_render_open ws o Hws Ho fuel pre
                (flat_map (render_open ws) opens ++ rest) current ps Hfuel)
      as [pre1 E1].
    destruct (IH Hopens fuel pre1 rest o (current :: ps)) as [pre2 [ps2 E2]].
    { rewrite length_app in Hfuel. lia. }
    exists pre2, ps2. rewrite E1, E2. now rewrite innermost_cons.
Qed.

(** X21.  A closing tag with another name than the element that is open
    is reported, whichever element is open and whatever stands above it:
    as a tag without its opening tag when no element is open, and else
    for the closing tag that the open element misses.  This holds for a
    pass of the loop in every state, and for every text in which the
    closing tag stands behind closed elements of the top level and the
    opening tags of elements of any depth, each with closed children. *)
Theorem mismatched_closing_tag (t u m rest : str)
    (Ht : without "<" t = true) (Hu : unescape_xml_inner_text t = Return u)
    (Hm : forallb re_name_char m = true) (Hlegal : legal_name m = true) :
  (forall (pre : str) (current : xml_node) (ps : list xml_node) (text : str),
      m <> name current ->
      tag_loop_body
        (state_at pre (t ++ lit "</" ++ m ++ lit ">" ++ rest) current ps text)
      = Throw (match name current with
               | [] => Missing_an_opening_tag
               | _ :: _ => Missing_an_closing_tag
               end))
  /\ (forall (ws : str) (cs opens : list xml_node),
         forallb re_space ws = true ->
         forallb well_formed cs = true ->
         forallb open_formed opens = true ->
         m <> name (innermost opens new_node) ->
         parse_xml (xml_decl ++ flat_map (render ws) cs
                      ++ flat_map (render_open ws) opens
                      ++ t ++ lit "</" ++ m ++ lit ">" ++ rest)
         = Throw (match opens with
                  | [] => Missing_an_opening_tag
                  | _ :: _ => Missing_an_closing_tag
                  end)).
Proof.
  split.
  - intros pre current ps text Hne.
    now apply (tag_loop_body_mismatch pre t u m rest current ps text).
  - intros ws cs opens Hws Hcs Hopens Hne.
    set (tail := t ++ lit "</" ++ m ++ lit ">" ++ rest).
    set (body := flat_map (render ws) cs ++ flat_map (render_open ws) opens
                   ++ tail).
    rewrite parse_xml_body. fold body.
    change {| cursor := cursor_at xml_decl body; current_node := new_node;
              parents := []; inner_text_before_tag := [] |}
      with (state_at xml_decl body new_node [] []).
    assert (Hlen : length body <= length (xml_decl ++ body)).
    { rewrite (length_app xml_decl). lia. }
    destruct (tag_loop_children (length (xml_decl ++ body)) ws []
                (flat_map (render_open ws) opens ++ tail) cs)
      with (pre := xml_decl) (current := new_node) as [pre1 E1].
    { apply (forallb_Forall_impl well_formed); [|exact Hcs].
      apply Forall_forall. intros c _ Hc pre0 rest0 cur0 ps0 Hl.
      now apply tag_loop_render. }
    { exact Hlen. }
    unfold body at 2. rewrite E1.
    set (top := set_nodes new_node (nodes new_node ++ cs)).
    assert (Hlen2 : length (flat_map (render_open ws) opens ++ tail)
                    <= length (xml_decl ++ body)).
    { assert (Hb : length body
                   = length (flat_map (render ws) cs)
                     + length (flat_map (render_open ws) opens ++ tail))
        by (unfold body; apply length_app).
      lia. }
    destruct (tag_loop_render_opens ws opens Hws Hopens
                (length (xml_decl ++ body)) pre1 tail top [] Hlen2)
      as [pre2 [ps2 E2]].
    rewrite E2.
    rewrite tag_loop_pass_at;
      [|unfold tail; destruct t; discriminate
       |rewrite length_app in Hlen2; lia].
    unfold tail.
    rewrite (tag_loop_body_mismatch pre2 t u m rest _ ps2 [] Ht Hu Hm Hlegal).
    + cbn [bind]. unfold mismatch_error.
      destruct opens as [|o opens]; [reflexivity|].
      pose proof (innermost_open opens o top Hopens) as Hname.
      destruct (element_name_ok_parts _ Hname) as [Hn0 _].
      destruct (name (innermost (o :: opens) top)); [contradiction|reflexivity].
    + now rewrite (innermost_name opens top new_node eq_refl).
Qed.

Lemma mismatched_closing_tag_witness :
  parse_xml (xml_decl ++ lit "</a>") = Throw Missing_an_opening_tag
  /\ parse_xml (xml_decl ++ lit "<a /></b>") = Throw Missing_an_opening_tag
  /\ parse_xml (xml_decl ++ lit "<b>text</a>") = Throw Missing_an_closing_tag
  /\ parse_xml (xml_decl ++ lit "<a><b /><c><d>x</d>text</e>")
     = Throw Missing_an_closing_tag.
Proof.
  split; [|split; [|split]].
  - apply (proj2 (mismatched_closing_tag [] [] (lit "a") []
                    eq_refl eq_refl eq_refl eq_refl) [] [] []);
      try reflexivity. discriminate.
  - apply (proj2 (mismatched_closing_tag [] [] (lit "b") []
                    eq_refl eq_refl eq_refl eq_refl)
             [] [element (lit "a") [] []] []);
      try reflexivity. discriminate.
  - apply (proj2 (mismatched_closing_tag (lit "text") (lit "text") (lit "a") []
                    eq_refl eq_refl eq_refl eq_refl)
             [] [] [element (lit "b") [] []]);
      try reflexivity. discriminate.
  - apply (proj2 (mismatched_closing_tag (lit "text") (lit "text") (lit "e") []
                    eq_refl eq_refl eq_refl eq_refl)
             [] []
             [element (lit "a") [] [element (lit "b") [] []];
              element (lit "c") [] [element (lit "d") (lit "x") []]]);
      try reflexivity. discriminate.
Defined.

(** X22.  A closing tag with the mark [/>] is refused for the mark,
    before its name is looked at; a closing tag with the name of the open
    element and attributes is refused for the attributes. *)
Theorem closing_tag_with_mark_or_attributes
    (t u n m a rest : str) (attrs : attribute_map)
    (Ht : without "<" t = true) (Hu : unescape_xml_inner_text t = Return u)
    (Ha : without ">" a = true)
    (Hattrs : parse_xml_attributes a = Return attrs) :
  (forallb re_name_char m = true -> legal_name m = true ->
   name_ends (a ++ lit "/") = true ->
   parse_xml (xml_decl ++ t ++ lit "</" ++ m ++ a ++ lit "/>" ++ rest)
   = Throw Closing_tag_self_closing)
  /\ (element_name_ok n = true -> name_ends (a ++ lit ">") = true ->
      is_char (last a " "%char) "/" = false -> attrs <> [] ->
      parse_xml (xml_decl ++ lit "<" ++ n ++ lit ">" ++ t ++ lit "</" ++ n
                   ++ a ++ lit ">" ++ rest)
      = Throw Closing_tag_can_not_have_attributes).
Proof.
  split.
  - intros Hm Hlegal Hends.
    assert (Hcls : forallb re_name_char (lit "/" ++ m) = true).
    { cbn [lit list_ascii_of_string app forallb]. now rewrite Hm. }
    assert (Hleg : legal_name (lit "/" ++ m) = true).
    { unfold legal_name in *. cbn [lit list_ascii_of_string app existsb].
      apply negb_true_iff in Hlegal. now rewrite Hlegal. }
    apply parse_xml_first_pass; [apply app_lt_not_nil|].
    change (tag_loop_body
              (initial_state (t ++ lit "<" ++ (lit "/" ++ m) ++ a
                                ++ lit "/>" ++ rest))
            = Throw Closing_tag_self_closing).
    rewrite (first_pass_head t ((lit "/" ++ m) ++ a ++ lit "/>" ++ rest) u
               Ht Hu).
    assert (En : tag_name_of ((lit "/" ++ m) ++ a ++ lit "/>" ++ rest)
                 = lit "/" ++ m).
    { apply tag_name_of_app; [exact Hcls|reflexivity|].
      destruct a; exact Hends. }
    rewrite En. cbv zeta. rewrite skipn_app_length.
    destruct (not_special_name (lit "/" ++ m) eq_refl) as [E1 E2].
    rewrite E1, E2.
    rewrite (ordinary_tag_mark _ _ a rest u (lit "/" ++ m) attrs);
      [|discriminate|exact Hleg|exact Ha|exact Hattrs].
    reflexivity.
  - intros Hn Hends Hl Hne.
    destruct (element_name_ok_parts n Hn)
      as [Hn0 [Hncls [Hnlegal [Hbang Hslash]]]].
    assert (Hcls : forallb re_name_char (lit "/" ++ n) = true).
    { cbn [lit list_ascii_of_string app forallb]. now rewrite Hncls. }
    assert (Hleg : legal_name (lit "/" ++ n) = true).
    { unfold legal_name in *. cbn [lit list_ascii_of_string app existsb].
      apply negb_true_iff in Hnlegal. now rewrite Hnlegal. }
    rewrite parse_xml_body.
    destruct (tag_loop_body_open xml_decl [] [] n []
                (t ++ lit "</" ++ n ++ a ++ lit ">" ++ rest)
                [] new_node [] [] eq_refl eq_refl Hn0 Hncls Hnlegal Hbang
                Hslash eq_refl eq_refl eq_refl eq_refl) as [pre1 E1].
    change {| cursor := cursor_at xml_decl
                          (lit "<" ++ n ++ lit ">" ++ t ++ lit "</" ++ n
                             ++ a ++ lit ">" ++ rest);
              current_node := new_node; parents := [];
              inner_text_before_tag := [] |}
      with (state_at xml_decl
              ([] ++ lit "<" ++ n ++ [] ++ lit ">" ++ t ++ lit "</" ++ n
                 ++ a ++ lit ">" ++ rest) new_node [] []).
    rewrite tag_loop_pass_at; [|discriminate|text_length].
    rewrite E1. cbn [bind].
    rewrite tag_loop_pass_at; [|destruct t; discriminate|text_length].
    change (lit "</" ++ n ++ a ++ lit ">" ++ rest)
      with (lit "<" ++ (lit "/" ++ n) ++ a ++ lit ">" ++ rest).
    rewrite (tag_loop_body_head
               (state_at pre1 (t ++ lit "<" ++ (lit "/" ++ n) ++ a
                                 ++ lit ">" ++ rest)
                  {| name := n; attributes := []; value := []; nodes := [] |}
                  [flush_text new_node ([] ++ [])] [])
               pre1 t ((lit "/" ++ n) ++ a ++ lit ">" ++ rest) eq_refl Ht).
    rewrite Hu. cbn [catch_iterator bind]. cbv zeta.
    assert (En : tag_name_of ((lit "/" ++ n) ++ a ++ lit ">" ++ rest)
                 = lit "/" ++ n).
    { apply tag_name_of_app; [exact Hcls|reflexivity|].
      destruct a; exact Hends. }
    rewrite En, skipn_app_length.
    destruct (not_special_name (lit "/" ++ n) eq_refl) as [E2 E3].
    rewrite E2, E3.
    rewrite (ordinary_tag_plain _ _ a rest _ (lit "/" ++ n) attrs);
      [|discriminate|exact Hleg|exact Ha|exact Hl|exact Hattrs].
    cbv zeta. change (is_char (hd " "%char (lit "/" ++ n)) "/") with true.
    cbv iota. unfold closing_tag. cbn [length Nat.eqb negb].
    rewrite flush_text_name. cbn [state_at current_node name].
    replace (str_eqb (lit "/" ++ n) (lit "/" ++ n)) with true
      by (symmetry; now apply str_eqb_eq).
    cbn [negb]. destruct attrs; [contradiction|reflexivity].
Qed.

Lemma closing_tag_with_mark_or_attributes_witness :
  parse_xml (xml_decl ++ lit "</a />") = Throw Closing_tag_self_closing
  /\ parse_xml (xml_decl ++ lit "<a></a id='1'>")
     = Throw Closing_tag_can_not_have_attributes.
Proof.
  split.
  - apply (proj1 (closing_tag_with_mark_or_attributes [] [] [] (lit "a")
                    (lit " ") [] [] eq_refl eq_refl eq_refl eq_refl));
      reflexivity.
  - apply (proj2 (closing_tag_with_mark_or_attributes [] [] (lit "a") []
                    (lit " id='1'") [] [(lit "id", lit "1")]
                    eq_refl eq_refl eq_refl eq_refl));
      try reflexivity. discriminate.
Defined.

Lemma parse_xml_first_pass_iterator (body : str) :
  body <> [] ->
  tag_loop_body (initial_state body) = Throw_iterator ->
  parse_xml (xml_decl ++ body) = Throw_iterator.
Proof.
  intros Hbody H. rewrite parse_xml_body.
  change {| cursor := cursor_at xml_decl body; current_node := new_node;
            parents := []; inner_text_before_tag := [] |}
    with (initial_state body).
  rewrite (tag_loop_pass _ (initial_state body) xml_decl body eq_refl Hbody)
    by (rewrite length_app; lia).
  now rewrite H.
Qed.

(** X4.  A tag whose name has one of [<'\x22&] in it ends [parse_xml]
    with the iterator that [validate_tag_name] throws, which is no
    [xml_error]: no [catch] stands around that call. *)
Theorem tag_with_illegal_name (t u n r : str)
    (Ht : without "<" t = true) (Hu : unescape_xml_inner_text t = Return u)
    (Hn0 : n <> []) (Hn : forallb re_name_char n = true)
    (Hbang : is_char (hd " "%char n) "!" = false)
    (Hr : name_ends r = true)
    (Hillegal : legal_name n = false) :
  validate_tag_name n = Throw_iterator
  /\ parse_xml (xml_decl ++ t ++ lit "<" ++ n ++ r) = Throw_iterator.
Proof.
  assert (Hv : validate_tag_name n = Throw_iterator).
  { unfold validate_tag_name, std_regex_search, re_illegal_in_tag_name.
    unfold legal_name in Hillegal. apply negb_false_iff in Hillegal.
    rewrite search_class, Hillegal. reflexivity. }
  split; [exact Hv|].
  apply parse_xml_first_pass_iterator; [apply app_lt_not_nil|].
  rewrite (first_pass_head t (n ++ r) u Ht Hu).
  rewrite (tag_name_of_app n r Hn Hbang Hr). cbv zeta.
  destruct (not_special_name n Hbang) as [E1 E2]. rewrite E1, E2.
  unfold ordinary_tag. destruct n as [|c n']; [contradiction|].
  cbn [length Nat.eqb]. now rewrite Hv.
Qed.

Lemma tag_with_illegal_name_witness :
  parse_xml (xml_decl ++ lit "<R&D>") = Throw_iterator.
Proof.
  apply (tag_with_illegal_name [] [] (lit "R&D") (lit ">"));
    try discriminate; reflexivity.
Defined.

(** ** The position in an error message *)

Lemma re_dot_not_lf (l : str) :
  forallb re_dot l = true -> without "010" l = true.
Proof.
  unfold without. induction l as [|c l IH]; [reflexivity|].
  cbn [forallb]. intros H. apply andb_prop in H. destruct H as [Hc Hl].
  rewrite (IH Hl), andb_true_r. unfold is_char.
  destruct (Ascii.eqb c "010") eqn:E; [|reflexivity].
  apply Ascii.eqb_eq in E. subst c. discriminate Hc.
Qed.

(** A line without a carriage return is matched with its line feed. *)
Lemma re_line_match (l rest : str) :
  forallb re_dot l = true ->
  std_regex_search (l ++ "010"%char :: rest) re_line
  = Some [(0, l ++ ["010"%char])].
Proof.
  intros Hl. unfold std_regex_search. apply search_from_here.
  unfold re_line, star. cbn [seq fold_right run].
  apply rep_greedy_run; [exact Hl|reflexivity|lia|].
  cbn [strip_prefix]. rewrite Ascii.eqb_refl. cbn [length].
  f_equal. f_equal. f_equal.
  apply (firstn_exact _ _ _ rest);
    [now rewrite <- app_assoc|rewrite length_app; cbn [length]; lia].
Qed.

Lemma re_line_none (s : str) :
  without "010" s = true -> std_regex_search s re_line = None.
Proof.
  intros Hs. unfold std_regex_search. generalize 0.
  induction s as [|c t IH]; intros pos.
  - reflexivity.
  - assert (Ht : without "010" t = true).
    { cbn in Hs. now apply andb_prop in Hs. }
    cbn [search_from]. rewrite (IH Ht).
    replace (run (Grp 0 re_line) (fun _ _ m => Some m) pos (c :: t) [])
      with (@None smatch); [reflexivity|].
    symmetry. unfold re_line, star.
    cbn [seq fold_right run]. apply rep_none. intros n _ _.
    now rewrite (skipn_no_char "010" _ n Hs).
Qed.

Lemma position_of_loop_lines (ls : list str) (last : str) :
  forallb (forallb re_dot) ls = true -> without "010" last = true ->
  forall fuel line : nat,
    position_of_loop (fuel + length ls) line
      (flat_map (fun l => l ++ ["010"%char]) ls ++ last)
    = Return (line + length ls, last).
Proof.
  intros Hls Hlast. induction ls as [|l ls IH]; intros fuel line.
  - cbn [flat_map app length]. rewrite !Nat.add_0_r.
    destruct fuel; cbn [position_of_loop]; now rewrite (re_line_none _ Hlast).
  - cbn [forallb] in Hls. apply andb_prop in Hls. destruct Hls as [Hl Hls].
    cbn [flat_map length]. rewrite Nat.add_succ_r.
    rewrite <- !app_assoc. cbn [app position_of_loop].
    rewrite (re_line_match l _ Hl). cbn [sub_match Nat.eqb].
    replace (l ++ "010"%char :: flat_map (fun l0 => l0 ++ ["010"%char]) ls ++ last)
      with ((l ++ ["010"%char])
              ++ flat_map (fun l0 => l0 ++ ["010"%char]) ls ++ last)
      by (now rewrite <- app_assoc).
    rewrite skipn_app_length, (IH Hls). f_equal. f_equal. lia.
Qed.

(** X23.  For a range of lines without carriage returns [position_of]
    gives the number of the last line, counted from one, and the column
    behind what stands on it. *)
Theorem position_of_lines (ls : list str) (last : str)
    (Hls : forallb (forallb re_dot) ls = true)
    (Hlast : without "010" last = true) :
  position_of (flat_map (fun l => l ++ ["010"%char]) ls ++ last)
  = Return (lit "on line " ++ to_string (1 + length ls) ++ lit " at column "
              ++ to_string (length last + 1)).
Proof.
  unfold position_of.
  set (range := flat_map (fun l => l ++ ["010"%char]) ls ++ last).
  assert (Hlen : length ls <= length range).
  { unfold range. rewrite length_app. clear.
    induction ls as [|l ls IH]; [cbn; lia|].
    cbn [flat_map length]. rewrite !length_app. cbn [length]. lia. }
  replace (length range) with ((length range - length ls) + length ls) by lia.
  unfold range. rewrite (position_of_loop_lines ls last Hls Hlast).
  reflexivity.
Qed.

Lemma position_of_lines_witness :
  position_of (lit "<?xml?>" ++ ["010"%char] ++ lit "<a>" ++ ["010"%char]
                 ++ lit "  <")
  = Return (lit "on line 3 at column 4").
Proof.
  apply (position_of_lines [lit "<?xml?>"; lit "<a>"] (lit "  <"));
    reflexivity.
Defined.

(** In front of a carriage return there is no match, also not one that
    starts further to the left. *)
Lemma re_line_not_before_cr (x rest : str) (pos : nat) :
  forallb re_dot x = true ->
  run (Grp 0 re_line) (fun _ _ m => Some m) pos (x ++ "013"%char :: rest) []
  = None.
Proof.
  intros Hx.
  assert (Hs : forall n,
             forallb re_dot (firstn n (x ++ "013"%char :: rest)) = true ->
             strip_prefix ["010"%char] (skipn n (x ++ "013"%char :: rest))
             = None).
  { induction x as [|c x IH]; intros n Hn.
    - destruct n as [|n]; [reflexivity|]. cbn in Hn. discriminate Hn.
    - cbn in Hx. apply andb_prop in Hx. destruct Hx as [Hc Hx].
      destruct n as [|n].
      + cbn [skipn app strip_prefix].
        destruct (Ascii.eqb "010" c) eqn:E; [|reflexivity].
        apply Ascii.eqb_eq in E. subst c. discriminate Hc.
      + cbn [app firstn forallb skipn] in Hn |- *.
        apply andb_prop in Hn. destruct Hn as [_ Hn]. now apply IH. }
  unfold re_line, star. cbn [seq fold_right run].
  apply rep_none. intros n _ Hn. now rewrite (Hs n Hn).
Qed.

Lemma search_from_next (e : re) (pos : nat) (c : ascii) (t : str) :
  run (Grp 0 e) (fun _ _ m => Some m) pos (c :: t) [] = None ->
  search_from e pos (c :: t) = search_from e (S pos) t.
Proof. intros H. cbn [search_from]. now rewrite H. Qed.

(** The match in a line that ends with a carriage return and a line feed
    is the line feed alone. *)
Lemma re_line_match_crlf (x rest : str) :
  forallb re_dot x = true ->
  std_regex_search (x ++ "013"%char :: "010"%char :: rest) re_line
  = Some [(0, ["010"%char])].
Proof.
  intros Hx. unfold std_regex_search.
  assert (H : forall pos,
             search_from re_line pos (x ++ "013"%char :: "010"%char :: rest)
             = Some [(0, ["010"%char])]); [|apply H].
  induction x as [|c x IH]; intros pos.
  - cbn [app]. rewrite search_from_next
      by (apply (re_line_not_before_cr [] ("010"%char :: rest) pos eq_refl)).
    apply search_from_here. unfold re_line, star.
    cbn [seq fold_right run rep]. change (re_dot "010") with false.
    cbv iota. cbn [Nat.eqb strip_prefix]. rewrite Ascii.eqb_refl.
    cbn [length]. replace (S pos + 1 - S pos) with 1 by lia. reflexivity.
  - pose proof Hx as Hx'. cbn in Hx. apply andb_prop in Hx.
    destruct Hx as [_ Hx].
    change ((c :: x) ++ "013"%char :: "010"%char :: rest)
      with (c :: (x ++ "013"%char :: "010"%char :: rest)).
    rewrite search_from_next
      by (apply (re_line_not_before_cr (c :: x) ("010"%char :: rest) pos Hx')).
    now apply IH.
Qed.

Lemma position_of_loop_crlf_line (x rest : str) :
  forallb re_dot x = true ->
  forall fuel line : nat,
    position_of_loop (fuel + (length x + 2)) line
      (x ++ "013"%char :: "010"%char :: rest)
    = position_of_loop fuel (line + (length x + 2)) rest.
Proof.
  intros Hx. induction x as [|c x IH]; intros fuel line.
  - cbn [app length]. replace (fuel + (0 + 2)) with (S (S fuel)) by lia.
    pose proof (re_line_match_crlf [] rest eq_refl) as E1.
    pose proof (re_line_match [] rest eq_refl) as E2.
    cbn [app] in E1, E2.
    cbn [position_of_loop]. rewrite E1.
    cbn [sub_match Nat.eqb length skipn]. rewrite E2.
    cbn [sub_match Nat.eqb length skipn app].
    f_equal. lia.
  - pose proof Hx as Hx'. cbn in Hx. apply andb_prop in Hx.
    destruct Hx as [_ Hx].
    cbn [length]. replace (fuel + (S (length x) + 2))
      with (S (fuel + (length x + 2))) by lia.
    pose proof (re_line_match_crlf (c :: x) rest Hx') as E1.
    cbn [app] in E1. cbn [app position_of_loop]. rewrite E1.
    cbn [sub_match Nat.eqb length skipn].
    rewrite (IH Hx). f_equal. lia.
Qed.

Lemma position_of_loop_crlf (ls : list str) (last : str) :
  forallb (forallb re_dot) ls = true -> without "010" last = true ->
  forall fuel line : nat,
    position_of_loop
      (fuel + length (flat_map (fun l => l ++ ["013"%char; "010"%char]) ls))
      line
      (flat_map (fun l => l ++ ["013"%char; "010"%char]) ls ++ last)
    = Return (line + length (flat_map (fun l => l ++ ["013"%char; "010"%char])
                               ls),
              last).
Proof.
  intros Hls Hlast. induction ls as [|l ls IH]; intros fuel line.
  - cbn [flat_map app length]. rewrite !Nat.add_0_r.
    destruct fuel; cbn [position_of_loop]; now rewrite (re_line_none _ Hlast).
  - cbn [forallb] in Hls. apply andb_prop in Hls. destruct Hls as [Hl Hls].
    cbn [flat_map]. rewrite !length_app. cbn [length].
    rewrite <- !app_assoc. cbn [app].
    replace (fuel + (length l + 2
                     + length (flat_map (fun l0 => l0 ++ ["013"%char; "010"%char])
                                 ls)))
      with ((fuel
             + length (flat_map (fun l0 => l0 ++ ["013"%char; "010"%char]) ls))
            + (length l + 2)) by lia.
    rewrite (position_of_loop_crlf_line l _ Hl), (IH Hls).
    f_equal. f_equal. lia.
Qed.

(** X24.  Where the lines end with a carriage return and a line feed, the
    line that [position_of] gives is not the number of the line: every
    byte of the lines in front of the last one is counted as a line. *)
Theorem position_of_crlf_lines (ls : list str) (last : str)
    (Hls : forallb (forallb re_dot) ls = true)
    (Hlast : without "010" last = true) :
  position_of (flat_map (fun l => l ++ ["013"%char; "010"%char]) ls ++ last)
  = Return (lit "on line "
              ++ to_string (1 + length (flat_map
                                          (fun l => l ++ ["013"%char; "010"%char])
                                          ls))
              ++ lit " at column " ++ to_string (length last + 1)).
Proof.
  unfold position_of. rewrite length_app.
  rewrite (Nat.add_comm _ (length last)).
  rewrite (position_of_loop_crlf ls last Hls Hlast). reflexivity.
Qed.

Lemma position_of_crlf_lines_witness :
  position_of (lit "<?xml?>" ++ ["013"%char; "010"%char] ++ lit "  <")
  = Return (lit "on line 10 at column 4").
Proof.
  apply (position_of_crlf_lines [lit "<?xml?>"] (lit "  <")); reflexivity.
Defined.

Lemma position_of_loop_returns (fuel : nat) :
  forall (line : nat) (from : str),
    length from <= fuel ->
    exists line' from',
      position_of_loop fuel line from = Return (line', from')
      /\ line <= line' <= line + length from
      /\ length from' <= length from.
Proof.
  induction fuel as [|fuel IH]; intros line from Hfuel.
  - destruct from as [|c t]; [|cbn in Hfuel; lia].
    exists line, []. cbn. repeat split; lia.
  - cbn [position_of_loop].
    destruct (std_regex_search from re_line) as [m|] eqn:E.
    + apply std_regex_search_length in E.
      change (min_length re_line) with 1 in E.
      destruct (IH (line + 1) (skipn (length (sub_match m 0)) from))
        as [line' [from' [H [Hline Hfrom]]]].
      { rewrite length_skipn. lia. }
      rewrite length_skipn in Hline, Hfrom.
      exists line', from'. rewrite H. repeat split; lia.
    + exists line, from. repeat split; lia.
Qed.

(** X30.  [position_of] returns for every range: each match of its loop
    takes a byte at least, so the loop ends, and neither the line nor the
    column is more than one above the number of bytes of the range. *)
Theorem position_of_returns (range : str) :
  exists line column,
    position_of range
    = Return (lit "on line " ++ to_string line ++ lit " at column "
                ++ to_string column)
    /\ 1 <= line <= 1 + length range
    /\ 1 <= column <= 1 + length range.
Proof.
  destruct (position_of_loop_returns (length range) 1 range (le_n _))
    as [line [from [H [Hline Hfrom]]]].
  exists line, (length from + 1). unfold position_of. rewrite H.
  cbn [bind]. repeat split; lia.
Qed.

(** ** [description] and [inner_text] *)

(** X25.  A text with nothing but white space behind the declaration is
    read as a document whose [description] is not defined: it has no
    root, and [description] reads the root without a check. *)
Theorem description_without_root (t : str)
    (Ht : forallb re_space t = true) :
  exists doc,
    parse_xml (xml_decl ++ t) = Return doc
    /\ xml_document_description doc = None.
Proof.
  exists (document_of None). split; [|reflexivity].
  pose proof (re_space_without "<" t eq_refl Ht) as Hlt.
  rewrite (parse_xml_at_stop t xml_decl t new_node [] []);
    [now rewrite Ht| |exact Hlt].
  apply (tag_loop_tail _ xml_decl t new_node [] [] Hlt).
  rewrite length_app. lia.
Qed.

Lemma description_without_root_witness :
  exists doc,
    parse_xml (xml_decl ++ ["010"%char]) = Return doc
    /\ xml_document_description doc = None.
Proof. apply (description_without_root ["010"%char]). reflexivity. Defined.

Lemma count_lines_app (a b : str) :
  count_lines (a ++ b) = count_lines a + count_lines b.
Proof. unfold count_lines. now rewrite filter_app, length_app. Qed.

Lemma count_lines_without (s : str) :
  without "010" s = true -> count_lines s = 0.
Proof.
  unfold count_lines, without. induction s as [|c s IH]; [reflexivity|].
  cbn [forallb filter]. intros H. apply andb_prop in H. destruct H as [Hc Hs].
  apply negb_true_iff in Hc. rewrite Hc. now apply IH.
Qed.

Lemma count_lines_repeat (n : nat) : count_lines (repeat " "%char n) = 0.
Proof. induction n as [|n IH]; [reflexivity|exact IH]. Qed.

Lemma description_eq (node : xml_node) (indent : nat) :
  description node indent
  = repeat " "%char indent ++ lit "+ " ++ name node
    ++ flat_map (fun attribute => lit ", " ++ fst attribute ++ lit "="
                                    ++ snd attribute)
         (attributes node)
    ++ (if negb (length (value node) =? 0) then lit ", " ++ value node else [])
    ++ ["010"%char]
    ++ flat_map (fun child => description child (indent + 1)) (nodes node).
Proof. destruct node; reflexivity. Qed.

Lemma count_nodes_eq (n : xml_node) :
  count_nodes n = 1 + list_sum (map count_nodes (nodes n)).
Proof. destruct n; reflexivity. Qed.

(** X26.  [description] writes one line for every node of the tree, when
    no name, key or value holds a line feed. *)
Theorem description_lines (node : xml_node) (indent : nat)
    (H : all_nodes one_line node = true) :
  count_lines (description node indent) = count_nodes node.
Proof.
  revert indent H. induction node as [node IH] using xml_node_nested_ind.
  intros indent H. rewrite all_nodes_eq in H.
  apply andb_prop in H. destruct H as [Hone Hkids].
  unfold one_line in Hone. apply andb_prop in Hone. destruct Hone as [Hone Hv].
  apply andb_prop in Hone. destruct Hone as [Hn Ha].
  rewrite description_eq, count_nodes_eq, !count_lines_app.
  rewrite count_lines_repeat, (count_lines_without _ Hn).
  assert (Eattrs : count_lines
                     (flat_map (fun attribute => lit ", " ++ fst attribute
                                                   ++ lit "=" ++ snd attribute)
                        (attributes node)) = 0).
  { revert Ha. generalize (attributes node) as l.
    induction l as [|[k w] l IHl]; intros Ha; [reflexivity|].
    cbn [forallb fst snd] in Ha. apply andb_prop in Ha. destruct Ha as [Ha Hl].
    apply andb_prop in Ha. destruct Ha as [Hk Hw].
    cbn [flat_map fst snd]. rewrite !count_lines_app.
    now rewrite (count_lines_without k Hk), (count_lines_without w Hw),
      (IHl Hl). }
  assert (Evalue : forall s : list ascii,
             s = (if negb (length (value node) =? 0)
                  then lit ", " ++ value node else []) ->
             count_lines s = 0).
  { intros s ->. destruct (negb (length (value node) =? 0)); [|reflexivity].
    rewrite count_lines_app. now rewrite (count_lines_without _ Hv). }
  rewrite Eattrs, (Evalue _ eq_refl).
  assert (Ekids : count_lines
                    (flat_map (fun child => description child (indent + 1))
                       (nodes node))
                  = list_sum (map count_nodes (nodes node))).
  { revert Hkids. induction IH as [|c l Hc _ IHl]; intros Hkids;
      [reflexivity|].
    cbn [forallb] in Hkids. apply andb_prop in Hkids.
    destruct Hkids as [Hck Hl].
    cbn [flat_map map list_sum]. rewrite count_lines_app.
    now rewrite (Hc (indent + 1) Hck), (IHl Hl). }
  rewrite Ekids. reflexivity.
Qed.

Lemma description_lines_witness :
  count_lines
    (description
       {| name := lit "a"; attributes := [(lit "k", lit "v")]; value := [];
          nodes := [element (lit "b") (lit "x") []; element (lit "c") [] []] |}
       0)
  = 3.
Proof.
  apply (description_lines
           {| name := lit "a"; attributes := [(lit "k", lit "v")]; value := [];
              nodes := [element (lit "b") (lit "x") [];
                        element (lit "c") [] []] |} 0).
  reflexivity.
Defined.

Lemma inner_text_eq (n : xml_node) :
  inner_text n = value n ++ flat_map inner_text (nodes n).
Proof. destruct n; reflexivity. Qed.

(** X27.  The closing tag leaves the text of the tree as it is: the
    element that it closes is attached to its parent with the
    [inner_text] that it had, also when its only child, a text, has become
    its value.  A child named [#text] that has children of its own is
    another matter: they are dropped with it. *)
Theorem closing_tag_keeps_inner_text
    (st st' : parse_state) (c : string_cursor) (current p : xml_node)
    (ps : list xml_node) (tag_name mark : str) (attrs : attribute_map)
    (H : closing_tag st c current tag_name mark attrs = Return st')
    (Hp : parents st = p :: ps)
    (Hopen : value current = [])
    (Hleaf : forall child, nodes current = [child] ->
                           name child = lit "#text" -> nodes child = []) :
  inner_text (current_node st') = inner_text p ++ inner_text current.
Proof.
  unfold closing_tag in H.
  destruct (negb (length mark =? 0)); [discriminate H|].
  destruct (negb (str_eqb tag_name (lit "/" ++ name current)));
    [discriminate H|].
  destruct (negb (map_empty attrs)); [discriminate H|].
  rewrite Hp in H. injection H as <-. cbn [current_node].
  unfold push_back, set_nodes. rewrite (inner_text_eq p).
  rewrite inner_text_eq. cbn [value nodes].
  rewrite flat_map_app, <- app_assoc. f_equal. f_equal.
  cbn [flat_map]. rewrite app_nil_r.
  destruct (nodes current) as [|child [|child2 others]] eqn:En;
    try reflexivity.
  match goal with
  | |- context [if ?b then _ else _] => destruct b eqn:E
  end; [|reflexivity].
  apply str_eqb_eq in E.
  rewrite (inner_text_eq current), Hopen, En.
  unfold set_nodes, set_value. rewrite inner_text_eq.
  cbn [value nodes flat_map app]. rewrite !app_nil_r.
  rewrite (inner_text_eq child), (Hleaf child eq_refl E).
  cbn [flat_map]. now rewrite app_nil_r.
Qed.

Lemma closing_tag_keeps_inner_text_witness :
  inner_text (push_back new_node (element (lit "a") (lit "x") []))
  = inner_text new_node
    ++ inner_text (element (lit "a") [] [element (lit "#text") (lit "x") []]).
Proof.
  apply (closing_tag_keeps_inner_text
           (state_at [] [] (element (lit "a") [] []) [new_node] [])
           (state_at [] [] (push_back new_node (element (lit "a") (lit "x") []))
              [] [])
           (cursor_at [] [])
           (element (lit "a") [] [element (lit "#text") (lit "x") []])
           new_node [] (lit "/a") [] []).
  - reflexivity.
  - reflexivity.
  - reflexivity.
  - intros child [= <-] _. reflexivity.
Defined.

(** ** Where a match is found *)

(** X28.  The patterns that [parse_xml] gives to [bb::regex_search] start
    with [^], so the match stands at the cursor, and moving the cursor by
    the length of the match puts it behind the match. *)
Theorem regex_search_anchored (e : re) (c c' : string_cursor) (m : smatch)
    (He : In e [re_xml_declaration; re_tag_head; re_comment_end;
                re_cdata_end; re_tag_end; re_comment_head])
    (H : regex_search c e = Some (c', m)) :
  cursor_text c' = cursor_text c
  /\ cursor_rest c = sub_match m 0 ++ cursor_rest c'.
Proof.
  assert (Hr : exists r, e = Seq Bol r).
  { cbn [In] in He.
    repeat (destruct He as [<-|He]; [eexists; reflexivity|]).
    contradiction. }
  destruct Hr as [r ->]. unfold regex_search in H.
  destruct (std_regex_search (cursor_rest c) (Seq Bol r)) as [m'|] eqn:E;
    [|discriminate H].
  injection H as <- <-. split; [reflexivity|].
  unfold std_regex_search in E. rewrite search_from_anchored in E.
  cbn [run] in E. apply run_inv in E. destruct E as [n [m0 [Hn E]]].
  injection E as <-. cbn [sub_match Nat.eqb].
  rewrite ?Nat.add_0_l, ?Nat.sub_0_r.
  unfold cursor_rest at 3. cbn [current cursor_text].
  rewrite length_firstn, (Nat.min_l n) by lia.
  rewrite (Nat.add_comm (current c) n), <- skipn_skipn.
  fold (cursor_rest c). now rewrite firstn_skipn.
Qed.

Lemma regex_search_anchored_witness :
  cursor_rest (make_string_cursor (lit "a <b>c"))
  = lit "a <b" ++ cursor_rest (cursor_at (lit "a <b") (lit ">c")).
Proof.
  apply (regex_search_anchored re_tag_head
           (make_string_cursor (lit "a <b>c"))
           (cursor_at (lit "a <b") (lit ">c"))
           [(0, lit "a <b"); (2, lit "b"); (3, lit "b"); (1, lit "a ")]).
  - right. left. reflexivity.
  - vm_compute. reflexivity.
Defined.

(** An attribute is matched where it stands, also behind the start of the
    range. *)
Lemma re_attribute_run (pos : nat) (ws k v rest : str) (q : ascii) :
  ws <> [] -> forallb re_space ws = true ->
  k <> [] -> forallb (none_of (lit "=")) k = true ->
  re_space (hd " "%char k) = false ->
  one_of [dquote; apos] q = true -> without q v = true ->
  run (Grp 0 re_attribute) (fun _ _ m => Some m) pos
    (ws ++ k ++ lit "=" ++ [q] ++ v ++ [q] ++ rest) []
  = Some [(0, ws ++ k ++ lit "=" ++ [q] ++ v ++ [q]); (3, v); (2, [q]);
          (1, k)].
Proof.
  intros Hws0 Hws Hk0 Hk Hhd Hq Hv.
  unfold re_attribute, plus, lazy_star. cbn [seq fold_right run].
  apply rep_greedy_run; [exact Hws| |destruct ws; [contradiction|cbn; lia]|].
  { destruct k as [|c k']; [contradiction|]. cbn in Hhd |- *.
    now rewrite Hhd. }
  apply rep_greedy_run; [exact Hk|reflexivity|
                         destruct k; [contradiction|cbn; lia]|].
  cbn [lit list_ascii_of_string app strip_prefix]. rewrite Ascii.eqb_refl.
  rewrite Hq.
  apply rep_lazy_first; [apply re_any_all|lia| |].
  - intros j Hj. cbn [sub_match Nat.eqb].
    replace (S _ - _) with 1 by lia. cbn [firstn].
    rewrite (strip_prefix_inside q [] v _ j Hv); [reflexivity|lia].
  - cbn [sub_match Nat.eqb].
    replace (S _ - _) with 1 by lia. cbn [firstn strip_prefix].
    rewrite Ascii.eqb_refl. rewrite !firstn_sub.
    f_equal. f_equal. f_equal.
    apply (firstn_exact _ _ _ rest).
    + cbn [app lit list_ascii_of_string].
      repeat first [rewrite <- app_assoc | rewrite <- app_comm_cons].
      cbn [app]. reflexivity.
    + text_length.
Qed.

(** The search passes over bytes that are no white space. *)
Lemma re_attribute_behind_junk (junk s : str) (m : smatch) :
  forallb (fun c => negb (re_space c)) junk = true ->
  (forall pos, run (Grp 0 re_attribute) (fun _ _ m => Some m) pos s []
               = Some m) ->
  std_regex_search (junk ++ s) re_attribute = Some m.
Proof.
  intros Hjunk Hs. unfold std_regex_search. generalize 0.
  induction junk as [|c junk IH]; intros pos.
  - apply search_from_here, Hs.
  - cbn [forallb] in Hjunk. apply andb_prop in Hjunk.
    destruct Hjunk as [Hc Hjunk]. apply negb_true_iff in Hc.
    cbn [app]. rewrite search_from_next; [now apply IH|].
    unfold re_attribute, plus. cbn [seq fold_right run rep].
    now rewrite Hc.
Qed.

Lemma parse_xml_attributes_loop_S
    (fuel : nat) (itr : str) (attributes : attribute_map) :
  parse_xml_attributes_loop (S fuel) itr attributes
  = match std_regex_search itr re_attribute with
    | Some m =>
        value <- (if str_eqb (sub_match m 2) [dquote]
                  then unescape_xml_attribute_value (sub_match m 3)
                  else unescape_xml_attribute_value_with_apos (sub_match m 3)) ;;
        parse_xml_attributes_loop fuel
          (skipn (length (sub_match m 0)) itr)
          (map_assign (sub_match m 1) value attributes)
    | None =>
        match itr with
        | [] => Return attributes
        | _ :: _ =>
            if std_regex_match itr re_spaces then Return attributes
            else Throw_iterator
        end
    end.
Proof. reflexivity. Qed.

(** X29.  [parse_xml_attributes] moves its iterator by the length of the
    match and not to the end of the match, so bytes in front of an
    attribute are not always seen: when they are no white space and as
    many as the bytes of the attribute, the attribute is read a second
    time in their place, and the map with that attribute is returned. *)
Theorem parse_xml_attributes_behind_junk (junk k v : str)
    (Hjunk : forallb (fun c => negb (re_space c)) junk = true)
    (Hlen : length junk = length (render_attribute (k, v)))
    (Hok : attribute_ok (k, v) = true) :
  parse_xml_attributes (junk ++ render_attribute (k, v)) = Return [(k, v)].
Proof.
  unfold attribute_ok in Hok. cbn [fst snd] in Hok.
  apply andb_prop in Hok. destruct Hok as [Hok Hv].
  apply andb_prop in Hok. destruct Hok as [Hok Hhd].
  apply andb_prop in Hok. destruct Hok as [Hk0 Hk].
  apply negb_true_iff in Hv, Hhd, Hk0.
  assert (Hk0' : k <> []) by (intros ->; discriminate Hk0).
  pose proof (without_of_existsb _ dquote v eq_refl Hv) as Hq.
  assert (Hu : unescape_xml_attribute_value v = Return v).
  { unfold unescape_xml_attribute_value, re_illegal_in_attribute_value.
    apply _unescape_xml_entity_plain.
    - apply (without_of_existsb _ "&" v eq_refl Hv).
    - revert Hv. apply existsb_false_impl. intros c. unfold one_of.
      cbn [existsb]. intros H.
      repeat match goal with
             | |- context [Ascii.eqb ?a ?b] => destruct (Ascii.eqb a b)
             end; try reflexivity; discriminate H. }
  unfold parse_xml_attributes.
  assert (Hfuel : exists fuel, length (junk ++ render_attribute (k, v))
                               = S (S fuel)).
  { rewrite length_app, Hlen. unfold render_attribute.
    cbn [fst snd app length lit list_ascii_of_string].
    eexists. rewrite Nat.add_succ_r. reflexivity. }
  destruct Hfuel as [fuel ->].
  rewrite parse_xml_attributes_loop_S.
  unfold render_attribute at 1. cbn [fst snd].
  rewrite (re_attribute_behind_junk junk _
             [(0, lit " " ++ k ++ lit "=" ++ [dquote] ++ v ++ [dquote]);
              (3, v); (2, [dquote]); (1, k)] Hjunk).
  2:{ intros pos.
      pose proof (re_attribute_run pos (lit " ") k v [] dquote) as E.
      rewrite app_nil_r in E. apply E; try assumption; try reflexivity.
      discriminate. }
  cbn [sub_match Nat.eqb].
  change (str_eqb [dquote] [dquote]) with true. cbv iota.
  rewrite Hu. cbn [bind map_assign].
  change (lit " " ++ k ++ lit "=" ++ [dquote] ++ v ++ [dquote])
    with (render_attribute (k, v)).
  rewrite <- Hlen, skipn_app_length.
  pose proof (parse_xml_attributes_loop_step fuel (lit " ") k v [] dquote
                [(k, v)]) as E.
  rewrite app_nil_r in E. unfold render_attribute. cbn [fst snd].
  rewrite E; try assumption; try reflexivity; [|discriminate].
  change (is_char dquote dquote) with true. cbv iota.
  rewrite Hu. cbn [bind map_assign].
  replace (str_eqb k k) with true by (symmetry; now apply str_eqb_eq).
  destruct fuel; reflexivity.
Qed.

Lemma parse_xml_attributes_behind_junk_witness :
  parse_xml_attributes (lit "junkju a=" ++ [dquote] ++ lit "1" ++ [dquote])
  = Return [(lit "a", lit "1")].
Proof.
  apply (parse_xml_attributes_behind_junk (lit "junkju") (lit "a") (lit "1"));
    reflexivity.
Defined.
